(** * gdrive2kalturabulk: the Drive walk, its completion barrier and the CSV writer

    A shallow embedding of [index.html], [drive.html] and [utils.js].

    JavaScript strings are represented by [string], read as the UTF-8 bytes of
    the text; every pattern the program searches for is ASCII, so searching,
    splitting and replacing on bytes agree with the same operations on UTF-16
    code units, and the one case conversion of the program is done character
    by character from the table of Unicode.  The event loop is an explicit
    transition system: one transition per macrotask (a listing answer
    together with the [.then] callback it triggers, a rejected listing, or a
    firing of an interval timer).  The globals live as long as the page:
    [makeCsv] can be called on any state of the page, and a session is a
    sequence of such calls, each followed by events. *)

From Stdlib Require Import String Ascii List ZArith Lia Bool Arith Permutation.
Import ListNotations.
Open Scope string_scope.

(** ** JavaScript primitives used by the program *)

Module JS.

(** A value that is either a string or [undefined]; the only two kinds of
    value that reach [arrayToCSVLine] and [Array.prototype.indexOf]. *)
Inductive value : Type :=
| VString (s : string)
| VUndefined.

Definition LF : ascii := "010"%char.
Definition COMMA : ascii := ","%char.
Definition DQUOTE : ascii := ascii_of_nat 34.
Definition SLASH : ascii := "/"%char.

(** The one-character string [s] of a character. *)
Definition str (c : ascii) : string := String c EmptyString.

(** [s.indexOf(pat)]: position of the first occurrence, [-1] when absent. *)
Fixpoint indexOf_from (pat s : string) (i : Z) : Z :=
  if prefix pat s then i
  else match s with
       | EmptyString => (-1)%Z
       | String _ s' => indexOf_from pat s' (i + 1)%Z
       end.

Definition indexOf (s pat : string) : Z := indexOf_from pat s 0%Z.

(** [s.includes(pat)]. *)
Fixpoint includes (s pat : string) : bool :=
  prefix pat s ||
  match s with
  | EmptyString => false
  | String _ s' => includes s' pat
  end.

(** [s.split(sep)] for a one-character separator. *)
Fixpoint split (sep : ascii) (s : string) : list string :=
  match s with
  | EmptyString => [EmptyString]
  | String c s' =>
      if Ascii.eqb c sep then EmptyString :: split sep s'
      else match split sep s' with
           | [] => [str c]
           | f :: fs => String c f :: fs
           end
  end.

(** [a.join(sep)] on an array of strings. *)
Definition join (sep : string) (a : list string) : string := String.concat sep a.

(** [Array.prototype.join] renders [undefined] as the empty string. *)
Definition toJoinString (v : value) : string :=
  match v with
  | VString s => s
  | VUndefined => EmptyString
  end.

Definition joinValues (sep : string) (a : list value) : string :=
  join sep (map toJoinString a).

(** [s.replace(/c/g, by)]. *)
Fixpoint replaceAll (c : ascii) (by_ : string) (s : string) : string :=
  match s with
  | EmptyString => EmptyString
  | String d s' =>
      if Ascii.eqb d c then by_ ++ replaceAll c by_ s'
      else String d (replaceAll c by_ s')
  end.

(** The text that has the bytes [l]. *)
Definition bytes (l : list N) : string :=
  fold_right (fun n s => String (ascii_of_N n) s) EmptyString l.

(** The number of bytes of the UTF-8 sequence that the byte [c] begins. *)
Definition utf8_width (c : ascii) : nat :=
  let n := N_of_ascii c in
  if (n <? 192)%N then 1%nat
  else if (n <? 224)%N then 2%nat
  else if (n <? 240)%N then 3%nat
  else 4%nat.

(** [s] cut after its first [n] bytes. *)
Fixpoint cut (n : nat) (s : string) : string * string :=
  match n, s with
  | S n', String c s' => let (a, b) := cut n' s' in (String c a, b)
  | _, _ => (EmptyString, s)
  end.

(** Unicode default case conversion, which is what [toUpperCase] does: the
    characters of the Basic Multilingual Plane that have another upper case
    (the simple mappings of UnicodeData and the unconditional mappings of
    SpecialCasing, Unicode 14), each followed by its upper case, both as
    UTF-8 bytes.  The upper case of one character can be several
    characters. *)
Definition upper_case_table : list (list N * list N) := [
  ([97], [65]); ([98], [66]); ([99], [67]); ([100], [68]); ([101], [69]); ([102], [70]);
  ([103], [71]); ([104], [72]); ([105], [73]); ([106], [74]); ([107], [75]); ([108], [76]);
  ([109], [77]); ([110], [78]); ([111], [79]); ([112], [80]); ([113], [81]); ([114], [82]);
  ([115], [83]); ([116], [84]); ([117], [85]); ([118], [86]); ([119], [87]); ([120], [88]);
  ([121], [89]); ([122], [90]); ([194;181], [206;156]); ([195;159], [83;83]);
  ([195;160], [195;128]); ([195;161], [195;129]); ([195;162], [195;130]);
  ([195;163], [195;131]); ([195;164], [195;132]); ([195;165], [195;133]);
  ([195;166], [195;134]); ([195;167], [195;135]); ([195;168], [195;136]);
  ([195;169], [195;137]); ([195;170], [195;138]); ([195;171], [195;139]);
  ([195;172], [195;140]); ([195;173], [195;141]); ([195;174], [195;142]);
  ([195;175], [195;143]); ([195;176], [195;144]); ([195;177], [195;145]);
  ([195;178], [195;146]); ([195;179], [195;147]); ([195;180], [195;148]);
  ([195;181], [195;149]); ([195;182], [195;150]); ([195;184], [195;152]);
  ([195;185], [195;153]); ([195;186], [195;154]); ([195;187], [195;155]);
  ([195;188], [195;156]); ([195;189], [195;157]); ([195;190], [195;158]);
  ([195;191], [197;184]); ([196;129], [196;128]); ([196;131], [196;130]);
  ([196;133], [196;132]); ([196;135], [196;134]); ([196;137], [196;136]);
  ([196;139], [196;138]); ([196;141], [196;140]); ([196;143], [196;142]);
  ([196;145], [196;144]); ([196;147], [196;146]); ([196;149], [196;148]);
  ([196;151], [196;150]); ([196;153], [196;152]); ([196;155], [196;154]);
  ([196;157], [196;156]); ([196;159], [196;158]); ([196;161], [196;160]);
  ([196;163], [196;162]); ([196;165], [196;164]); ([196;167], [196;166]);
  ([196;169], [196;168]); ([196;171], [196;170]); ([196;173], [196;172]);
  ([196;175], [196;174]); ([196;177], [73]); ([196;179], [196;178]); ([196;181], [196;180]);
  ([196;183], [196;182]); ([196;186], [196;185]); ([196;188], [196;187]);
  ([196;190], [196;189]); ([197;128], [196;191]); ([197;130], [197;129]);
  ([197;132], [197;131]); ([197;134], [197;133]); ([197;136], [197;135]);
  ([197;137], [202;188;78]); ([197;139], [197;138]); ([197;141], [197;140]);
  ([197;143], [197;142]); ([197;145], [197;144]); ([197;147], [197;146]);
  ([197;149], [197;148]); ([197;151], [197;150]); ([197;153], [197;152]);
  ([197;155], [197;154]); ([197;157], [197;156]); ([197;159], [197;158]);
  ([197;161], [197;160]); ([197;163], [197;162]); ([197;165], [197;164]);
  ([197;167], [197;166]); ([197;169], [197;168]); ([197;171], [197;170]);
  ([197;173], [197;172]); ([197;175], [197;174]); ([197;177], [197;176]);
  ([197;179], [197;178]); ([197;181], [197;180]); ([197;183], [197;182]);
  ([197;186], [197;185]); ([197;188], [197;187]); ([197;190], [197;189]); ([197;191], [83]);
  ([198;128], [201;131]); ([198;131], [198;130]); ([198;133], [198;132]);
  ([198;136], [198;135]); ([198;140], [198;139]); ([198;146], [198;145]);
  ([198;149], [199;182]); ([198;153], [198;152]); ([198;154], [200;189]);
  ([198;158], [200;160]); ([198;161], [198;160]); ([198;163], [198;162]);
  ([198;165], [198;164]); ([198;168], [198;167]); ([198;173], [198;172]);
  ([198;176], [198;175]); ([198;180], [198;179]); ([198;182], [198;181]);
  ([198;185], [198;184]); ([198;189], [198;188]); ([198;191], [199;183]);
  ([199;133], [199;132]); ([199;134], [199;132]); ([199;136], [199;135]);
  ([199;137], [199;135]); ([199;139], [199;138]); ([199;140], [199;138]);
  ([199;142], [199;141]); ([199;144], [199;143]); ([199;146], [199;145]);
  ([199;148], [199;147]); ([199;150], [199;149]); ([199;152], [199;151]);
  ([199;154], [199;153]); ([199;156], [199;155]); ([199;157], [198;142]);
  ([199;159], [199;158]); ([199;161], [199;160]); ([199;163], [199;162]);
  ([199;165], [199;164]); ([199;167], [199;166]); ([199;169], [199;168]);
  ([199;171], [199;170]); ([199;173], [199;172]); ([199;175], [199;174]);
  ([199;176], [74;204;140]); ([199;178], [199;177]); ([199;179], [199;177]);
  ([199;181], [199;180]); ([199;185], [199;184]); ([199;187], [199;186]);
  ([199;189], [199;188]); ([199;191], [199;190]); ([200;129], [200;128]);
  ([200;131], [200;130]); ([200;133], [200;132]); ([200;135], [200;134]);
  ([200;137], [200;136]); ([200;139], [200;138]); ([200;141], [200;140]);
  ([200;143], [200;142]); ([200;145], [200;144]); ([200;147], [200;146]);
  ([200;149], [200;148]); ([200;151], [200;150]); ([200;153], [200;152]);
  ([200;155], [200;154]); ([200;157], [200;156]); ([200;159], [200;158]);
  ([200;163], [200;162]); ([200;165], [200;164]); ([200;167], [200;166]);
  ([200;169], [200;168]); ([200;171], [200;170]); ([200;173], [200;172]);
  ([200;175], [200;174]); ([200;177], [200;176]); ([200;179], [200;178]);
  ([200;188], [200;187]); ([200;191], [226;177;190]); ([201;128], [226;177;191]);
  ([201;130], [201;129]); ([201;135], [201;134]); ([201;137], [201;136]);
  ([201;139], [201;138]); ([201;141], [201;140]); ([201;143], [201;142]);
  ([201;144], [226;177;175]); ([201;145], [226;177;173]); ([201;146], [226;177;176]);
  ([201;147], [198;129]); ([201;148], [198;134]); ([201;150], [198;137]);
  ([201;151], [198;138]); ([201;153], [198;143]); ([201;155], [198;144]);
  ([201;156], [234;158;171]); ([201;160], [198;147]); ([201;161], [234;158;172]);
  ([201;163], [198;148]); ([201;165], [234;158;141]); ([201;166], [234;158;170]);
  ([201;168], [198;151]); ([201;169], [198;150]); ([201;170], [234;158;174]);
  ([201;171], [226;177;162]); ([201;172], [234;158;173]); ([201;175], [198;156]);
  ([201;177], [226;177;174]); ([201;178], [198;157]); ([201;181], [198;159]);
  ([201;189], [226;177;164]); ([202;128], [198;166]); ([202;130], [234;159;133]);
  ([202;131], [198;169]); ([202;135], [234;158;177]); ([202;136], [198;174]);
  ([202;137], [201;132]); ([202;138], [198;177]); ([202;139], [198;178]);
  ([202;140], [201;133]); ([202;146], [198;183]); ([202;157], [234;158;178]);
  ([202;158], [234;158;176]); ([205;133], [206;153]); ([205;177], [205;176]);
  ([205;179], [205;178]); ([205;183], [205;182]); ([205;187], [207;189]);
  ([205;188], [207;190]); ([205;189], [207;191]); ([206;144], [206;153;204;136;204;129]);
  ([206;172], [206;134]); ([206;173], [206;136]); ([206;174], [206;137]);
  ([206;175], [206;138]); ([206;176], [206;165;204;136;204;129]); ([206;177], [206;145]);
  ([206;178], [206;146]); ([206;179], [206;147]); ([206;180], [206;148]);
  ([206;181], [206;149]); ([206;182], [206;150]); ([206;183], [206;151]);
  ([206;184], [206;152]); ([206;185], [206;153]); ([206;186], [206;154]);
  ([206;187], [206;155]); ([206;188], [206;156]); ([206;189], [206;157]);
  ([206;190], [206;158]); ([206;191], [206;159]); ([207;128], [206;160]);
  ([207;129], [206;161]); ([207;130], [206;163]); ([207;131], [206;163]);
  ([207;132], [206;164]); ([207;133], [206;165]); ([207;134], [206;166]);
  ([207;135], [206;167]); ([207;136], [206;168]); ([207;137], [206;169]);
  ([207;138], [206;170]); ([207;139], [206;171]); ([207;140], [206;140]);
  ([207;141], [206;142]); ([207;142], [206;143]); ([207;144], [206;146]);
  ([207;145], [206;152]); ([207;149], [206;166]); ([207;150], [206;160]);
  ([207;151], [207;143]); ([207;153], [207;152]); ([207;155], [207;154]);
  ([207;157], [207;156]); ([207;159], [207;158]); ([207;161], [207;160]);
  ([207;163], [207;162]); ([207;165], [207;164]); ([207;167], [207;166]);
  ([207;169], [207;168]); ([207;171], [207;170]); ([207;173], [207;172]);
  ([207;175], [207;174]); ([207;176], [206;154]); ([207;177], [206;161]);
  ([207;178], [207;185]); ([207;179], [205;191]); ([207;181], [206;149]);
  ([207;184], [207;183]); ([207;187], [207;186]); ([208;176], [208;144]);
  ([208;177], [208;145]); ([208;178], [208;146]); ([208;179], [208;147]);
  ([208;180], [208;148]); ([208;181], [208;149]); ([208;182], [208;150]);
  ([208;183], [208;151]); ([208;184], [208;152]); ([208;185], [208;153]);
  ([208;186], [208;154]); ([208;187], [208;155]); ([208;188], [208;156]);
  ([208;189], [208;157]); ([208;190], [208;158]); ([208;191], [208;159]);
  ([209;128], [208;160]); ([209;129], [208;161]); ([209;130], [208;162]);
  ([209;131], [208;163]); ([209;132], [208;164]); ([209;133], [208;165]);
  ([209;134], [208;166]); ([209;135], [208;167]); ([209;136], [208;168]);
  ([209;137], [208;169]); ([209;138], [208;170]); ([209;139], [208;171]);
  ([209;140], [208;172]); ([209;141], [208;173]); ([209;142], [208;174]);
  ([209;143], [208;175]); ([209;144], [208;128]); ([209;145], [208;129]);
  ([209;146], [208;130]); ([209;147], [208;131]); ([209;148], [208;132]);
  ([209;149], [208;133]); ([209;150], [208;134]); ([209;151], [208;135]);
  ([209;152], [208;136]); ([209;153], [208;137]); ([209;154], [208;138]);
  ([209;155], [208;139]); ([209;156], [208;140]); ([209;157], [208;141]);
  ([209;158], [208;142]); ([209;159], [208;143]); ([209;161], [209;160]);
  ([209;163], [209;162]); ([209;165], [209;164]); ([209;167], [209;166]);
  ([209;169], [209;168]); ([209;171], [209;170]); ([209;173], [209;172]);
  ([209;175], [209;174]); ([209;177], [209;176]); ([209;179], [209;178]);
  ([209;181], [209;180]); ([209;183], [209;182]); ([209;185], [209;184]);
  ([209;187], [209;186]); ([209;189], [209;188]); ([209;191], [209;190]);
  ([210;129], [210;128]); ([210;139], [210;138]); ([210;141], [210;140]);
  ([210;143], [210;142]); ([210;145], [210;144]); ([210;147], [210;146]);
  ([210;149], [210;148]); ([210;151], [210;150]); ([210;153], [210;152]);
  ([210;155], [210;154]); ([210;157], [210;156]); ([210;159], [210;158]);
  ([210;161], [210;160]); ([210;163], [210;162]); ([210;165], [210;164]);
  ([210;167], [210;166]); ([210;169], [210;168]); ([210;171], [210;170]);
  ([210;173], [210;172]); ([210;175], [210;174]); ([210;177], [210;176]);
  ([210;179], [210;178]); ([210;181], [210;180]); ([210;183], [210;182]);
  ([210;185], [210;184]); ([210;187], [210;186]); ([210;189], [210;188]);
  ([210;191], [210;190]); ([211;130], [211;129]); ([211;132], [211;131]);
  ([211;134], [211;133]); ([211;136], [211;135]); ([211;138], [211;137]);
  ([211;140], [211;139]); ([211;142], [211;141]); ([211;143], [211;128]);
  ([211;145], [211;144]); ([211;147], [211;146]); ([211;149], [211;148]);
  ([211;151], [211;150]); ([211;153], [211;152]); ([211;155], [211;154]);
  ([211;157], [211;156]); ([211;159], [211;158]); ([211;161], [211;160]);
  ([211;163], [211;162]); ([211;165], [211;164]); ([211;167], [211;166]);
  ([211;169], [211;168]); ([211;171], [211;170]); ([211;173], [211;172]);
  ([211;175], [211;174]); ([211;177], [211;176]); ([211;179], [211;178]);
  ([211;181], [211;180]); ([211;183], [211;182]); ([211;185], [211;184]);
  ([211;187], [211;186]); ([211;189], [211;188]); ([211;191], [211;190]);
  ([212;129], [212;128]); ([212;131], [212;130]); ([212;133], [212;132]);
  ([212;135], [212;134]); ([212;137], [212;136]); ([212;139], [212;138]);
  ([212;141], [212;140]); ([212;143], [212;142]); ([212;145], [212;144]);
  ([212;147], [212;146]); ([212;149], [212;148]); ([212;151], [212;150]);
  ([212;153], [212;152]); ([212;155], [212;154]); ([212;157], [212;156]);
  ([212;159], [212;158]); ([212;161], [212;160]); ([212;163], [212;162]);
  ([212;165], [212;164]); ([212;167], [212;166]); ([212;169], [212;168]);
  ([212;171], [212;170]); ([212;173], [212;172]); ([212;175], [212;174]);
  ([213;161], [212;177]); ([213;162], [212;178]); ([213;163], [212;179]);
  ([213;164], [212;180]); ([213;165], [212;181]); ([213;166], [212;182]);
  ([213;167], [212;183]); ([213;168], [212;184]); ([213;169], [212;185]);
  ([213;170], [212;186]); ([213;171], [212;187]); ([213;172], [212;188]);
  ([213;173], [212;189]); ([213;174], [212;190]); ([213;175], [212;191]);
  ([213;176], [213;128]); ([213;177], [213;129]); ([213;178], [213;130]);
  ([213;179], [213;131]); ([213;180], [213;132]); ([213;181], [213;133]);
  ([213;182], [213;134]); ([213;183], [213;135]); ([213;184], [213;136]);
  ([213;185], [213;137]); ([213;186], [213;138]); ([213;187], [213;139]);
  ([213;188], [213;140]); ([213;189], [213;141]); ([213;190], [213;142]);
  ([213;191], [213;143]); ([214;128], [213;144]); ([214;129], [213;145]);
  ([214;130], [213;146]); ([214;131], [213;147]); ([214;132], [213;148]);
  ([214;133], [213;149]); ([214;134], [213;150]); ([214;135], [212;181;213;146]);
  ([225;131;144], [225;178;144]); ([225;131;145], [225;178;145]);
  ([225;131;146], [225;178;146]); ([225;131;147], [225;178;147]);
  ([225;131;148], [225;178;148]); ([225;131;149], [225;178;149]);
  ([225;131;150], [225;178;150]); ([225;131;151], [225;178;151]);
  ([225;131;152], [225;178;152]); ([225;131;153], [225;178;153]);
  ([225;131;154], [225;178;154]); ([225;131;155], [225;178;155]);
  ([225;131;156], [225;178;156]); ([225;131;157], [225;178;157]);
  ([225;131;158], [225;178;158]); ([225;131;159], [225;178;159]);
  ([225;131;160], [225;178;160]); ([225;131;161], [225;178;161]);
  ([225;131;162], [225;178;162]); ([225;131;163], [225;178;163]);
  ([225;131;164], [225;178;164]); ([225;131;165], [225;178;165]);
  ([225;131;166], [225;178;166]); ([225;131;167], [225;178;167]);
  ([225;131;168], [225;178;168]); ([225;131;169], [225;178;169]);
  ([225;131;170], [225;178;170]); ([225;131;171], [225;178;171]);
  ([225;131;172], [225;178;172]); ([225;131;173], [225;178;173]);
  ([225;131;174], [225;178;174]); ([225;131;175], [225;178;175]);
  ([225;131;176], [225;178;176]); ([225;131;177], [225;178;177]);
  ([225;131;178], [225;178;178]); ([225;131;179], [225;178;179]);
  ([225;131;180], [225;178;180]); ([225;131;181], [225;178;181]);
  ([225;131;182], [225;178;182]); ([225;131;183], [225;178;183]);
  ([225;131;184], [225;178;184]); ([225;131;185], [225;178;185]);
  ([225;131;186], [225;178;186]); ([225;131;189], [225;178;189]);
  ([225;131;190], [225;178;190]); ([225;131;191], [225;178;191]);
  ([225;143;184], [225;143;176]); ([225;143;185], [225;143;177]);
  ([225;143;186], [225;143;178]); ([225;143;187], [225;143;179]);
  ([225;143;188], [225;143;180]); ([225;143;189], [225;143;181]); ([225;178;128], [208;146]);
  ([225;178;129], [208;148]); ([225;178;130], [208;158]); ([225;178;131], [208;161]);
  ([225;178;132], [208;162]); ([225;178;133], [208;162]); ([225;178;134], [208;170]);
  ([225;178;135], [209;162]); ([225;178;136], [234;153;138]); ([225;181;185], [234;157;189]);
  ([225;181;189], [226;177;163]); ([225;182;142], [234;159;134]);
  ([225;184;129], [225;184;128]); ([225;184;131], [225;184;130]);
  ([225;184;133], [225;184;132]); ([225;184;135], [225;184;134]);
  ([225;184;137], [225;184;136]); ([225;184;139], [225;184;138]);
  ([225;184;141], [225;184;140]); ([225;184;143], [225;184;142]);
  ([225;184;145], [225;184;144]); ([225;184;147], [225;184;146]);
  ([225;184;149], [225;184;148]); ([225;184;151], [225;184;150]);
  ([225;184;153], [225;184;152]); ([225;184;155], [225;184;154]);
  ([225;184;157], [225;184;156]); ([225;184;159], [225;184;158]);
  ([225;184;161], [225;184;160]); ([225;184;163], [225;184;162]);
  ([225;184;165], [225;184;164]); ([225;184;167], [225;184;166]);
  ([225;184;169], [225;184;168]); ([225;184;171], [225;184;170]);
  ([225;184;173], [225;184;172]); ([225;184;175], [225;184;174]);
  ([225;184;177], [225;184;176]); ([225;184;179], [225;184;178]);
  ([225;184;181], [225;184;180]); ([225;184;183], [225;184;182]);
  ([225;184;185], [225;184;184]); ([225;184;187], [225;184;186]);
  ([225;184;189], [225;184;188]); ([225;184;191], [225;184;190]);
  ([225;185;129], [225;185;128]); ([225;185;131], [225;185;130]);
  ([225;185;133], [225;185;132]); ([225;185;135], [225;185;134]);
  ([225;185;137], [225;185;136]); ([225;185;139], [225;185;138]);
  ([225;185;141], [225;185;140]); ([225;185;143], [225;185;142]);
  ([225;185;145], [225;185;144]); ([225;185;147], [225;185;146]);
  ([225;185;149], [225;185;148]); ([225;185;151], [225;185;150]);
  ([225;185;153], [225;185;152]); ([225;185;155], [225;185;154]);
  ([225;185;157], [225;185;156]); ([225;185;159], [225;185;158]);
  ([225;185;161], [225;185;160]); ([225;185;163], [225;185;162]);
  ([225;185;165], [225;185;164]); ([225;185;167], [225;185;166]);
  ([225;185;169], [225;185;168]); ([225;185;171], [225;185;170]);
  ([225;185;173], [225;185;172]); ([225;185;175], [225;185;174]);
  ([225;185;177], [225;185;176]); ([225;185;179], [225;185;178]);
  ([225;185;181], [225;185;180]); ([225;185;183], [225;185;182]);
  ([225;185;185], [225;185;184]); ([225;185;187], [225;185;186]);
  ([225;185;189], [225;185;188]); ([225;185;191], [225;185;190]);
  ([225;186;129], [225;186;128]); ([225;186;131], [225;186;130]);
  ([225;186;133], [225;186;132]); ([225;186;135], [225;186;134]);
  ([225;186;137], [225;186;136]); ([225;186;139], [225;186;138]);
  ([225;186;141], [225;186;140]); ([225;186;143], [225;186;142]);
  ([225;186;145], [225;186;144]); ([225;186;147], [225;186;146]);
  ([225;186;149], [225;186;148]); ([225;186;150], [72;204;177]); ([225;186;151], [84;204;136]);
  ([225;186;152], [87;204;138]); ([225;186;153], [89;204;138]); ([225;186;154], [65;202;190]);
  ([225;186;155], [225;185;160]); ([225;186;161], [225;186;160]);
  ([225;186;163], [225;186;162]); ([225;186;165], [225;186;164]);
  ([225;186;167], [225;186;166]); ([225;186;169], [225;186;168]);
  ([225;186;171], [225;186;170]); ([225;186;173], [225;186;172]);
  ([225;186;175], [225;186;174]); ([225;186;177], [225;186;176]);
  ([225;186;179], [225;186;178]); ([225;186;181], [225;186;180]);
  ([225;186;183], [225;186;182]); ([225;186;185], [225;186;184]);
  ([225;186;187], [225;186;186]); ([225;186;189], [225;186;188]);
  ([225;186;191], [225;186;190]); ([225;187;129], [225;187;128]);
  ([225;187;131], [225;187;130]); ([225;187;133], [225;187;132]);
  ([225;187;135], [225;187;134]); ([225;187;137], [225;187;136]);
  ([225;187;139], [225;187;138]); ([225;187;141], [225;187;140]);
  ([225;187;143], [225;187;142]); ([225;187;145], [225;187;144]);
  ([225;187;147], [225;187;146]); ([225;187;149], [225;187;148]);
  ([225;187;151], [225;187;150]); ([225;187;153], [225;187;152]);
  ([225;187;155], [225;187;154]); ([225;187;157], [225;187;156]);
  ([225;187;159], [225;187;158]); ([225;187;161], [225;187;160]);
  ([225;187;163], [225;187;162]); ([225;187;165], [225;187;164]);
  ([225;187;167], [225;187;166]); ([225;187;169], [225;187;168]);
  ([225;187;171], [225;187;170]); ([225;187;173], [225;187;172]);
  ([225;187;175], [225;187;174]); ([225;187;177], [225;187;176]);
  ([225;187;179], [225;187;178]); ([225;187;181], [225;187;180]);
  ([225;187;183], [225;187;182]); ([225;187;185], [225;187;184]);
  ([225;187;187], [225;187;186]); ([225;187;189], [225;187;188]);
  ([225;187;191], [225;187;190]); ([225;188;128], [225;188;136]);
  ([225;188;129], [225;188;137]); ([225;188;130], [225;188;138]);
  ([225;188;131], [225;188;139]); ([225;188;132], [225;188;140]);
  ([225;188;133], [225;188;141]); ([225;188;134], [225;188;142]);
  ([225;188;135], [225;188;143]); ([225;188;144], [225;188;152]);
  ([225;188;145], [225;188;153]); ([225;188;146], [225;188;154]);
  ([225;188;147], [225;188;155]); ([225;188;148], [225;188;156]);
  ([225;188;149], [225;188;157]); ([225;188;160], [225;188;168]);
  ([225;188;161], [225;188;169]); ([225;188;162], [225;188;170]);
  ([225;188;163], [225;188;171]); ([225;188;164], [225;188;172]);
  ([225;188;165], [225;188;173]); ([225;188;166], [225;188;174]);
  ([225;188;167], [225;188;175]); ([225;188;176], [225;188;184]);
  ([225;188;177], [225;188;185]); ([225;188;178], [225;188;186]);
  ([225;188;179], [225;188;187]); ([225;188;180], [225;188;188]);
  ([225;188;181], [225;188;189]); ([225;188;182], [225;188;190]);
  ([225;188;183], [225;188;191]); ([225;189;128], [225;189;136]);
  ([225;189;129], [225;189;137]); ([225;189;130], [225;189;138]);
  ([225;189;131], [225;189;139]); ([225;189;132], [225;189;140]);
  ([225;189;133], [225;189;141]); ([225;189;144], [206;165;204;147]);
  ([225;189;145], [225;189;153]); ([225;189;146], [206;165;204;147;204;128]);
  ([225;189;147], [225;189;155]); ([225;189;148], [206;165;204;147;204;129]);
  ([225;189;149], [225;189;157]); ([225;189;150], [206;165;204;147;205;130]);
  ([225;189;151], [225;189;159]); ([225;189;160], [225;189;168]);
  ([225;189;161], [225;189;169]); ([225;189;162], [225;189;170]);
  ([225;189;163], [225;189;171]); ([225;189;164], [225;189;172]);
  ([225;189;165], [225;189;173]); ([225;189;166], [225;189;174]);
  ([225;189;167], [225;189;175]); ([225;189;176], [225;190;186]);
  ([225;189;177], [225;190;187]); ([225;189;178], [225;191;136]);
  ([225;189;179], [225;191;137]); ([225;189;180], [225;191;138]);
  ([225;189;181], [225;191;139]); ([225;189;182], [225;191;154]);
  ([225;189;183], [225;191;155]); ([225;189;184], [225;191;184]);
  ([225;189;185], [225;191;185]); ([225;189;186], [225;191;170]);
  ([225;189;187], [225;191;171]); ([225;189;188], [225;191;186]);
  ([225;189;189], [225;191;187]); ([225;190;128], [225;188;136;206;153]);
  ([225;190;129], [225;188;137;206;153]); ([225;190;130], [225;188;138;206;153]);
  ([225;190;131], [225;188;139;206;153]); ([225;190;132], [225;188;140;206;153]);
  ([225;190;133], [225;188;141;206;153]); ([225;190;134], [225;188;142;206;153]);
  ([225;190;135], [225;188;143;206;153]); ([225;190;136], [225;188;136;206;153]);
  ([225;190;137], [225;188;137;206;153]); ([225;190;138], [225;188;138;206;153]);
  ([225;190;139], [225;188;139;206;153]); ([225;190;140], [225;188;140;206;153]);
  ([225;190;141], [225;188;141;206;153]); ([225;190;142], [225;188;142;206;153]);
  ([225;190;143], [225;188;143;206;153]); ([225;190;144], [225;188;168;206;153]);
  ([225;190;145], [225;188;169;206;153]); ([225;190;146], [225;188;170;206;153]);
  ([225;190;147], [225;188;171;206;153]); ([225;190;148], [225;188;172;206;153]);
  ([225;190;149], [225;188;173;206;153]); ([225;190;150], [225;188;174;206;153]);
  ([225;190;151], [225;188;175;206;153]); ([225;190;152], [225;188;168;206;153]);
  ([225;190;153], [225;188;169;206;153]); ([225;190;154], [225;188;170;206;153]);
  ([225;190;155], [225;188;171;206;153]); ([225;190;156], [225;188;172;206;153]);
  ([225;190;157], [225;188;173;206;153]); ([225;190;158], [225;188;174;206;153]);
  ([225;190;159], [225;188;175;206;153]); ([225;190;160], [225;189;168;206;153]);
  ([225;190;161], [225;189;169;206;153]); ([225;190;162], [225;189;170;206;153]);
  ([225;190;163], [225;189;171;206;153]); ([225;190;164], [225;189;172;206;153]);
  ([225;190;165], [225;189;173;206;153]); ([225;190;166], [225;189;174;206;153]);
  ([225;190;167], [225;189;175;206;153]); ([225;190;168], [225;189;168;206;153]);
  ([225;190;169], [225;189;169;206;153]); ([225;190;170], [225;189;170;206;153]);
  ([225;190;171], [225;189;171;206;153]); ([225;190;172], [225;189;172;206;153]);
  ([225;190;173], [225;189;173;206;153]); ([225;190;174], [225;189;174;206;153]);
  ([225;190;175], [225;189;175;206;153]); ([225;190;176], [225;190;184]);
  ([225;190;177], [225;190;185]); ([225;190;178], [225;190;186;206;153]);
  ([225;190;179], [206;145;206;153]); ([225;190;180], [206;134;206;153]);
  ([225;190;182], [206;145;205;130]); ([225;190;183], [206;145;205;130;206;153]);
  ([225;190;188], [206;145;206;153]); ([225;190;190], [206;153]);
  ([225;191;130], [225;191;138;206;153]); ([225;191;131], [206;151;206;153]);
  ([225;191;132], [206;137;206;153]); ([225;191;134], [206;151;205;130]);
  ([225;191;135], [206;151;205;130;206;153]); ([225;191;140], [206;151;206;153]);
  ([225;191;144], [225;191;152]); ([225;191;145], [225;191;153]);
  ([225;191;146], [206;153;204;136;204;128]); ([225;191;147], [206;153;204;136;204;129]);
  ([225;191;150], [206;153;205;130]); ([225;191;151], [206;153;204;136;205;130]);
  ([225;191;160], [225;191;168]); ([225;191;161], [225;191;169]);
  ([225;191;162], [206;165;204;136;204;128]); ([225;191;163], [206;165;204;136;204;129]);
  ([225;191;164], [206;161;204;147]); ([225;191;165], [225;191;172]);
  ([225;191;166], [206;165;205;130]); ([225;191;167], [206;165;204;136;205;130]);
  ([225;191;178], [225;191;186;206;153]); ([225;191;179], [206;169;206;153]);
  ([225;191;180], [206;143;206;153]); ([225;191;182], [206;169;205;130]);
  ([225;191;183], [206;169;205;130;206;153]); ([225;191;188], [206;169;206;153]);
  ([226;133;142], [226;132;178]); ([226;133;176], [226;133;160]);
  ([226;133;177], [226;133;161]); ([226;133;178], [226;133;162]);
  ([226;133;179], [226;133;163]); ([226;133;180], [226;133;164]);
  ([226;133;181], [226;133;165]); ([226;133;182], [226;133;166]);
  ([226;133;183], [226;133;167]); ([226;133;184], [226;133;168]);
  ([226;133;185], [226;133;169]); ([226;133;186], [226;133;170]);
  ([226;133;187], [226;133;171]); ([226;133;188], [226;133;172]);
  ([226;133;189], [226;133;173]); ([226;133;190], [226;133;174]);
  ([226;133;191], [226;133;175]); ([226;134;132], [226;134;131]);
  ([226;147;144], [226;146;182]); ([226;147;145], [226;146;183]);
  ([226;147;146], [226;146;184]); ([226;147;147], [226;146;185]);
  ([226;147;148], [226;146;186]); ([226;147;149], [226;146;187]);
  ([226;147;150], [226;146;188]); ([226;147;151], [226;146;189]);
  ([226;147;152], [226;146;190]); ([226;147;153], [226;146;191]);
  ([226;147;154], [226;147;128]); ([226;147;155], [226;147;129]);
  ([226;147;156], [226;147;130]); ([226;147;157], [226;147;131]);
  ([226;147;158], [226;147;132]); ([226;147;159], [226;147;133]);
  ([226;147;160], [226;147;134]); ([226;147;161], [226;147;135]);
  ([226;147;162], [226;147;136]); ([226;147;163], [226;147;137]);
  ([226;147;164], [226;147;138]); ([226;147;165], [226;147;139]);
  ([226;147;166], [226;147;140]); ([226;147;167], [226;147;141]);
  ([226;147;168], [226;147;142]); ([226;147;169], [226;147;143]);
  ([226;176;176], [226;176;128]); ([226;176;177], [226;176;129]);
  ([226;176;178], [226;176;130]); ([226;176;179], [226;176;131]);
  ([226;176;180], [226;176;132]); ([226;176;181], [226;176;133]);
  ([226;176;182], [226;176;134]); ([226;176;183], [226;176;135]);
  ([226;176;184], [226;176;136]); ([226;176;185], [226;176;137]);
  ([226;176;186], [226;176;138]); ([226;176;187], [226;176;139]);
  ([226;176;188], [226;176;140]); ([226;176;189], [226;176;141]);
  ([226;176;190], [226;176;142]); ([226;176;191], [226;176;143]);
  ([226;177;128], [226;176;144]); ([226;177;129], [226;176;145]);
  ([226;177;130], [226;176;146]); ([226;177;131], [226;176;147]);
  ([226;177;132], [226;176;148]); ([226;177;133], [226;176;149]);
  ([226;177;134], [226;176;150]); ([226;177;135], [226;176;151]);
  ([226;177;136], [226;176;152]); ([226;177;137], [226;176;153]);
  ([226;177;138], [226;176;154]); ([226;177;139], [226;176;155]);
  ([226;177;140], [226;176;156]); ([226;177;141], [226;176;157]);
  ([226;177;142], [226;176;158]); ([226;177;143], [226;176;159]);
  ([226;177;144], [226;176;160]); ([226;177;145], [226;176;161]);
  ([226;177;146], [226;176;162]); ([226;177;147], [226;176;163]);
  ([226;177;148], [226;176;164]); ([226;177;149], [226;176;165]);
  ([226;177;150], [226;176;166]); ([226;177;151], [226;176;167]);
  ([226;177;152], [226;176;168]); ([226;177;153], [226;176;169]);
  ([226;177;154], [226;176;170]); ([226;177;155], [226;176;171]);
  ([226;177;156], [226;176;172]); ([226;177;157], [226;176;173]);
  ([226;177;158], [226;176;174]); ([226;177;159], [226;176;175]);
  ([226;177;161], [226;177;160]); ([226;177;165], [200;186]); ([226;177;166], [200;190]);
  ([226;177;168], [226;177;167]); ([226;177;170], [226;177;169]);
  ([226;177;172], [226;177;171]); ([226;177;179], [226;177;178]);
  ([226;177;182], [226;177;181]); ([226;178;129], [226;178;128]);
  ([226;178;131], [226;178;130]); ([226;178;133], [226;178;132]);
  ([226;178;135], [226;178;134]); ([226;178;137], [226;178;136]);
  ([226;178;139], [226;178;138]); ([226;178;141], [226;178;140]);
  ([226;178;143], [226;178;142]); ([226;178;145], [226;178;144]);
  ([226;178;147], [226;178;146]); ([226;178;149], [226;178;148]);
  ([226;178;151], [226;178;150]); ([226;178;153], [226;178;152]);
  ([226;178;155], [226;178;154]); ([226;178;157], [226;178;156]);
  ([226;178;159], [226;178;158]); ([226;178;161], [226;178;160]);
  ([226;178;163], [226;178;162]); ([226;178;165], [226;178;164]);
  ([226;178;167], [226;178;166]); ([226;178;169], [226;178;168]);
  ([226;178;171], [226;178;170]); ([226;178;173], [226;178;172]);
  ([226;178;175], [226;178;174]); ([226;178;177], [226;178;176]);
  ([226;178;179], [226;178;178]); ([226;178;181], [226;178;180]);
  ([226;178;183], [226;178;182]); ([226;178;185], [226;178;184]);
  ([226;178;187], [226;178;186]); ([226;178;189], [226;178;188]);
  ([226;178;191], [226;178;190]); ([226;179;129], [226;179;128]);
  ([226;179;131], [226;179;130]); ([226;179;133], [226;179;132]);
  ([226;179;135], [226;179;134]); ([226;179;137], [226;179;136]);
  ([226;179;139], [226;179;138]); ([226;179;141], [226;179;140]);
  ([226;179;143], [226;179;142]); ([226;179;145], [226;179;144]);
  ([226;179;147], [226;179;146]); ([226;179;149], [226;179;148]);
  ([226;179;151], [226;179;150]); ([226;179;153], [226;179;152]);
  ([226;179;155], [226;179;154]); ([226;179;157], [226;179;156]);
  ([226;179;159], [226;179;158]); ([226;179;161], [226;179;160]);
  ([226;179;163], [226;179;162]); ([226;179;172], [226;179;171]);
  ([226;179;174], [226;179;173]); ([226;179;179], [226;179;178]);
  ([226;180;128], [225;130;160]); ([226;180;129], [225;130;161]);
  ([226;180;130], [225;130;162]); ([226;180;131], [225;130;163]);
  ([226;180;132], [225;130;164]); ([226;180;133], [225;130;165]);
  ([226;180;134], [225;130;166]); ([226;180;135], [225;130;167]);
  ([226;180;136], [225;130;168]); ([226;180;137], [225;130;169]);
  ([226;180;138], [225;130;170]); ([226;180;139], [225;130;171]);
  ([226;180;140], [225;130;172]); ([226;180;141], [225;130;173]);
  ([226;180;142], [225;130;174]); ([226;180;143], [225;130;175]);
  ([226;180;144], [225;130;176]); ([226;180;145], [225;130;177]);
  ([226;180;146], [225;130;178]); ([226;180;147], [225;130;179]);
  ([226;180;148], [225;130;180]); ([226;180;149], [225;130;181]);
  ([226;180;150], [225;130;182]); ([226;180;151], [225;130;183]);
  ([226;180;152], [225;130;184]); ([226;180;153], [225;130;185]);
  ([226;180;154], [225;130;186]); ([226;180;155], [225;130;187]);
  ([226;180;156], [225;130;188]); ([226;180;157], [225;130;189]);
  ([226;180;158], [225;130;190]); ([226;180;159], [225;130;191]);
  ([226;180;160], [225;131;128]); ([226;180;161], [225;131;129]);
  ([226;180;162], [225;131;130]); ([226;180;163], [225;131;131]);
  ([226;180;164], [225;131;132]); ([226;180;165], [225;131;133]);
  ([226;180;167], [225;131;135]); ([226;180;173], [225;131;141]);
  ([234;153;129], [234;153;128]); ([234;153;131], [234;153;130]);
  ([234;153;133], [234;153;132]); ([234;153;135], [234;153;134]);
  ([234;153;137], [234;153;136]); ([234;153;139], [234;153;138]);
  ([234;153;141], [234;153;140]); ([234;153;143], [234;153;142]);
  ([234;153;145], [234;153;144]); ([234;153;147], [234;153;146]);
  ([234;153;149], [234;153;148]); ([234;153;151], [234;153;150]);
  ([234;153;153], [234;153;152]); ([234;153;155], [234;153;154]);
  ([234;153;157], [234;153;156]); ([234;153;159], [234;153;158]);
  ([234;153;161], [234;153;160]); ([234;153;163], [234;153;162]);
  ([234;153;165], [234;153;164]); ([234;153;167], [234;153;166]);
  ([234;153;169], [234;153;168]); ([234;153;171], [234;153;170]);
  ([234;153;173], [234;153;172]); ([234;154;129], [234;154;128]);
  ([234;154;131], [234;154;130]); ([234;154;133], [234;154;132]);
  ([234;154;135], [234;154;134]); ([234;154;137], [234;154;136]);
  ([234;154;139], [234;154;138]); ([234;154;141], [234;154;140]);
  ([234;154;143], [234;154;142]); ([234;154;145], [234;154;144]);
  ([234;154;147], [234;154;146]); ([234;154;149], [234;154;148]);
  ([234;154;151], [234;154;150]); ([234;154;153], [234;154;152]);
  ([234;154;155], [234;154;154]); ([234;156;163], [234;156;162]);
  ([234;156;165], [234;156;164]); ([234;156;167], [234;156;166]);
  ([234;156;169], [234;156;168]); ([234;156;171], [234;156;170]);
  ([234;156;173], [234;156;172]); ([234;156;175], [234;156;174]);
  ([234;156;179], [234;156;178]); ([234;156;181], [234;156;180]);
  ([234;156;183], [234;156;182]); ([234;156;185], [234;156;184]);
  ([234;156;187], [234;156;186]); ([234;156;189], [234;156;188]);
  ([234;156;191], [234;156;190]); ([234;157;129], [234;157;128]);
  ([234;157;131], [234;157;130]); ([234;157;133], [234;157;132]);
  ([234;157;135], [234;157;134]); ([234;157;137], [234;157;136]);
  ([234;157;139], [234;157;138]); ([234;157;141], [234;157;140]);
  ([234;157;143], [234;157;142]); ([234;157;145], [234;157;144]);
  ([234;157;147], [234;157;146]); ([234;157;149], [234;157;148]);
  ([234;157;151], [234;157;150]); ([234;157;153], [234;157;152]);
  ([234;157;155], [234;157;154]); ([234;157;157], [234;157;156]);
  ([234;157;159], [234;157;158]); ([234;157;161], [234;157;160]);
  ([234;157;163], [234;157;162]); ([234;157;165], [234;157;164]);
  ([234;157;167], [234;157;166]); ([234;157;169], [234;157;168]);
  ([234;157;171], [234;157;170]); ([234;157;173], [234;157;172]);
  ([234;157;175], [234;157;174]); ([234;157;186], [234;157;185]);
  ([234;157;188], [234;157;187]); ([234;157;191], [234;157;190]);
  ([234;158;129], [234;158;128]); ([234;158;131], [234;158;130]);
  ([234;158;133], [234;158;132]); ([234;158;135], [234;158;134]);
  ([234;158;140], [234;158;139]); ([234;158;145], [234;158;144]);
  ([234;158;147], [234;158;146]); ([234;158;148], [234;159;132]);
  ([234;158;151], [234;158;150]); ([234;158;153], [234;158;152]);
  ([234;158;155], [234;158;154]); ([234;158;157], [234;158;156]);
  ([234;158;159], [234;158;158]); ([234;158;161], [234;158;160]);
  ([234;158;163], [234;158;162]); ([234;158;165], [234;158;164]);
  ([234;158;167], [234;158;166]); ([234;158;169], [234;158;168]);
  ([234;158;181], [234;158;180]); ([234;158;183], [234;158;182]);
  ([234;158;185], [234;158;184]); ([234;158;187], [234;158;186]);
  ([234;158;189], [234;158;188]); ([234;158;191], [234;158;190]);
  ([234;159;129], [234;159;128]); ([234;159;131], [234;159;130]);
  ([234;159;136], [234;159;135]); ([234;159;138], [234;159;137]);
  ([234;159;145], [234;159;144]); ([234;159;151], [234;159;150]);
  ([234;159;153], [234;159;152]); ([234;159;182], [234;159;181]);
  ([234;173;147], [234;158;179]); ([234;173;176], [225;142;160]);
  ([234;173;177], [225;142;161]); ([234;173;178], [225;142;162]);
  ([234;173;179], [225;142;163]); ([234;173;180], [225;142;164]);
  ([234;173;181], [225;142;165]); ([234;173;182], [225;142;166]);
  ([234;173;183], [225;142;167]); ([234;173;184], [225;142;168]);
  ([234;173;185], [225;142;169]); ([234;173;186], [225;142;170]);
  ([234;173;187], [225;142;171]); ([234;173;188], [225;142;172]);
  ([234;173;189], [225;142;173]); ([234;173;190], [225;142;174]);
  ([234;173;191], [225;142;175]); ([234;174;128], [225;142;176]);
  ([234;174;129], [225;142;177]); ([234;174;130], [225;142;178]);
  ([234;174;131], [225;142;179]); ([234;174;132], [225;142;180]);
  ([234;174;133], [225;142;181]); ([234;174;134], [225;142;182]);
  ([234;174;135], [225;142;183]); ([234;174;136], [225;142;184]);
  ([234;174;137], [225;142;185]); ([234;174;138], [225;142;186]);
  ([234;174;139], [225;142;187]); ([234;174;140], [225;142;188]);
  ([234;174;141], [225;142;189]); ([234;174;142], [225;142;190]);
  ([234;174;143], [225;142;191]); ([234;174;144], [225;143;128]);
  ([234;174;145], [225;143;129]); ([234;174;146], [225;143;130]);
  ([234;174;147], [225;143;131]); ([234;174;148], [225;143;132]);
  ([234;174;149], [225;143;133]); ([234;174;150], [225;143;134]);
  ([234;174;151], [225;143;135]); ([234;174;152], [225;143;136]);
  ([234;174;153], [225;143;137]); ([234;174;154], [225;143;138]);
  ([234;174;155], [225;143;139]); ([234;174;156], [225;143;140]);
  ([234;174;157], [225;143;141]); ([234;174;158], [225;143;142]);
  ([234;174;159], [225;143;143]); ([234;174;160], [225;143;144]);
  ([234;174;161], [225;143;145]); ([234;174;162], [225;143;146]);
  ([234;174;163], [225;143;147]); ([234;174;164], [225;143;148]);
  ([234;174;165], [225;143;149]); ([234;174;166], [225;143;150]);
  ([234;174;167], [225;143;151]); ([234;174;168], [225;143;152]);
  ([234;174;169], [225;143;153]); ([234;174;170], [225;143;154]);
  ([234;174;171], [225;143;155]); ([234;174;172], [225;143;156]);
  ([234;174;173], [225;143;157]); ([234;174;174], [225;143;158]);
  ([234;174;175], [225;143;159]); ([234;174;176], [225;143;160]);
  ([234;174;177], [225;143;161]); ([234;174;178], [225;143;162]);
  ([234;174;179], [225;143;163]); ([234;174;180], [225;143;164]);
  ([234;174;181], [225;143;165]); ([234;174;182], [225;143;166]);
  ([234;174;183], [225;143;167]); ([234;174;184], [225;143;168]);
  ([234;174;185], [225;143;169]); ([234;174;186], [225;143;170]);
  ([234;174;187], [225;143;171]); ([234;174;188], [225;143;172]);
  ([234;174;189], [225;143;173]); ([234;174;190], [225;143;174]);
  ([234;174;191], [225;143;175]); ([239;172;128], [70;70]); ([239;172;129], [70;73]);
  ([239;172;130], [70;76]); ([239;172;131], [70;70;73]); ([239;172;132], [70;70;76]);
  ([239;172;133], [83;84]); ([239;172;134], [83;84]); ([239;172;147], [213;132;213;134]);
  ([239;172;148], [213;132;212;181]); ([239;172;149], [213;132;212;187]);
  ([239;172;150], [213;142;213;134]); ([239;172;151], [213;132;212;189]);
  ([239;189;129], [239;188;161]); ([239;189;130], [239;188;162]);
  ([239;189;131], [239;188;163]); ([239;189;132], [239;188;164]);
  ([239;189;133], [239;188;165]); ([239;189;134], [239;188;166]);
  ([239;189;135], [239;188;167]); ([239;189;136], [239;188;168]);
  ([239;189;137], [239;188;169]); ([239;189;138], [239;188;170]);
  ([239;189;139], [239;188;171]); ([239;189;140], [239;188;172]);
  ([239;189;141], [239;188;173]); ([239;189;142], [239;188;174]);
  ([239;189;143], [239;188;175]); ([239;189;144], [239;188;176]);
  ([239;189;145], [239;188;177]); ([239;189;146], [239;188;178]);
  ([239;189;147], [239;188;179]); ([239;189;148], [239;188;180]);
  ([239;189;149], [239;188;181]); ([239;189;150], [239;188;182]);
  ([239;189;151], [239;188;183]); ([239;189;152], [239;188;184]);
  ([239;189;153], [239;188;185]); ([239;189;154], [239;188;186])
]%N.

(** [c.toUpperCase()] for a text [c] of one character. *)
Definition toUpperCase (c : string) : string :=
  match find (fun entry => (bytes (fst entry) =? c)%string) upper_case_table with
  | Some entry => bytes (snd entry)
  | None => c
  end.

(** [btoa(unescape(encodeURIComponent(s)))]: base64 of the UTF-8 bytes. *)
Definition b64_alphabet : string :=
  "ABCDEFGHIJKLMNOPQRSTUVWXYZabcdefghijklmnopqrstuvwxyz0123456789+/".

Definition b64_digit (n : N) : ascii :=
  match get (N.to_nat (N.land n 63)) b64_alphabet with
  | Some c => c
  | None => "="%char
  end.

Fixpoint btoa_utf8 (s : string) : string :=
  match s with
  | EmptyString => EmptyString
  | String a EmptyString =>
      let n := N.shiftl (N_of_ascii a) 16 in
      String (b64_digit (N.shiftr n 18))
        (String (b64_digit (N.shiftr n 12)) "==")
  | String a (String b EmptyString) =>
      let n := N.lor (N.shiftl (N_of_ascii a) 16) (N.shiftl (N_of_ascii b) 8) in
      String (b64_digit (N.shiftr n 18))
        (String (b64_digit (N.shiftr n 12))
           (String (b64_digit (N.shiftr n 6)) "="))
  | String a (String b (String c rest)) =>
      let n := N.lor (N.lor (N.shiftl (N_of_ascii a) 16)
                            (N.shiftl (N_of_ascii b) 8)) (N_of_ascii c) in
      String (b64_digit (N.shiftr n 18))
        (String (b64_digit (N.shiftr n 12))
           (String (b64_digit (N.shiftr n 6))
              (String (b64_digit n) (btoa_utf8 rest))))
  end.

(** [a.indexOf(x)] on an array of strings: strict equality, so [undefined]
    is never found. *)
Fixpoint Array_indexOf_from (a : list string) (x : value) (i : Z) : Z :=
  match a with
  | [] => (-1)%Z
  | y :: a' =>
      match x with
      | VString s => if String.eqb y s then i else Array_indexOf_from a' x (i + 1)%Z
      | VUndefined => Array_indexOf_from a' x (i + 1)%Z
      end
  end.

Definition Array_indexOf (a : list string) (x : value) : Z :=
  Array_indexOf_from a x 0%Z.

(** [a.splice(start, deleteCount)]: the array that is left.  A negative
    [start] counts from the end, and both numbers are clamped as the
    language does. *)
Definition splice {A : Type} (start deleteCount : Z) (a : list A) : list A :=
  let len := Z.of_nat (length a) in
  let from := if (start <? 0)%Z then Z.max (len + start) 0 else Z.min start len in
  let count := Z.min (Z.max deleteCount 0) (len - from) in
  (firstn (Z.to_nat from) a ++ skipn (Z.to_nat (from + count)) a)%list.

End JS.

(** ** utils.js *)

Module Utils.
Import JS.

(** [capitalizeFLetter]: [word[0]] is [undefined] for the empty word, and
    calling [toUpperCase] on it throws; [None] stands for that TypeError.
    Otherwise [word[0]] is the first character of the word and
    [word.slice(1)] the rest.  A character outside the Basic Multilingual
    Plane is two code units in the program: [word[0]] is its first half,
    which [toUpperCase] leaves as it is, and [word.slice(1)] begins with its
    second half, so that the word is returned as it is; here the four bytes
    of such a character stay together and [toUpperCase] leaves them as they
    are. *)
Definition capitalizeFLetter (word : string) : option string :=
  match word with
  | EmptyString => None
  | String c _ =>
      let (first, rest) := cut (utf8_width c) word in
      Some (toUpperCase first ++ rest)
  end.

Definition escapeDoubleQuotes (s : string) : string :=
  replaceAll DQUOTE (String DQUOTE (str DQUOTE)) s.

(** The callback of [array.map] in [arrayToCSVLine]. *)
Definition csvValue (v : value) : value :=
  match v with
  | VString s =>
      if includes s "," || includes s (str LF)
      then VString (str DQUOTE ++ escapeDoubleQuotes s ++ str DQUOTE)
      else v
  | VUndefined => v
  end.

Definition arrayToCSVLine (array : list value) : string :=
  let csvValues := map csvValue array in
  joinValues "," csvValues.

End Utils.

(** ** index.html *)

Module Index.
Import JS Utils.

(** An owner as the Drive API reports it; the e-mail address may be
    withheld. *)
Record Owner : Type := mkOwner {
  displayName : string;
  emailAddress : value
}.

(** One entry of a listing, with the fields the request projects.  For a
    folder, [listing] is what [callApi] answers for the query
    ['id' in parents]: the Drive is the tree of these answers. *)
#[warnings="-register-all"]
Inductive File : Type := mkFile {
  id : string;
  name : string;
  mimeType : string;
  owners : list Owner;
  description : option string;
  fileExtension : option string;
  listing : list File
}.

(** The seven parameters of [getDriveFiles]. *)
Record Args : Type := mkArgs {
  driveId : string;
  driveName : string;
  folderName : string;
  categoryName : string;
  metadataProfileId : string;
  ownerId : string;
  folderPath : string
}.

(** The values of the form that [makeCsv] reads, named by element id. *)
Record Form : Type := mkForm {
  drive_id : string;
  drive_name : string;
  root_category : string;
  metadata_profile_id : string;
  owner_id : string;
  metadata_fields : string
}.

(** Which [.then] callback waits for a call of [getDriveFiles]: the one of
    line 36 (a subfolder) or the one of line 78 (the call of [makeCsv]).  The
    latter is a closure over the [metadataFieldNames] that its call of
    [makeCsv] has read from the form ([fieldsCount] is computed from it). *)
Inductive Then : Type :=
| ThenSubfolder
| ThenMakeCsv (metadataFieldNames : string).

(** A folder of the tree, named by the positions of its ancestors and of
    itself in their listings; the drive root is [[]]. *)
Definition Node : Type := list nat.

(** A call of [getDriveFiles] suspended at [await callApi(query)].  [reply]
    is the answer the Drive will give.  [node] and [token] are history
    variables: the folder the call visits and the key pushed on [runs] for
    it (unused for the root call). *)
Record Call : Type := mkCall {
  args : Args;
  reply : list File;
  cont : Then;
  node : Node;
  token : string
}.

(** The timer that the variable [inter] names: none yet ([inter] is
    [undefined]), a timer that runs, or one that [clearInterval] has
    stopped. *)
Inductive Interval : Type := Unset | Running | Cleared.

(** The page.  The globals [files], [runs] and [inter] are created once,
    when the page is loaded (lines 21, 22 and 68), and nothing resets them.
    [calls] are the suspended calls; [alerts] and [downloads] are what the
    page has shown ([alert]) and handed out ([downloadCSV]).  [timer] is the
    [metadataFieldNames] in the closure of the callback of the timer that
    [inter] names.  A timer that still runs when [inter] is assigned another
    one can never be stopped; [orphans] holds the [metadataFieldNames] of
    the callbacks of these timers.  [visited] is a history variable: the
    folders whose listing has been processed, in order. *)
Record State : Type := mkState {
  files : list (list value);
  runs : list string;
  inter : Interval;
  calls : list Call;
  alerts : list string;
  downloads : list (string * string);
  visited : list Node;
  timer : string;
  orphans : list string
}.

(** The page when its script has run and no button was pressed. *)
Definition loaded : State := mkState [] [] Unset [] [] [] [] EmptyString [].

Definition files_push (row : list value) (st : State) : State :=
  mkState (files st ++ [row])%list (runs st) (inter st) (calls st)
          (alerts st) (downloads st) (visited st) (timer st) (orphans st).

Definition runs_push (key : string) (st : State) : State :=
  mkState (files st) (runs st ++ [key])%list (inter st) (calls st)
          (alerts st) (downloads st) (visited st) (timer st) (orphans st).

Definition set_runs (r : list string) (st : State) : State :=
  mkState (files st) r (inter st) (calls st)
          (alerts st) (downloads st) (visited st) (timer st) (orphans st).

Definition set_inter (i : Interval) (st : State) : State :=
  mkState (files st) (runs st) i (calls st)
          (alerts st) (downloads st) (visited st) (timer st) (orphans st).

Definition set_calls (c : list Call) (st : State) : State :=
  mkState (files st) (runs st) (inter st) c
          (alerts st) (downloads st) (visited st) (timer st) (orphans st).

Definition alert (msg : string) (st : State) : State :=
  mkState (files st) (runs st) (inter st) (calls st)
          (alerts st ++ [msg])%list (downloads st) (visited st)
          (timer st) (orphans st).

Definition downloadCSV (content fileName : string) (st : State) : State :=
  mkState (files st) (runs st) (inter st) (calls st)
          (alerts st) (downloads st ++ [(content, fileName)])%list (visited st)
          (timer st) (orphans st).

Definition mark_visited (n : Node) (st : State) : State :=
  mkState (files st) (runs st) (inter st) (calls st)
          (alerts st) (downloads st) (visited st ++ [n])%list
          (timer st) (orphans st).

(** [inter = setInterval(callback, 1000)], for a callback that has
    [metadataFieldNames] in its closure.  The timer that [inter] named goes
    on running if it was not stopped. *)
Definition setInterval (metadataFieldNames : string) (st : State) : State :=
  mkState (files st) (runs st) Running (calls st)
          (alerts st) (downloads st) (visited st)
          metadataFieldNames
          (match inter st with
           | Running => orphans st ++ [timer st]
           | _ => orphans st
           end)%list.

(** [clearInterval(inter)]: stops the timer that [inter] names, if any. *)
Definition clearInterval (st : State) : State :=
  match inter st with
  | Unset => st
  | _ => set_inter Cleared st
  end.

(** How a piece of synchronous code ends: normally, or with an uncaught
    exception; the globals keep what was written before the throw. *)
Inductive Completion : Type :=
| Normal (st : State)
| Throw (st : State).

(** How the promise of an [async] function settles. *)
Inductive Settled : Type :=
| Fulfilled (res : value) (st : State)
| Rejected (st : State).

Definition folderMime : string := "application/vnd.google-apps.folder".

(** The test of line 42. *)
Definition isMedia (mimeType : string) : bool :=
  ((indexOf mimeType "image/" >? -1) || (indexOf mimeType "audio/" >? -1)
   || (indexOf mimeType "video/" >? -1))%Z.

(** [getDriveFiles] up to its [await]: the request is sent and the call is
    suspended.  The recursive call of line 36 passes six arguments, so
    [new_folder_path] lands in [ownerId] and [folderPath] takes its
    default. *)
Definition getDriveFiles (driveId driveName folderName categoryName
                          metadataProfileId : string)
           (ownerId : string) (folderPath : option string)
           (answer : list File) (k : Then) (n : Node) (key : string)
           (st : State) : State :=
  let folderPath := match folderPath with Some p => p | None => EmptyString end in
  set_calls (calls st ++ [mkCall (mkArgs driveId driveName folderName categoryName
                                        metadataProfileId ownerId folderPath)
                                 answer k n key])%list st.

(** The callback given to [localfiles.forEach] (lines 27 to 65), run for the
    entry at position [k] of the listing of folder [n]. *)
Definition forEach_callback (a : Args) (n : Node) (k : nat) (file : File)
           (st : State) : Completion :=
  let mimeType := mimeType file in
  let fileId := id file in
  let fileName := name file in
  if (mimeType =? folderMime)%string then
    let new_folder_path := folderPath a ++ " - " ++ fileName in
    let key := btoa_utf8 new_folder_path in
    let st := runs_push key st in
    Normal (getDriveFiles fileId (driveName a) fileName (categoryName a)
              (metadataProfileId a) new_folder_path None
              (listing file) ThenSubfolder (n ++ [k])%list key st)
  else if isMedia mimeType then
    match capitalizeFLetter (hd EmptyString (split SLASH mimeType)) with
    | None => Throw st
    | Some media_type =>
        match owners file with
        | [] => Throw st
        | owner0 :: _ =>
            let user_name := displayName owner0 in
            let user_email := emailAddress owner0 in
            let file_extension :=
              match fileExtension file with Some e => e | None => EmptyString end in
            let description :=
              match description file with Some d => d | None => EmptyString end in
            let download_url :=
              "https://drive.google.com/uc?export=download&id=" ++ fileId in
            Normal (files_push
              [ VString fileName;
                VString ("By " ++ user_name ++ " in " ++ folderName a ++ ". "
                         ++ str LF ++ description);
                VString EmptyString;
                VString download_url;
                VString fileId;
                VString media_type;
                VString (categoryName a ++ ">" ++ driveName a ++ " " ++ folderPath a);
                user_email;
                VString (ownerId a);
                VString (metadataProfileId a) ] st)
        end
    end
  else Normal st.

Fixpoint forEach (a : Args) (n : Node) (k : nat) (localfiles : list File)
         (st : State) : Completion :=
  match localfiles with
  | [] => Normal st
  | file :: rest =>
      match forEach_callback a n k file st with
      | Normal st' => forEach a n (S k) rest st'
      | Throw st' => Throw st'
      end
  end.

(** [getDriveFiles] from its [await] on, once the listing has arrived.  The
    function body has no [return] of its own (the one of line 64 belongs to
    the callback), so the promise is fulfilled with [undefined]. *)
Definition getDriveFiles_resume (c : Call) (st : State) : Settled :=
  match forEach (args c) (node c) 0 (reply c) (mark_visited (node c) st) with
  | Normal st' => Fulfilled VUndefined st'
  | Throw st' => Rejected st'
  end.

(** The [.then] callback of lines 36 to 41. *)
Definition then_subfolder (res : value) (st : State) : State :=
  let index := Array_indexOf (runs st) res in
  set_runs (splice index 1 (runs st)) st.

Definition headerLine : string :=
  "*title,description,tags,url,referenceId,contentType,category,creatorId,ownerId,metadataProfileId".

(** U+FEFF, as its three UTF-8 bytes. *)
Definition BOM : string :=
  String (ascii_of_nat 239) (String (ascii_of_nat 187) (str (ascii_of_nat 191))).

(** The loop [for(i=0;i<fieldsCount;i++) csvData += ',']. *)
Fixpoint appendCommas (fieldsCount : nat) (csvData : string) : string :=
  match fieldsCount with
  | O => csvData
  | S i => appendCommas i (csvData ++ ",")
  end.

(** Lines 86 to 100: the text given to [downloadCSV]. *)
Definition csvDocument (metadataFieldNames : string) (files : list (list value))
  : string :=
  let fieldsCount := List.length (split COMMA metadataFieldNames) in
  let csvData := BOM in
  let fields := map (fun f => "metadataField_" ++ f) (split COMMA metadataFieldNames) in
  let csvData := headerLine ++ "," ++ join "," fields ++ str LF in
  fold_left (fun csvData f =>
               let csvData := csvData ++ arrayToCSVLine f in
               let csvData := appendCommas fieldsCount csvData in
               csvData ++ str LF)
            files csvData.

(** The callback of [setInterval] (lines 79 to 103), with the
    [metadataFieldNames] of its closure. *)
Definition interval_callback (metadataFieldNames : string) (st : State) : State :=
  if (List.length (runs st) =? 0)%nat then
    let st := clearInterval st in
    if (List.length (files st) =? 0)%nat then
      alert "could not list files" st
    else
      downloadCSV (csvDocument metadataFieldNames (files st)) "bulk_upload.csv" st
  else st.

(** The [.then] callback of line 78. *)
Definition then_makeCsv (metadataFieldNames : string) (st : State) : State :=
  setInterval metadataFieldNames st.

(** [makeCsv] itself, on the page as it is: the form is read and the root
    call is started; [drive] is what the Drive will answer for the drive id.
    The globals are left as they are. *)
Definition makeCsv (form : Form) (drive : list File) (st : State) : State :=
  getDriveFiles (drive_id form) (drive_name form) EmptyString
    (root_category form ++ ">site>channels") (metadata_profile_id form)
    (owner_id form) (Some EmptyString) drive
    (ThenMakeCsv (metadata_fields form)) [] EmptyString st.

(** *** The event loop *)

(** What can happen next: the listing of the [i]-th suspended call arrives,
    or fails, or the timer that [inter] names fires, or the [j]-th of the
    timers that [inter] no longer names fires. *)
Inductive Event : Type :=
| Answer (i : nat)
| Reject (i : nat)
| Tick
| Tock (j : nat).

Definition take {A : Type} (i : nat) (l : list A) : option (A * list A) :=
  match nth_error l i with
  | Some x => Some (x, (firstn i l ++ skipn (S i) l)%list)
  | None => None
  end.

(** One macrotask.  A fulfilled promise runs its [.then] callback before
    anything else can happen; a rejected one has no handler. *)
Definition step (e : Event) (st : State) : option State :=
  match e with
  | Answer i =>
      match take i (calls st) with
      | None => None
      | Some (c, others) =>
          match getDriveFiles_resume c (set_calls others st) with
          | Fulfilled res st' =>
              Some (match cont c with
                    | ThenSubfolder => then_subfolder res st'
                    | ThenMakeCsv metadataFieldNames =>
                        then_makeCsv metadataFieldNames st'
                    end)
          | Rejected st' => Some st'
          end
      end
  | Reject i =>
      match take i (calls st) with
      | None => None
      | Some (_, others) => Some (set_calls others st)
      end
  | Tick =>
      match inter st with
      | Running => Some (interval_callback (timer st) st)
      | _ => None
      end
  | Tock j =>
      match nth_error (orphans st) j with
      | Some metadataFieldNames => Some (interval_callback metadataFieldNames st)
      | None => None
      end
  end.

Fixpoint run (es : list Event) (st : State) : option State :=
  match es with
  | [] => Some st
  | e :: es' =>
      match step e st with
      | Some st' => run es' st'
      | None => None
      end
  end.

(** The states that the first run on a page can be in: [makeCsv] is called
    once, on the loaded page, with [form] in the form and [drive] behind the
    drive id. *)
Definition reachable (form : Form) (drive : list File) (st : State) : Prop :=
  exists es, run es (makeCsv form drive loaded) = Some st.

(** A session: the button is pressed several times on one page.  Each
    element is the form as it is when the button is pressed, what the Drive
    answers for its drive id, and the events up to the next press. *)
Fixpoint session (presses : list (Form * list File * list Event)) (st : State)
  : option State :=
  match presses with
  | [] => Some st
  | (form, drive, es) :: rest =>
      match run es (makeCsv form drive st) with
      | Some st' => session rest st'
      | None => None
      end
  end.

End Index.

(** ** drive.html *)

Module Drive.
Import JS Utils.

(** The values of the form, named by element id; [csv] is the textarea. *)
Record Form : Type := mkForm {
  drive_name : string;
  root_category : string;
  owner_id : string;
  metadata_profile_id : string;
  metadata_fields : string;
  csv : string
}.

(** The loop [for(i=0;i<fieldsCount;i++)] that pushes an empty string on
    [item]. *)
Fixpoint pushEmpty (fieldsCount : nat) (item : list value) : list value :=
  match fieldsCount with
  | O => item
  | S i => pushEmpty i (item ++ [VString EmptyString])%list
  end.

(** The callback given to [lines.forEach] (lines 25 to 47); [None] is the
    TypeError of [capitalizeFLetter] on an empty word. *)
Definition forEach_callback (form : Form) (fieldsCount : nat) (line : string)
           (csvData : string) : option string :=
  let lineData := split COMMA line in
  if negb (List.length lineData =? 3)%nat then Some csvData
  else
    let mimeType := nth 1 lineData EmptyString in
    if Index.isMedia mimeType then
      match capitalizeFLetter (hd EmptyString (split SLASH mimeType)) with
      | None => None
      | Some media_type =>
          let item :=
            [ VString (nth 0 lineData EmptyString);
              VString EmptyString;
              VString EmptyString;
              VString ("https://drive.google.com/uc?export=download&id="
                       ++ nth 2 lineData EmptyString);
              VString (nth 2 lineData EmptyString);
              VString media_type;
              VString (root_category form ++ ">site>channels>" ++ drive_name form);
              VString (owner_id form);
              VString (owner_id form);
              VString (metadata_profile_id form) ] in
          let item := pushEmpty fieldsCount item in
          Some (csvData ++ arrayToCSVLine item ++ str LF)
      end
    else Some csvData.

Fixpoint forEach (form : Form) (fieldsCount : nat) (lines : list string)
         (csvData : string) : option string :=
  match lines with
  | [] => Some csvData
  | line :: rest =>
      match forEach_callback form fieldsCount line csvData with
      | Some csvData' => forEach form fieldsCount rest csvData'
      | None => None
      end
  end.

(** [makeCsv]: the text given to [downloadCSV], if the function gets there. *)
Definition makeCsv (form : Form) : option string :=
  let metadataFieldNames := metadata_fields form in
  let fieldsCount := List.length (split COMMA metadataFieldNames) in
  let csvData := Index.BOM in
  let fields := map (fun f => "metadataField_" ++ f) (split COMMA metadataFieldNames) in
  let csvData := Index.headerLine ++ "," ++ join "," fields ++ str LF in
  let lines := split LF (csv form) in
  forEach form fieldsCount lines csvData.

End Drive.

(** ** Notions of the specification *)

Module Spec.
Import JS Index.

(** *** Folder nodes of a drive *)

Definition isFolder (f : File) : bool := (mimeType f =? folderMime)%string.

(** The folder [n] itself (listed as [f]) and every folder below it. *)
Fixpoint folders_at (n : Node) (f : File) {struct f} : list Node :=
  match f with
  | mkFile _ _ _ _ _ _ l =>
      n :: (fix below (k : nat) (l : list File) {struct l} : list Node :=
              match l with
              | [] => []
              | g :: l' =>
                  ((if isFolder g then folders_at (n ++ [k])%list g else [])
                     ++ below (S k) l')%list
              end) 0%nat l
  end.

(** The folders found below folder [n], whose listing from position [k] on
    is [l]. *)
Fixpoint subfolders (n : Node) (k : nat) (l : list File) : list Node :=
  match l with
  | [] => []
  | g :: l' =>
      ((if isFolder g then folders_at (n ++ [k])%list g else [])
         ++ subfolders n (S k) l')%list
  end.

(** Every folder node of the drive, the root first. *)
Definition folders (drive : list File) : list Node :=
  [] :: subfolders [] 0 drive.

Definition Node_eq_dec : forall a b : Node, {a = b} + {a <> b} :=
  list_eq_dec Nat.eq_dec.

(** Every folder node of the drive has been visited exactly once. *)
Definition every_folder_visited_once (drive : list File) (st : State) : Prop :=
  forall n, In n (folders drive) -> count_occ Node_eq_dec (visited st) n = 1%nat.

(** *** Entries on which the callback of [forEach] throws *)

Definition throws (f : File) : bool :=
  negb (isFolder f) && isMedia (mimeType f)
  && (match Utils.capitalizeFLetter (hd EmptyString (split SLASH (mimeType f))) with
      | None => true
      | Some _ => false
      end
      || match owners f with [] => true | _ => false end).

(** No visit of the folder listed as [l] or of a folder below it throws. *)
Fixpoint never_throws (f : File) {struct f} : bool :=
  match f with
  | mkFile _ _ _ _ _ _ l =>
      negb (throws f) &&
      (negb (isFolder f) ||
       (fix all (l : list File) {struct l} : bool :=
          match l with
          | [] => true
          | g :: l' => never_throws g && all l'
          end) l)
  end.

Definition listing_never_throws (l : list File) : bool := forallb never_throws l.

Definition no_failure (es : list Event) : bool :=
  forallb (fun e => match e with Reject _ => false | _ => true end) es.

(** *** Reading a CSV text

    A comma or a newline is "top-level" when it is outside double quotes:
    every double quote switches between inside and outside, so a doubled
    quote inside a quoted field leaves the reader inside. *)

(** [top_split sep inq s]: the pieces of [s] between top-level occurrences
    of [sep], the reader starting inside quotes iff [inq]. *)
Fixpoint top_split (sep : ascii) (inq : bool) (s : string) : list string :=
  match s with
  | EmptyString => [EmptyString]
  | String c s' =>
      if Ascii.eqb c sep && negb inq then EmptyString :: top_split sep false s'
      else
        let inq' := if Ascii.eqb c DQUOTE then negb inq else inq in
        match top_split sep inq' s' with
        | [] => [str c]
        | f :: fs => String c f :: fs
        end
  end.

(** The lines of a text in which every line ends with a top-level newline:
    what follows the last newline is a line only if it is not empty. *)
Definition csv_lines (text : string) : list string :=
  let pieces := top_split LF false text in
  if (last pieces EmptyString =? EmptyString)%string
  then removelast pieces else pieces.

Definition csv_fields (line : string) : list string :=
  top_split COMMA false line.

(** The lines of a text when every newline ends a line. *)
Definition raw_lines (text : string) : list string :=
  let pieces := split LF text in
  if (last pieces EmptyString =? EmptyString)%string
  then removelast pieces else pieces.

(** [s] begins with [p]. *)
Definition startsWith (s p : string) : bool := prefix p s.

End Spec.

(** ** index.html: the API key *)

Module ApiKey.
Import JS.

(** [window.sessionStorage]: [getItem] answers [null] ([None]) for a key that
    was never set, [setItem] replaces the value of its key. *)
Definition Storage : Type := string -> option string.

Definition getItem (s : Storage) (key : string) : option string := s key.

Definition setItem (s : Storage) (key value : string) : Storage :=
  fun k => if (k =? key)%string then Some value else s k.

(** The global [api_key], the value of the input [api_key], the session
    storage, and whether the two blocks of the page carry the class
    [hidden]. *)
Record Page : Type := mkPage {
  api_key : option string;
  api_key_value : string;
  sessionStorage : Storage;
  drive_details_fields_hidden : bool;
  api_key_field_hidden : bool
}.

(** The page as the document describes it, before any script has run:
    [api_key] is [null], the input is empty, the drive form is hidden. *)
Definition parsed (storage : Storage) : Page :=
  mkPage None EmptyString storage true false.

Definition setApiKey (p : Page) : Page :=
  let api_key := api_key_value p in
  mkPage (Some api_key) (api_key_value p)
         (setItem (sessionStorage p) "apikey" api_key)
         false true.

(** The listener of [DOMContentLoaded]; the empty string is falsy. *)
Definition DOMContentLoaded (p : Page) : Page :=
  match getItem (sessionStorage p) "apikey" with
  | Some (String c rest) =>
      mkPage (api_key p) (String c rest) (sessionStorage p)
             (drive_details_fields_hidden p) (api_key_field_hidden p)
  | _ => p
  end.

(** The address that [callApi] fetches; [null] is written as [null]. *)
Definition callApi_url (p : Page) (query : string) : string :=
  "https://www.googleapis.com/drive/v3/files?key="
  ++ match api_key p with Some k => k | None => "null" end
  ++ "&pageSize=1000&q=" ++ query
  ++ "&fields=files(id, name, mimeType, owners, description, kind, fileExtension, fileExtension)".

(** The query of [getDriveFiles] for a folder id. *)
Definition query_of (driveId : string) : string := "'" ++ driveId ++ "' in parents".

End ApiKey.

(** ** Notions used in the statements and in the proofs *)

Import JS Utils Index Spec.

(** The field as [arrayToCSVLine] writes it when it quotes it. *)
Definition quoted (s : string) : string :=
  str DQUOTE ++ escapeDoubleQuotes s ++ str DQUOTE.

(** The mime type begins with one of the three media prefixes. *)
Definition beginsWithMedia (mimeType : string) : bool :=
  startsWith mimeType "image/" || startsWith mimeType "audio/"
  || startsWith mimeType "video/".

(** [n] commas. *)
Fixpoint commas (n : nat) : string :=
  match n with
  | O => EmptyString
  | S i => "," ++ commas i
  end.

(** The header of the document, without its newline. *)
Definition headerText (metadataFieldNames : string) : string :=
  headerLine ++ "," ++
  join "," (map (fun f => "metadataField_" ++ f) (split COMMA metadataFieldNames)).

(** The line written for one Record, without its newline. *)
Definition dataLine (fieldsCount : nat) (f : list value) : string :=
  arrayToCSVLine f ++ commas fieldsCount.

(** The lines written for the Records, each with its newline. *)
Fixpoint dataLines (fieldsCount : nat) (files : list (list value)) : string :=
  match files with
  | [] => EmptyString
  | f :: rest => dataLine fieldsCount f ++ str LF ++ dataLines fieldsCount rest
  end.

(** The last character of a text. *)
Fixpoint lastChar (s : string) : option ascii :=
  match s with
  | EmptyString => None
  | String c EmptyString => Some c
  | String _ s' => lastChar s'
  end.

(** The drive of the scenario of the specification: the root holds folder [A]
    and [img.jpg]; [A] holds [clip.mp4]. *)
Definition bob : Owner := mkOwner "Bob" (VString "bob@example.org").
Definition ann : Owner := mkOwner "Ann" (VString "ann@example.org").
Definition clip_mp4 : File := mkFile "I2" "clip.mp4" "video/mp4" [ann] None None [].
Definition img_jpg : File := mkFile "I1" "img.jpg" "image/jpeg" [bob] None None [].
Definition folder_A : File := mkFile "F1" "A" folderMime [] None None [clip_mp4].
Definition folder_B : File := mkFile "F2" "B" folderMime [] None None [].
Definition scenario_drive : list File := [folder_A; img_jpg].
Definition scenario_form : Index.Form := Index.mkForm "R" "Drive" "Cat" "77" "me" "m".
Definition root_args : Args :=
  mkArgs "R" "Drive" EmptyString "Cat>site>channels" "77" "me" EmptyString.
Definition empty_state : State := mkState [] [] Unset [] [] [] [] EmptyString [].

(** The state a piece of synchronous code leaves, however it ends. *)
Definition state_of (c : Completion) : State :=
  match c with
  | Normal st => st
  | Throw st => st
  end.

(** The folders still to be visited on behalf of a suspended call: the one it
    lists and all those below. *)
Definition pending (c : Call) : list Node :=
  node c :: subfolders (node c) 0 (reply c).

Definition isSubfolderCall (c : Call) : bool :=
  match cont c with
  | ThenSubfolder => true
  | ThenMakeCsv _ => false
  end.

(** The number of suspended calls whose [.then] callback is the one of a
    subfolder, and the number of the others. *)
Definition subfolderCalls (st : State) : nat :=
  List.length (filter isSubfolderCall (calls st)).

Definition rootCalls (st : State) : nat :=
  List.length (filter (fun c => negb (isSubfolderCall c)) (calls st)).

(** A row as a visit with arguments [a] builds it. *)
Definition row_from (a : Args) (row : list value) : Prop :=
  exists title text url ref media_type email,
    row = [ VString title; VString text; VString EmptyString; VString url;
            VString ref; VString media_type;
            VString (categoryName a ++ ">" ++ driveName a ++ " " ++ folderPath a);
            email; VString (ownerId a); VString (metadataProfileId a) ]
    /\ includes text (str LF) = true.

Definition row_shape (row : list value) : Prop := exists a, row_from a row.

(** [st'] is [st] with [rows] appended to [files], the tokens of [spawned]
    appended to [runs] and [spawned] appended to the suspended calls. *)
Definition grows (st st' : State) (rows : list (list value)) (spawned : list Call)
  : Prop :=
  st' = mkState (files st ++ rows)%list (runs st ++ map token spawned)%list
                (inter st) (calls st ++ spawned)%list
                (alerts st) (downloads st) (visited st) (timer st) (orphans st).

(** What holds of every state of the first run on a page: besides the
    counts and the outputs, no timer is left behind, and every closure holds
    the [metadataFieldNames] of the form. *)
Definition invariant (form : Index.Form) (st : State) : Prop :=
  (subfolderCalls st <= List.length (runs st))%nat
  /\ (rootCalls st <= 1)%nat
  /\ (inter st <> Unset -> rootCalls st = 0%nat)
  /\ Forall row_shape (files st)
  /\ match inter st with
     | Cleared =>
         calls st = []
         /\ ((files st = [] /\ alerts st = ["could not list files"]
              /\ downloads st = [])
             \/ (files st <> [] /\ alerts st = []
                 /\ downloads st = [(csvDocument (metadata_fields form) (files st),
                                     "bulk_upload.csv")]))
     | _ => alerts st = [] /\ downloads st = []
     end
  /\ orphans st = []
  /\ (inter st = Running -> timer st = metadata_fields form)
  /\ Forall (fun c => forall metadataFieldNames,
                 cont c = ThenMakeCsv metadataFieldNames ->
                 metadataFieldNames = metadata_fields form)
            (calls st).

(** What holds in addition when no listing fails and no visit throws. *)
Definition invariant_ok (drive : list File) (st : State) : Prop :=
  subfolderCalls st = List.length (runs st)
  /\ Permutation (folders drive) (visited st ++ flat_map pending (calls st))%list
  /\ Forall (fun c => listing_never_throws (reply c) = true) (calls st).

(** A drive whose root holds the folders [A] and [B], and one whose root holds
    two folders that are both named [A]. *)
Definition two_folders_drive : list File := [folder_A; folder_B].
Definition folder_A' : File := mkFile "F3" "A" folderMime [] None None [].
Definition same_name_drive : list File := [folder_A; folder_A'].

(** Whether the reader is inside quotes after [s], having started inside
    quotes iff [inq]. *)
Fixpoint quote_state (inq : bool) (s : string) : bool :=
  match s with
  | EmptyString => inq
  | String c s' => quote_state (if Ascii.eqb c DQUOTE then negb inq else inq) s'
  end.

(** [s] holds no top-level [sep] for a reader that starts inside quotes iff
    [inq]. *)
Fixpoint no_top (sep : ascii) (inq : bool) (s : string) : bool :=
  match s with
  | EmptyString => true
  | String c s' =>
      negb (Ascii.eqb c sep && negb inq)
      && no_top sep (if Ascii.eqb c DQUOTE then negb inq else inq) s'
  end.

(** [s] can stand as one piece between two top-level separators [sep]. *)
Definition sealed (sep : ascii) (s : string) : Prop :=
  no_top sep false s = true /\ quote_state false s = false.

(** A double quote occurs in the value only if a comma or a newline does. *)
Definition quote_safe (v : value) : bool :=
  match v with
  | VString s => includes s "," || includes s (str LF) || negb (includes s (str DQUOTE))
  | VUndefined => true
  end.

(** The lines of a text, each followed by a newline. *)
Fixpoint unlines (ls : list string) : string :=
  match ls with
  | [] => EmptyString
  | l :: rest => l ++ str LF ++ unlines rest
  end.

(** A drive whose only file has a name that begins with a double quote. *)
Definition quoted_name_drive : list File :=
  [mkFile "I7" (str DQUOTE ++ "a.jpg") "image/jpeg" [bob] None None []].

(** The ten fixed columns of the header. *)
Definition headerColumns : list string :=
  ["*title"; "description"; "tags"; "url"; "referenceId"; "contentType";
   "category"; "creatorId"; "ownerId"; "metadataProfileId"].

(** A drive whose folder [S] holds an image for which the Drive reports no
    owner (as for the items of a shared drive). *)
Definition ownerless_jpg : File :=
  mkFile "I5" "shared.jpg" "image/jpeg" [] None None [].
Definition folder_S : File := mkFile "F5" "S" folderMime [] None None [ownerless_jpg].
Definition ownerless_drive : list File := [folder_S].

(** The form of the scenario, with a metadata field name that ends with a
    double quote. *)
Definition quoted_field_form : Index.Form :=
  Index.mkForm "R" "Drive" "Cat" "77" "me" ("m" ++ str DQUOTE).

(** ** Further notions: reading a field back, and what a visit adds *)

(** The text of a quoted field after its opening quote, up to its closing
    quote: a doubled quote stands for one quote. *)
Fixpoint unquote_body (s : string) : string :=
  match s with
  | EmptyString => EmptyString
  | String c s' =>
      if Ascii.eqb c DQUOTE then
        match s' with
        | String d s'' =>
            if Ascii.eqb d DQUOTE then String DQUOTE (unquote_body s'')
            else EmptyString
        | EmptyString => EmptyString
        end
      else String c (unquote_body s')
  end.


(** The value of a field of a line: a field that begins with a double quote
    is a quoted field, any other field stands for itself. *)
Definition csv_unquote (field : string) : string :=
  match field with
  | EmptyString => EmptyString
  | String c rest => if Ascii.eqb c DQUOTE then unquote_body rest else field
  end.

(** The lines of a text read back: split into lines, then fields, then
    values. *)
Definition csv_read (text : string) : list (list string) :=
  map (fun line => map csv_unquote (csv_fields line)) (csv_lines text).

(** The number of occurrences of a character. *)
Fixpoint count_char (c : ascii) (s : string) : nat :=
  match s with
  | EmptyString => 0
  | String d s' => ((if Ascii.eqb d c then 1 else 0) + count_char c s')%nat
  end.

(** The Record that a visit with arguments [a] writes for the media entry
    [file], given the capitalised media type and the first owner. *)
Definition record_of (a : Args) (file : File) (media_type : string) (owner0 : Owner)
  : list value :=
  [ VString (name file);
    VString ("By " ++ displayName owner0 ++ " in " ++ folderName a ++ ". "
             ++ str LF
             ++ match description file with Some d => d | None => EmptyString end);
    VString EmptyString;
    VString ("https://drive.google.com/uc?export=download&id=" ++ id file);
    VString (id file);
    VString media_type;
    VString (categoryName a ++ ">" ++ driveName a ++ " " ++ folderPath a);
    emailAddress owner0;
    VString (ownerId a);
    VString (metadataProfileId a) ].

(** The rows that the callback of [forEach] appends for one entry. *)
Definition rows_of (a : Args) (file : File) : list (list value) :=
  if isFolder file then []
  else if isMedia (mimeType file) then
    match capitalizeFLetter (hd EmptyString (split SLASH (mimeType file))),
          owners file with
    | Some media_type, owner0 :: _ => [record_of a file media_type owner0]
    | _, _ => []
    end
  else [].

(** The call that the callback starts for the folder entry [file], found at
    position [k] of the listing of folder [n]. *)
Definition child_call (a : Args) (n : Node) (k : nat) (file : File) : Call :=
  mkCall (mkArgs (id file) (driveName a) (name file) (categoryName a)
                 (metadataProfileId a) (folderPath a ++ " - " ++ name file)
                 EmptyString)
         (listing file) ThenSubfolder (n ++ [k])%list
         (btoa_utf8 (folderPath a ++ " - " ++ name file)).

Definition calls_of (a : Args) (n : Node) (k : nat) (file : File) : list Call :=
  if isFolder file then [child_call a n k file] else [].

(** The rows and the calls that a visit adds for a listing: those of its
    entries, in order, up to the first entry on which the callback throws. *)
Fixpoint listing_rows (a : Args) (l : list File) : list (list value) :=
  match l with
  | [] => []
  | file :: rest =>
      if throws file then [] else (rows_of a file ++ listing_rows a rest)%list
  end.

Fixpoint listing_calls (a : Args) (n : Node) (k : nat) (l : list File) : list Call :=
  match l with
  | [] => []
  | file :: rest =>
      if throws file then []
      else (calls_of a n k file ++ listing_calls a n (S k) rest)%list
  end.

(** [st] with rows appended to [files], the tokens of calls appended to
    [runs] and the calls appended to the suspended calls. *)
Definition grown (st : State) (rows : list (list value)) (spawned : list Call) : State :=
  mkState (files st ++ rows)%list (runs st ++ map token spawned)%list
          (inter st) (calls st ++ spawned)%list
          (alerts st) (downloads st) (visited st) (timer st) (orphans st).

(** The number of media entries in the listing of a folder and below. *)
Fixpoint mediaIn (f : File) {struct f} : nat :=
  match f with
  | mkFile _ _ m _ _ _ l =>
      if isFolder f then
        (fix under (l : list File) {struct l} : nat :=
           match l with
           | [] => 0
           | g :: l' => mediaIn g + under l'
           end)%nat l
      else if isMedia m then 1%nat else 0%nat
  end.

Definition mediaUnder (l : list File) : nat := list_sum (map mediaIn l).

(** The media entries that the suspended calls have still to find. *)
Definition mediaPending (st : State) : nat :=
  list_sum (map (fun c => mediaUnder (reply c)) (calls st)).

(** The folders that the suspended calls have still to visit. *)
Definition foldersPending (st : State) : nat :=
  List.length (flat_map pending (calls st)).

(** The state an answered call leaves, before its [.then] callback. *)
Definition answered (st : State) (c : Call) (others : list Call) : State :=
  grown (mark_visited (node c) (set_calls others st))
        (listing_rows (args c) (reply c))
        (listing_calls (args c) (node c) 0 (reply c)).

(** A run that cannot complete any more: either the root call is gone while
    the timer was never set, or [runs] holds more tokens than there are
    suspended subfolder calls to take them off. *)
Definition stalled (st : State) : Prop :=
  (rootCalls st = 0%nat /\ inter st = Unset)
  \/ (inter st <> Cleared /\ (subfolderCalls st < List.length (runs st))%nat).

(** The arguments that every suspended call of a run has. *)
Definition call_args_ok (form : Index.Form) (c : Call) : Prop :=
  driveName (args c) = drive_name form
  /\ categoryName (args c) = root_category form ++ ">site>channels"
  /\ metadataProfileId (args c) = metadata_profile_id form
  /\ folderPath (args c) = EmptyString
  /\ match cont c with
     | ThenSubfolder =>
         ownerId (args c) = " - " ++ folderName (args c)
         /\ token c = btoa_utf8 (" - " ++ folderName (args c))
     | ThenMakeCsv _ =>
         ownerId (args c) = owner_id form /\ folderName (args c) = EmptyString
     end.

(** The shape that every Record of a run has. *)
Definition row_ok (form : Index.Form) (row : list value) : Prop :=
  exists title text ref media_type email owner,
    row = [ VString title; VString text; VString EmptyString;
            VString ("https://drive.google.com/uc?export=download&id=" ++ ref);
            VString ref; VString media_type;
            VString ((root_category form ++ ">site>channels") ++ ">"
                     ++ drive_name form ++ " ");
            email; VString owner; VString (metadata_profile_id form) ]
    /\ (owner = owner_id form \/ exists folder, owner = " - " ++ folder).

(** What holds, besides [invariant_ok], of a run in which no listing fails
    and no visit throws: the root call is pending as long as the timer is
    unset, and every media entry of the drive is either collected or still
    to be found by a suspended call. *)
Definition tally (drive : list File) (st : State) : Prop :=
  (inter st = Unset -> rootCalls st = 1%nat)
  /\ (List.length (files st) + mediaPending st = mediaUnder drive)%nat.

(** The mime type of a pasted line: its second comma-separated field. *)
Definition paste_mime (line : string) : string :=
  nth 1 (split COMMA line) EmptyString.

(** A pasted line that [drive.html] turns into a row: exactly three fields,
    the second one a media mime type. *)
Definition paste_qualifies (line : string) : bool :=
  (List.length (split COMMA line) =? 3)%nat && isMedia (paste_mime line).

(** A pasted line on which the callback of [drive.html] throws: it
    qualifies, but its mime type has nothing before its first slash. *)
Definition paste_throws (line : string) : bool :=
  paste_qualifies line
  && match capitalizeFLetter (hd EmptyString (split SLASH (paste_mime line))) with
     | None => true
     | Some _ => false
     end.

(** [row] is the line that [drive.html] writes for the pasted line [line]:
    the line of an item whose title is the first field of [line] and whose
    url and reference id are made from its third field. *)
Definition paste_line (line row : string) : Prop :=
  exists item,
    row = arrayToCSVLine item
    /\ nth 0 item VUndefined = VString (nth 0 (split COMMA line) EmptyString)
    /\ nth 3 item VUndefined
       = VString ("https://drive.google.com/uc?export=download&id="
                  ++ nth 2 (split COMMA line) EmptyString)
    /\ nth 4 item VUndefined = VString (nth 2 (split COMMA line) EmptyString).

(** Decoding of base64, the inverse of [btoa_utf8]: the value of a digit is
    its position in the alphabet, four digits give three bytes, and [=]
    pads a last group of one or two bytes. *)
Fixpoint index_of (c : ascii) (s : string) (i : N) : option N :=
  match s with
  | EmptyString => None
  | String d s' => if Ascii.eqb d c then Some i else index_of c s' (i + 1)%N
  end.

Definition b64_value (c : ascii) : option N := index_of c b64_alphabet 0%N.

Definition byte_of (n : N) : ascii := ascii_of_N (n mod 256)%N.

Fixpoint atob_utf8 (s : string) : option string :=
  match s with
  | EmptyString => Some EmptyString
  | String a (String b (String c (String d rest))) =>
      match b64_value a, b64_value b with
      | Some va, Some vb =>
          if Ascii.eqb c "=" then
            Some (str (byte_of ((va * 64 + vb) / 16)))
          else
            match b64_value c with
            | Some vc =>
                let n3 := (va * 4096 + vb * 64 + vc)%N in
                if Ascii.eqb d "=" then
                  Some (String (byte_of (n3 / 1024)) (str (byte_of (n3 / 4))))
                else
                  match b64_value d, atob_utf8 rest with
                  | Some vd, Some r =>
                      let n := (n3 * 64 + vd)%N in
                      Some (String (byte_of (n / 65536))
                              (String (byte_of (n / 256))
                                 (String (byte_of n) r)))
                  | _, _ => None
                  end
            | None => None
            end
      | _, _ => None
      end
  | _ => None
  end.

(** The arguments of the root call of [makeCsv], and of the call started for
    a folder entry by a visit with arguments [a]. *)
Definition root_args_of (form : Index.Form) : Args :=
  mkArgs (drive_id form) (drive_name form) EmptyString
         (root_category form ++ ">site>channels") (metadata_profile_id form)
         (owner_id form) EmptyString.

Definition child_args (a : Args) (file : File) : Args :=
  args (child_call a [] 0 file).

(** The Records of the media entries in the listing of a folder and below,
    as the visits write them when none throws: in the order of a walk that
    finishes each folder before it goes on. *)
Fixpoint rows_in (a : Args) (f : File) {struct f} : list (list value) :=
  match f with
  | mkFile _ _ _ _ _ _ l =>
      if isFolder f then
        (fix under (l : list File) {struct l} : list (list value) :=
           match l with
           | [] => []
           | g :: l' => (rows_in (child_args a f) g ++ under l')%list
           end) l
      else rows_of a f
  end.

Definition rows_under (a : Args) (l : list File) : list (list value) :=
  flat_map (rows_in a) l.

(** The Records that the suspended calls have still to write. *)
Definition rowsPending (st : State) : list (list value) :=
  flat_map (fun c => rows_under (args c) (reply c)) (calls st).

(** Every folder in [visited] comes after its parent, and the folder of
    every suspended call has its parent in [visited]. *)
Definition parents_first (st : State) : Prop :=
  (forall before n k after,
      visited st = (before ++ (n ++ [k]) :: after)%list -> In n before)
  /\ (forall c n k, In c (calls st) -> node c = (n ++ [k])%list -> In n (visited st)).

(** ** Notions for a listing as a whole, and for a page used more than once *)

(** An entry for which the callback pushes a Record when it does not throw:
    not a folder, and with a mime type that passes the test of line 42. *)
Definition qualifies (file : File) : bool :=
  negb (isFolder file) && isMedia (mimeType file).

(** [row] is a Record written for the entry [file]. *)
Definition record_for (file : File) (row : list value) : Prop :=
  List.length row = 10%nat
  /\ nth 0 row VUndefined = VString (name file)
  /\ nth 4 row VUndefined = VString (id file).

(** The states a page can be in, whatever was pressed and whatever has
    happened since it was loaded. *)
Definition page_state (st : State) : Prop :=
  exists presses, session presses loaded = Some st.

(** The [metadataFieldNames] read from the form at the presses of a
    session. *)
Definition names_read (presses : list (Index.Form * list File * list Event))
  : list string :=
  map (fun press => metadata_fields (fst (fst press))) presses.

(** No run is in progress on the page: no call is suspended, no token is
    pending and no timer runs. *)
Definition idle (st : State) : Prop :=
  calls st = [] /\ runs st = [] /\ inter st <> Running /\ orphans st = [].

(** What holds of a page whatever is pressed, when every [metadataFieldNames]
    read so far is in [names]: each document handed out is named
    [bulk_upload.csv] and is the document, for one of the [names], of the
    Records that [files] held when it was built, a front part of [files] that
    is not empty; every Record has the shape that a visit gives it; and the
    closures hold some of the [names]. *)
Definition page_invariant (names : list string) (st : State) : Prop :=
  (forall text fileName,
      In (text, fileName) (downloads st) ->
      fileName = "bulk_upload.csv"
      /\ exists metadataFieldNames N,
          In metadataFieldNames names
          /\ (1 <= N <= List.length (files st))%nat
          /\ text = csvDocument metadataFieldNames (firstn N (files st)))
  /\ Forall row_shape (files st)
  /\ Forall (fun c => forall metadataFieldNames,
                 cont c = ThenMakeCsv metadataFieldNames ->
                 In metadataFieldNames names)
            (calls st)
  /\ (inter st = Running -> In (timer st) names)
  /\ Forall (fun metadataFieldNames => In metadataFieldNames names) (orphans st)
  /\ Forall (fun msg => msg = "could not list files") (alerts st).

(** The page [st0], idle and without Records, after a run that would have
    led the loaded page to [s]: the globals and the suspended calls are those
    of [s], and what the page had shown and handed out before is still
    there. *)
Definition continued (st0 s : State) : State :=
  mkState (files s) (runs s)
          (match inter s with Unset => inter st0 | i => i end)
          (calls s)
          (alerts st0 ++ alerts s)%list
          (downloads st0 ++ downloads s)%list
          (visited st0 ++ visited s)%list
          (match inter s with Unset => timer st0 | _ => timer s end)
          (orphans s).

(** A drive that holds one image, and one that holds nothing. *)
Definition one_image_drive : list File := [img_jpg].
Definition empty_drive : list File := [].

(** A listing that holds an image without owner before a video with one. *)
Definition ownerless_first : list File := [ownerless_jpg; clip_mp4].

(** A listing with an image, a document that is no media, and a video. *)
Definition report_pdf : File :=
  mkFile "I3" "report.pdf" "application/pdf" [bob] None None [].
Definition mixed_listing : list File := [img_jpg; report_pdf; clip_mp4].

(** A drive that holds one video, and a session in which the button is
    pressed for the drive with one image and, when that run is over, for the
    drive with one video. *)
Definition one_video_drive : list File := [clip_mp4].
Definition two_runs : list (Index.Form * list File * list Event) :=
  [ (scenario_form, one_image_drive, [Answer 0; Tick]);
    (scenario_form, one_video_drive, [Answer 0; Tick]) ].

(** The data line of a Record whose second field is [text]: the first field
    as [arrayToCSVLine] writes it, a comma, [text] in double quotes with its
    double quotes doubled, a comma, and the other fields. *)
Definition quotes_description (row : list value) (text : string) : Prop :=
  exists title rest,
    row = title :: VString text :: rest
    /\ arrayToCSVLine row
       = toJoinString (csvValue title) ++ "," ++ quoted text ++ ","
           ++ arrayToCSVLine rest.
(** * Properties *)

(** [exists_run es s] gives, as the witness of an existential goal, the
    state that the events [es] lead to from [s], computed. *)
Ltac exists_run es s :=
  let r := eval vm_compute in (run es s) in
  lazymatch r with
  | Some ?st => exists st
  end.

(** ** Strings *)

Section StringFacts.

Lemma sapp_assoc (a b c : string) : (a ++ b) ++ c = a ++ (b ++ c).
Proof. induction a as [|x a IH]; simpl; [reflexivity | now rewrite IH]. Qed.

Lemma sapp_nil_r (a : string) : a ++ EmptyString = a.
Proof. induction a as [|x a IH]; simpl; [reflexivity | now rewrite IH]. Qed.

Lemma slength_app (a b : string) :
  String.length (a ++ b) = (String.length a + String.length b)%nat.
Proof. induction a as [|x a IH]; simpl; [reflexivity | now rewrite IH]. Qed.

Lemma prefix_nil (s : string) : prefix EmptyString s = true.
Proof. destruct s; reflexivity. Qed.

Lemma prefix_cons (c : ascii) (p s : string) :
  prefix (String c p) (String c s) = prefix p s.
Proof. simpl. destruct (ascii_dec c c); [reflexivity | congruence]. Qed.

Lemma prefix_app_l (p a b : string) :
  prefix p a = true -> prefix p (a ++ b) = true.
Proof.
  revert a. induction p as [|c p IH]; intros a H.
  - apply prefix_nil.
  - destruct a as [|d a]; simpl in H; [discriminate|].
    simpl. destruct (ascii_dec c d); [now apply IH | discriminate].
Qed.

Lemma prefix_head_neq (c d : ascii) (p s : string) :
  c <> d -> prefix (String c p) (String d s) = false.
Proof. intros H. simpl. destruct (ascii_dec c d); [contradiction | reflexivity]. Qed.

(** A text that begins with [pat] has it at index 0. *)
Lemma indexOf_prefix (s pat : string) :
  prefix pat s = true -> indexOf s pat = 0%Z.
Proof. intros H. unfold indexOf. destruct s; cbn [indexOf_from]; now rewrite H. Qed.

(** [indexOf] finds exactly what [includes] reports. *)
Lemma indexOf_from_includes (pat s : string) (i : Z) :
  (0 <= i)%Z -> (indexOf_from pat s i >? -1)%Z = includes s pat.
Proof.
  revert i. induction s as [|c s IH]; intros i Hi; cbn [indexOf_from includes].
  - destruct (prefix pat EmptyString); cbn [orb]; [apply Z.gtb_lt; lia | reflexivity].
  - destruct (prefix pat (String c s)); cbn [orb]; [apply Z.gtb_lt; lia|].
    apply IH. lia.
Qed.

Lemma indexOf_includes (s pat : string) :
  (indexOf s pat >? -1)%Z = includes s pat.
Proof. apply indexOf_from_includes. lia. Qed.

Lemma includes_app_r (a b pat : string) :
  includes b pat = true -> includes (a ++ b) pat = true.
Proof.
  intros H. induction a as [|c a IH]; simpl; [exact H|].
  rewrite IH. apply orb_true_r.
Qed.

Lemma includes_cons_here (c : ascii) (s : string) :
  includes (String c s) (str c) = true.
Proof. simpl. destruct (ascii_dec c c); [now rewrite prefix_nil | congruence]. Qed.

Lemma escapeDoubleQuotes_length (s : string) :
  (String.length s <= String.length (escapeDoubleQuotes s))%nat.
Proof.
  unfold escapeDoubleQuotes.
  induction s as [|c s IH]; simpl; [lia|].
  destruct (Ascii.eqb c DQUOTE); simpl; lia.
Qed.

(** What [escapeDoubleQuotes] does, character by character. *)
Lemma escapeDoubleQuotes_cons (c : ascii) (s : string) :
  escapeDoubleQuotes (String c s)
  = (if Ascii.eqb c DQUOTE then String DQUOTE (str DQUOTE) else str c)
      ++ escapeDoubleQuotes s.
Proof. unfold escapeDoubleQuotes. simpl. now destruct (Ascii.eqb c DQUOTE). Qed.

End StringFacts.

(** ** The quoting rule of [arrayToCSVLine] *)

Lemma csvValue_newline (s : string) :
  includes s (str LF) = true -> csvValue (VString s) = VString (quoted s).
Proof. intros H. unfold csvValue. now rewrite H, orb_true_r. Qed.

Lemma quoted_neq (s : string) : quoted s <> s.
Proof.
  intros H. apply (f_equal String.length) in H. unfold quoted in H.
  rewrite !slength_app in H. simpl in H.
  pose proof (escapeDoubleQuotes_length s). lia.
Qed.

(** C4, as stated, fails: the field made of [a], a double quote and [b]
    contains a double quote, yet it is written as it is, neither wrapped nor
    with its quote doubled. *)
Lemma quote_without_comma_not_doubled :
  let s := "a" ++ str DQUOTE ++ "b" in
  includes s (str DQUOTE) = true
  /\ arrayToCSVLine [VString s] = s
  /\ arrayToCSVLine [VString s] <> quoted s
  /\ includes (arrayToCSVLine [VString s]) (String DQUOTE (str DQUOTE)) = false.
Proof.
  cbv zeta. repeat split; try reflexivity.
  intros H. vm_compute in H. discriminate.
Qed.

(** C4, amended: a string field is written wrapped in double quotes, with
    every double quote inside it doubled, if and only if it contains a comma
    or a newline; a field with neither is written unchanged, so a double
    quote in such a field is not doubled.  [undefined] is written as the
    empty field. *)
Theorem csv_field_quoting (s : string) :
  (csvValue (VString s) = VString (quoted s)
   <-> includes s "," = true \/ includes s (str LF) = true)
  /\ (includes s "," = false -> includes s (str LF) = false ->
      csvValue (VString s) = VString s)
  /\ (forall c t, escapeDoubleQuotes (String c t)
                  = (if Ascii.eqb c DQUOTE then String DQUOTE (str DQUOTE) else str c)
                      ++ escapeDoubleQuotes t)
  /\ (forall before after,
         arrayToCSVLine (before ++ VString s :: after)%list
         = joinValues "," (map csvValue before ++
                           (if includes s "," || includes s (str LF)
                            then VString (quoted s) else VString s)
                           :: map csvValue after)%list).
Proof.
  split; [|split; [|split]].
  - unfold csvValue, quoted. split.
    + intros H. destruct (includes s ","); [now left|].
      destruct (includes s (str LF)); [now right|].
      simpl in H. injection H as H. symmetry in H. now apply quoted_neq in H.
    + intros [H|H]; rewrite H; [reflexivity | now rewrite orb_true_r].
  - intros H1 H2. unfold csvValue. now rewrite H1, H2.
  - apply escapeDoubleQuotes_cons.
  - intros before after. unfold arrayToCSVLine. rewrite map_app. simpl.
    unfold quoted. now destruct (includes s "," || includes s (str LF)).
Qed.

Lemma csv_field_quoting_witness :
  csvValue (VString "a,b") = VString (quoted "a,b")
  /\ csvValue (VString "ab") = VString "ab".
Proof.
  split.
  - apply (proj1 (csv_field_quoting "a,b")). left. reflexivity.
  - apply (proj1 (proj2 (csv_field_quoting "ab"))); reflexivity.
Defined.

(** ** The document of [makeCsv] *)

Lemma appendCommas_commas (n : nat) (csvData : string) :
  appendCommas n csvData = csvData ++ commas n.
Proof.
  revert csvData. induction n as [|n IH]; intros csvData; simpl.
  - now rewrite sapp_nil_r.
  - rewrite IH. now rewrite sapp_assoc.
Qed.

Lemma fold_dataLines (n : nat) (files : list (list value)) (csvData : string) :
  fold_left (fun csvData f =>
               let csvData := csvData ++ arrayToCSVLine f in
               let csvData := appendCommas n csvData in
               csvData ++ str LF) files csvData
  = csvData ++ dataLines n files.
Proof.
  revert csvData. induction files as [|f files IH]; intros csvData; simpl.
  - now rewrite sapp_nil_r.
  - rewrite IH, appendCommas_commas. unfold dataLine.
    now rewrite !sapp_assoc.
Qed.

(** The document is the header, a newline, and the data lines. *)
Lemma csvDocument_eq (names : string) (files : list (list value)) :
  csvDocument names files
  = headerText names ++ str LF
      ++ dataLines (List.length (split COMMA names)) files.
Proof.
  unfold csvDocument. rewrite fold_dataLines. unfold headerText.
  now rewrite !sapp_assoc.
Qed.

Lemma drive_forEach_prefix (form : Drive.Form) (n : nat) (lines : list string)
      (csvData text p : string) :
  Drive.forEach form n lines csvData = Some text ->
  prefix p csvData = true -> prefix p text = true.
Proof.
  revert csvData. induction lines as [|line lines IH]; intros csvData H Hp; simpl in H.
  - now injection H as <-.
  - destruct (Drive.forEach_callback form n line csvData) as [csvData'|] eqn:E;
      [|discriminate].
    apply (IH csvData' H).
    unfold Drive.forEach_callback in E.
    destruct (negb _); [now injection E as <-|].
    destruct (isMedia _); [|now injection E as <-].
    destruct (capitalizeFLetter _); [|discriminate].
    injection E as <-. now apply prefix_app_l.
Qed.

(** C7: the byte-order mark is assigned to [csvData] and then overwritten by
    the header (an [=] where [+=] was meant), so no document begins with
    it: every document of [index.html], and every document of [drive.html],
    begins with the header line instead. *)
Theorem document_begins_with_header_not_BOM :
  (forall names files,
      startsWith (csvDocument names files) BOM = false
      /\ startsWith (csvDocument names files) (headerLine ++ ",") = true)
  /\ (forall form,
         match Drive.makeCsv form with
         | Some text => startsWith text BOM = false
                        /\ startsWith text (headerLine ++ ",") = true
         | None => True
         end).
Proof.
  split.
  - intros names files. rewrite csvDocument_eq. unfold headerText, startsWith.
    split; [reflexivity|].
    rewrite <- !sapp_assoc. do 3 apply prefix_app_l.
    apply prefix_correct. reflexivity.
  - intros form. destruct (Drive.makeCsv form) as [text|] eqn:E; [|exact I].
    unfold Drive.makeCsv in E. unfold startsWith.
    assert (H : prefix (headerLine ++ ",") text = true).
    { apply (drive_forEach_prefix _ _ _ _ _ _ E).
      rewrite <- !sapp_assoc. do 2 apply prefix_app_l.
      apply prefix_correct. reflexivity. }
    split; [|exact H].
    destruct text as [|c text]; [vm_compute in H; discriminate H|].
    assert (Hc : "*"%char = c).
    { destruct (ascii_dec "*" c) as [Hc|Hc]; [exact Hc|].
      change (headerLine ++ ",")
        with (String "*"%char (substring 1 100 (headerLine ++ ","))) in H.
      now rewrite (prefix_head_neq _ _ _ _ Hc) in H. }
    subst c. reflexivity.
Qed.

(** ** The callback of [forEach] on one entry *)

Lemma prefix_split (p s : string) :
  prefix p s = true -> exists r, s = p ++ r.
Proof.
  revert s. induction p as [|c p IH]; intros s H.
  - now exists s.
  - destruct s as [|d s]; simpl in H; [discriminate|].
    destruct (ascii_dec c d) as [<-|]; [|discriminate].
    destruct (IH s H) as [r ->]. now exists r.
Qed.

Lemma files_push_neq (row : list value) (st : State) : files_push row st <> st.
Proof.
  intros H. apply (f_equal files) in H. simpl in H.
  apply (f_equal (@List.length _)) in H. rewrite length_app in H. simpl in H. lia.
Qed.

Lemma beginsWithMedia_isMedia (m : string) :
  beginsWithMedia m = true -> isMedia m = true.
Proof.
  unfold beginsWithMedia, startsWith, isMedia. intros H.
  apply orb_true_iff in H. destruct H as [H|H];
    [apply orb_true_iff in H; destruct H as [H|H]|];
    rewrite (indexOf_prefix _ _ H); simpl; now rewrite ?orb_true_r.
Qed.

Lemma beginsWithMedia_capitalize (m : string) :
  beginsWithMedia m = true ->
  exists w, capitalizeFLetter (hd EmptyString (split SLASH m)) = Some w.
Proof.
  unfold beginsWithMedia, startsWith. intros H.
  apply orb_true_iff in H. destruct H as [H|H];
    [apply orb_true_iff in H; destruct H as [H|H]|];
    apply prefix_split in H; destruct H as [r ->]; simpl;
    destruct (split SLASH r); simpl; eexists; reflexivity.
Qed.

Lemma description_has_newline (user_name folderName description : string) :
  includes ("By " ++ user_name ++ " in " ++ folderName ++ ". " ++ str LF ++ description)
           (str LF) = true.
Proof.
  apply (includes_app_r "By "). apply (includes_app_r user_name).
  apply (includes_app_r " in "). apply (includes_app_r folderName).
  apply (includes_app_r ". "). apply includes_cons_here.
Qed.

(** On a media entry with an owner and a mime type whose part before the
    slash is not empty, the callback appends one row. *)
Lemma callback_media (a : Args) (n : Node) (k : nat) (file : File) (st : State) :
  isFolder file = false -> isMedia (mimeType file) = true ->
  throws file = false ->
  exists media_type owner0 others,
    capitalizeFLetter (hd EmptyString (split SLASH (mimeType file))) = Some media_type
    /\ owners file = owner0 :: others
    /\ forEach_callback a n k file st
       = Normal (files_push
           [ VString (name file);
             VString ("By " ++ displayName owner0 ++ " in " ++ folderName a ++ ". "
                      ++ str LF
                      ++ match description file with Some d => d | None => EmptyString end);
             VString EmptyString;
             VString ("https://drive.google.com/uc?export=download&id=" ++ id file);
             VString (id file);
             VString media_type;
             VString (categoryName a ++ ">" ++ driveName a ++ " " ++ folderPath a);
             emailAddress owner0;
             VString (ownerId a);
             VString (metadataProfileId a) ] st).
Proof.
  intros Hf Hm Ht. unfold throws in Ht. rewrite Hf, Hm in Ht. simpl in Ht.
  apply orb_false_iff in Ht. destruct Ht as [Hc Ho].
  unfold forEach_callback. unfold isFolder in Hf. rewrite Hf, Hm.
  destruct (capitalizeFLetter _) as [w|]; [|discriminate].
  destruct (owners file) as [|o os]; [discriminate|].
  exists w, o, os. repeat split.
Qed.

Lemma callback_throws (a : Args) (n : Node) (k : nat) (file : File) (st : State) :
  throws file = true -> forEach_callback a n k file st = Throw st.
Proof.
  unfold throws, isFolder, forEach_callback. intros H.
  destruct (mimeType file =? folderMime)%string; [discriminate|].
  destruct (isMedia (mimeType file)); [|discriminate]. simpl in H.
  destruct (capitalizeFLetter _); [|reflexivity].
  destruct (owners file); [reflexivity | discriminate].
Qed.

Lemma callback_other (a : Args) (n : Node) (k : nat) (file : File) (st : State) :
  isFolder file = false -> isMedia (mimeType file) = false ->
  forEach_callback a n k file st = Normal st.
Proof.
  unfold isFolder, forEach_callback. intros -> ->. reflexivity.
Qed.

(** ** Arrays *)

Section ArrayFacts.
Local Open Scope list_scope.

Lemma Array_indexOf_undefined (a : list string) :
  Array_indexOf a VUndefined = (-1)%Z.
Proof.
  unfold Array_indexOf. generalize 0%Z.
  induction a as [|y a IH]; intros i; simpl; [reflexivity | apply IH].
Qed.

(** [a.splice(-1, 1)] leaves the array without its last element. *)
Lemma splice_last_removelast {A : Type} (a : list A) :
  splice (-1) 1 a = removelast a.
Proof.
  destruct a as [|x a]; [reflexivity|].
  unfold splice. set (l := x :: a).
  assert (Hlen : (1 <= Z.of_nat (List.length l))%Z) by (subst l; simpl; lia).
  change ((-1 <? 0)%Z) with true. cbv iota.
  replace (Z.max (Z.of_nat (List.length l) + -1) 0)
    with (Z.of_nat (List.length l) - 1)%Z by lia.
  replace (Z.min (Z.max 1 0) (Z.of_nat (List.length l) - (Z.of_nat (List.length l) - 1)))
    with 1%Z by lia.
  replace (Z.to_nat (Z.of_nat (List.length l) - 1 + 1)) with (List.length l) by lia.
  replace (Z.to_nat (Z.of_nat (List.length l) - 1)) with (pred (List.length l)) by lia.
  rewrite skipn_all, app_nil_r. symmetry. apply removelast_firstn_len.
Qed.

Lemma removelast_length {A : Type} (a : list A) :
  List.length (removelast a) = pred (List.length a).
Proof.
  rewrite removelast_firstn_len, firstn_length_le; [reflexivity | lia].
Qed.

Lemma take_split {A : Type} (i : nat) (l : list A) (x : A) (others : list A) :
  take i l = Some (x, others) ->
  exists pre post, l = pre ++ x :: post /\ others = pre ++ post.
Proof.
  unfold take. destruct (nth_error l i) as [y|] eqn:E; [|discriminate].
  intros H. injection H as <- <-.
  exists (firstn i l), (skipn (S i) l). split; [|reflexivity].
  symmetry. now apply firstn_skipn_middle.
Qed.

Lemma take_Forall {A : Type} (P : A -> Prop) (i : nat) (l : list A) (x : A)
      (others : list A) :
  take i l = Some (x, others) -> Forall P l -> P x /\ Forall P others.
Proof.
  intros Ht HP. destruct (take_split _ _ _ _ Ht) as (pre & post & -> & ->).
  apply Forall_app in HP. destruct HP as [Hpre HP].
  inversion HP as [|y l' Hx Hpost]; subst. split; [exact Hx|].
  apply Forall_app. now split.
Qed.

Lemma filter_both_nil {A : Type} (p : A -> bool) (l : list A) :
  filter p l = [] -> filter (fun x => negb (p x)) l = [] -> l = [].
Proof.
  destruct l as [|x l]; [reflexivity|]. simpl.
  destruct (p x); simpl; discriminate.
Qed.

End ArrayFacts.

(** ** The folders of a drive *)

Section Folders.
Local Open Scope list_scope.

Lemma folders_at_eq (n : Node) (f : File) :
  folders_at n f = n :: subfolders n 0 (listing f).
Proof.
  destruct f as [i nm m o d e l]. simpl. f_equal.
  generalize 0%nat. induction l as [|g l IH]; intros k; simpl; [reflexivity|].
  now rewrite IH.
Qed.

Lemma never_throws_eq (f : File) :
  never_throws f
  = negb (throws f) && (negb (isFolder f) || listing_never_throws (listing f)).
Proof.
  destruct f as [i nm m o d e l]. reflexivity.
Qed.

(** Induction on the tree of listings. *)
Lemma File_tree_ind (P : File -> Prop) :
  (forall f, Forall P (listing f) -> P f) -> forall f, P f.
Proof.
  intros H. fix IH 1. intros [i nm m o d e l]. apply H. simpl.
  induction l as [|g l IHl]; constructor; [apply IH | exact IHl].
Qed.

(** The folders below [n] are named by [n], then a position, then more. *)
Lemma folders_names (f : File) :
  forall n,
    NoDup (folders_at n f)
    /\ forall m, In m (folders_at n f) -> exists rest, m = n ++ rest.
Proof.
  induction f as [f IH] using File_tree_ind. intros n.
  rewrite folders_at_eq.
  assert (Hsub : forall k,
             NoDup (subfolders n k (listing f))
             /\ forall m, In m (subfolders n k (listing f)) ->
                          exists j rest, m = n ++ j :: rest /\ (k <= j)%nat).
  { induction IH as [|g l Hg _ IHl]; intros k; simpl.
    - split; [constructor | contradiction].
    - destruct (IHl (S k)) as [Hnd Hin].
      destruct (Hg (n ++ [k])) as [Hgd Hgin].
      assert (Hhead : forall m,
                 In m (if isFolder g then folders_at (n ++ [k]) g else []) ->
                 exists rest, m = n ++ k :: rest).
      { intros m Hm. destruct (isFolder g); [|contradiction].
        destruct (Hgin m Hm) as [rest ->]. exists rest.
        now rewrite <- app_assoc. }
      split.
      + apply NoDup_app; [destruct (isFolder g); [exact Hgd | constructor]
                         | exact Hnd |].
        intros m Hm1 Hm2. destruct (Hhead m Hm1) as [rest ->].
        destruct (Hin _ Hm2) as (j & rest' & E & Hj).
        apply app_inv_head in E. injection E as -> _. lia.
      + intros m Hm. apply in_app_or in Hm. destruct Hm as [Hm|Hm].
        * destruct (Hhead m Hm) as [rest ->]. exists k, rest. split; [reflexivity | lia].
        * destruct (Hin m Hm) as (j & rest & -> & Hj). exists j, rest.
          split; [reflexivity | lia]. }
  destruct (Hsub 0%nat) as [Hnd Hin]. split.
  - constructor; [|exact Hnd]. intros Hn.
    destruct (Hin n Hn) as (j & rest & E & _).
    apply (f_equal (@List.length _)) in E. rewrite length_app in E. simpl in E. lia.
  - intros m [<-|Hm]; [exists []; now rewrite app_nil_r|].
    destruct (Hin m Hm) as (j & rest & -> & _). now exists (j :: rest).
Qed.

(** No folder node is listed twice among the folders of a drive. *)
Lemma folders_NoDup (drive : list File) : NoDup (folders drive).
Proof.
  pose (root := mkFile EmptyString EmptyString folderMime [] None None drive).
  change (folders drive) with ([] :: subfolders [] 0 (listing root)).
  rewrite <- folders_at_eq. apply folders_names.
Qed.

End Folders.

(** ** What a visit does to the globals *)

Section Visits.
Local Open Scope list_scope.

Lemma grows_refl (st : State) : grows st st [] [].
Proof. unfold grows. destruct st; simpl. now rewrite !app_nil_r. Qed.

Lemma grows_trans (st st1 st2 : State) rows1 rows2 spawned1 spawned2 :
  grows st st1 rows1 spawned1 -> grows st1 st2 rows2 spawned2 ->
  grows st st2 (rows1 ++ rows2) (spawned1 ++ spawned2).
Proof.
  unfold grows. intros -> ->. simpl.
  now rewrite map_app, !app_assoc.
Qed.

Lemma callback_grows (a : Args) (n : Node) (k : nat) (file : File) (st : State) :
  exists rows spawned,
    grows st (state_of (forEach_callback a n k file st)) rows spawned
    /\ Forall (row_from a) rows
    /\ Forall (fun c => isSubfolderCall c = true) spawned
    /\ (never_throws file = true ->
        forEach_callback a n k file st
        = Normal (state_of (forEach_callback a n k file st))
        /\ flat_map pending spawned
           = (if isFolder file then folders_at (n ++ [k]) file else [])
        /\ Forall (fun c => listing_never_throws (reply c) = true) spawned).
Proof.
  destruct (isFolder file) eqn:Hf.
  - (* a folder: its key is pushed, then the call is started *)
    unfold forEach_callback. unfold isFolder in Hf. rewrite Hf.
    exists [], [mkCall (mkArgs (id file) (driveName a) (name file) (categoryName a)
                               (metadataProfileId a)
                               (folderPath a ++ " - " ++ name file)%string
                               EmptyString)
                       (listing file) ThenSubfolder (n ++ [k])
                       (btoa_utf8 (folderPath a ++ " - " ++ name file)%string)].
    split; [|split; [|split]].
    + unfold grows, getDriveFiles, runs_push, set_calls. simpl.
      now rewrite app_nil_r.
    + constructor.
    + repeat constructor.
    + intros Hn. rewrite never_throws_eq in Hn. unfold isFolder in Hn.
      rewrite Hf in Hn. apply andb_true_iff in Hn. destruct Hn as [_ Hn].
      simpl in Hn. split; [reflexivity|]. split.
      * simpl. unfold pending. simpl. rewrite app_nil_r.
        now rewrite folders_at_eq.
      * repeat constructor. exact Hn.
  - destruct (isMedia (mimeType file)) eqn:Hm.
    + destruct (throws file) eqn:Ht.
      * (* the callback throws before it writes anything *)
        rewrite (callback_throws a n k file st Ht).
        exists [], []. split; [apply grows_refl|].
        split; [constructor|]. split; [constructor|].
        intros Hn. rewrite never_throws_eq, Ht in Hn. discriminate.
      * (* a media entry: one row *)
        destruct (callback_media a n k file st Hf Hm Ht)
          as (w & o & os & _ & _ & ->).
        eexists [_], []. split; [|split; [|split]].
        -- unfold grows, files_push. simpl. now rewrite !app_nil_r.
        -- constructor; [|constructor].
           do 6 eexists. split; [reflexivity|].
           apply description_has_newline.
        -- constructor.
        -- intros _. repeat split. constructor.
    + rewrite (callback_other a n k file st Hf Hm).
      exists [], []. split; [apply grows_refl|].
      split; [constructor|]. split; [constructor|].
      intros _. repeat split. constructor.
Qed.

Lemma forEach_grows (a : Args) (n : Node) (l : list File) :
  forall (k : nat) (st : State),
  exists rows spawned,
    grows st (state_of (forEach a n k l st)) rows spawned
    /\ Forall (row_from a) rows
    /\ Forall (fun c => isSubfolderCall c = true) spawned
    /\ (listing_never_throws l = true ->
        forEach a n k l st = Normal (state_of (forEach a n k l st))
        /\ flat_map pending spawned = subfolders n k l
        /\ Forall (fun c => listing_never_throws (reply c) = true) spawned).
Proof.
  induction l as [|file l IH]; intros k st.
  - exists [], []. simpl. split; [apply grows_refl|].
    repeat split; constructor.
  - destruct (callback_grows a n k file st)
      as (rows1 & spawned1 & Hg1 & Hr1 & Hs1 & Hn1).
    cbn [forEach].
    destruct (forEach_callback a n k file st) as [st1|st1] eqn:E; simpl in Hg1.
    + destruct (IH (S k) st1) as (rows2 & spawned2 & Hg2 & Hr2 & Hs2 & Hn2).
      exists (rows1 ++ rows2), (spawned1 ++ spawned2).
      split; [exact (grows_trans _ _ _ _ _ _ _ Hg1 Hg2)|].
      split; [now apply Forall_app|]. split; [now apply Forall_app|].
      intros Hn. simpl in Hn. apply andb_true_iff in Hn. destruct Hn as [Hn Hl].
      destruct (Hn1 Hn) as (_ & Hp1 & Hok1).
      destruct (Hn2 Hl) as (HN & Hp2 & Hok2).
      split; [exact HN|]. split.
      * rewrite flat_map_app, Hp1, Hp2. reflexivity.
      * now apply Forall_app.
    + exists rows1, spawned1. split; [exact Hg1|].
      split; [exact Hr1|]. split; [exact Hs1|].
      intros Hn. simpl in Hn. apply andb_true_iff in Hn. destruct Hn as [Hn _].
      destruct (Hn1 Hn) as (HN & _). discriminate.
Qed.

(** A call of [getDriveFiles] that resumes: its promise is fulfilled with
    [undefined] or rejected, and the globals have only grown. *)
Lemma resume_grows (c : Call) (st : State) :
  exists rows spawned st',
    (getDriveFiles_resume c st = Fulfilled VUndefined st'
     \/ getDriveFiles_resume c st = Rejected st')
    /\ grows (mark_visited (node c) st) st' rows spawned
    /\ Forall (row_from (args c)) rows
    /\ Forall (fun c => isSubfolderCall c = true) spawned
    /\ (listing_never_throws (reply c) = true ->
        getDriveFiles_resume c st = Fulfilled VUndefined st'
        /\ flat_map pending spawned = subfolders (node c) 0 (reply c)
        /\ Forall (fun c => listing_never_throws (reply c) = true) spawned).
Proof.
  destruct (forEach_grows (args c) (node c) (reply c) 0 (mark_visited (node c) st))
    as (rows & spawned & Hg & Hr & Hs & Hn).
  unfold getDriveFiles_resume.
  destruct (forEach (args c) (node c) 0 (reply c) (mark_visited (node c) st))
    as [st'|st'] eqn:E; simpl in Hg.
  - exists rows, spawned, st'. split; [now left|].
    split; [exact Hg|]. split; [exact Hr|]. split; [exact Hs|].
    intros H. destruct (Hn H) as (_ & Hp & Hok). now repeat split.
  - exists rows, spawned, st'. split; [now right|].
    split; [exact Hg|]. split; [exact Hr|]. split; [exact Hs|].
    intros H. destruct (Hn H) as (HN & _). discriminate.
Qed.

End Visits.

(** ** Invariants of the event loop *)

Section Invariants.
Local Open Scope list_scope.

Lemma count_split {A : Type} (p : A -> bool) (pre post : list A) (c : A) :
  List.length (filter p (pre ++ c :: post))
  = (List.length (filter p (pre ++ post)) + (if p c then 1 else 0))%nat.
Proof.
  rewrite !filter_app, !length_app. simpl. destruct (p c); simpl; lia.
Qed.

Lemma count_all {A : Type} (p : A -> bool) (l : list A) :
  Forall (fun c => p c = true) l -> List.length (filter p l) = List.length l.
Proof.
  induction 1 as [|c l Hc _ IH]; simpl; [reflexivity|]. rewrite Hc. simpl. now rewrite IH.
Qed.

Lemma count_none {A : Type} (p : A -> bool) (l : list A) :
  Forall (fun c => p c = true) l ->
  List.length (filter (fun c => negb (p c)) l) = 0%nat.
Proof.
  induction 1 as [|c l Hc _ IH]; simpl; [reflexivity|]. now rewrite Hc.
Qed.

Lemma run_invariant (P : State -> Prop) :
  (forall e st st', P st -> step e st = Some st' -> P st') ->
  forall es st st', P st -> run es st = Some st' -> P st'.
Proof.
  intros Hstep es. induction es as [|e es IH]; intros st st' HP H; simpl in H.
  - now injection H as <-.
  - destruct (step e st) as [st1|] eqn:E; [|discriminate].
    exact (IH st1 st' (Hstep e st st1 HP E) H).
Qed.

Lemma invariant_makeCsv (form : Index.Form) (drive : list File) :
  invariant form (makeCsv form drive loaded).
Proof.
  unfold invariant, makeCsv, getDriveFiles, subfolderCalls, rootCalls. simpl.
  split; [lia|]. split; [lia|]. split; [intros H; now contradiction H|].
  split; [constructor|]. split; [now split|]. split; [reflexivity|].
  split; [discriminate|].
  constructor; [|constructor]. cbn. intros names E. now injection E as <-.
Qed.

(** The effect of an answered listing on the counts of suspended calls. *)
Lemma answer_shape (st : State) (i : nat) (c : Call) (others : list Call) :
  take i (calls st) = Some (c, others) ->
  exists rows spawned st1,
    (getDriveFiles_resume c (set_calls others st) = Fulfilled VUndefined st1
     \/ getDriveFiles_resume c (set_calls others st) = Rejected st1)
    /\ st1 = mkState (files st ++ rows) (runs st ++ map token spawned) (inter st)
                     (others ++ spawned) (alerts st) (downloads st)
                     (visited st ++ [node c]) (timer st) (orphans st)
    /\ Forall row_shape rows
    /\ List.length (filter isSubfolderCall (others ++ spawned))
       = (List.length (filter isSubfolderCall others) + List.length spawned)%nat
    /\ List.length (filter (fun c => negb (isSubfolderCall c)) (others ++ spawned))
       = List.length (filter (fun c => negb (isSubfolderCall c)) others)
    /\ subfolderCalls st
       = (List.length (filter isSubfolderCall others)
          + match cont c with ThenSubfolder => 1 | ThenMakeCsv _ => 0 end)%nat
    /\ rootCalls st
       = (List.length (filter (fun c => negb (isSubfolderCall c)) others)
          + match cont c with ThenSubfolder => 0 | ThenMakeCsv _ => 1 end)%nat
    /\ Forall (fun c => isSubfolderCall c = true) spawned.
Proof.
  intros Ht. destruct (take_split _ _ _ _ Ht) as (pre & post & Hc & ->).
  destruct (resume_grows c (set_calls (pre ++ post) st))
    as (rows & spawned & st1 & Hres & Hg & Hr & Hs & _).
  exists rows, spawned, st1. split; [exact Hres|].
  cut ((getDriveFiles_resume c (set_calls (pre ++ post) st) = Fulfilled VUndefined st1
        \/ True) /\ Forall (fun c => isSubfolderCall c = true) spawned);
    [|split; [now right | exact Hs]].
  intros [_ Hsp]. repeat rewrite <- and_assoc. split; [|exact Hsp].
  repeat rewrite and_assoc.
  split; [exact Hg|].
  split; [eapply Forall_impl; [|exact Hr]; intros row H; now exists (args c)|].
  split; [now rewrite filter_app, length_app, (count_all _ _ Hs)|].
  split; [rewrite filter_app, length_app, (count_none _ _ Hs); lia|].
  unfold subfolderCalls, rootCalls. rewrite Hc, !count_split.
  split; unfold isSubfolderCall at 2; now destruct (cont c).
Qed.

Lemma invariant_step (form : Index.Form) (e : Event) (st st' : State) :
  invariant form st -> step e st = Some st' -> invariant form st'.
Proof.
  intros (Hsub & Hroot & Hint & Hrows & Hend & Horph & Htimer & Hclos) H.
  destruct e as [i|i| |j]; simpl in H.
  - (* a listing arrives *)
    destruct (take i (calls st)) as [[c others]|] eqn:Ht; [|discriminate].
    assert (Hlive : alerts st = [] /\ downloads st = []).
    { destruct (inter st); try exact Hend.
      destruct Hend as [Hnil _]. rewrite Hnil in Ht.
      unfold take in Ht. now destruct i. }
    destruct (take_Forall _ _ _ _ _ Ht Hclos) as [Hc_clos Ho_clos].
    destruct (answer_shape st i c others Ht)
      as (rows & spawned & st1 & Hres & -> & Hr & Hs1 & Hs2 & Hs3 & Hs4 & Hsp).
    assert (Hnew : Forall (fun c => forall metadataFieldNames,
                               cont c = ThenMakeCsv metadataFieldNames ->
                               metadataFieldNames = metadata_fields form)
                          (others ++ spawned)).
    { apply Forall_app. split; [exact Ho_clos|].
      eapply Forall_impl; [|exact Hsp]. intros c' Hc' names E.
      unfold isSubfolderCall in Hc'. rewrite E in Hc'. discriminate. }
    destruct Hres as [Hres|Hres]; rewrite Hres in H.
    + destruct (cont c) as [|names] eqn:Hk; injection H as <-.
      * (* the callback of a subfolder takes one token off *)
        unfold then_subfolder. cbn [runs].
        rewrite Array_indexOf_undefined, splice_last_removelast.
        unfold invariant, subfolderCalls, rootCalls, set_runs. cbn.
        rewrite removelast_length, length_app, length_map, Hs1, Hs2.
        split; [lia|]. split; [lia|]. split; [intros Hi; specialize (Hint Hi); lia|].
        split; [now apply Forall_app|].
        split; [|split; [exact Horph | split; [exact Htimer | exact Hnew]]].
        destruct (inter st); try exact Hlive.
        destruct Hend as [Hnil _]. rewrite Hnil in Ht.
        unfold take in Ht. now destruct i.
      * (* the callback of [makeCsv] starts the timer *)
        assert (Hu : inter st = Unset).
        { destruct (inter st) eqn:Hi; [reflexivity| |];
            (assert (Hz : rootCalls st = 0%nat) by (apply Hint; congruence); lia). }
        unfold invariant, subfolderCalls, rootCalls, then_makeCsv, setInterval. cbn.
        rewrite length_app, length_map, Hs1, Hs2, Hu.
        split; [lia|]. split; [lia|]. split; [intros _; lia|].
        split; [now apply Forall_app|]. split; [exact Hlive|].
        split; [exact Horph|]. split; [intros _; now apply Hc_clos | exact Hnew].
    + injection H as <-.
      unfold invariant, subfolderCalls, rootCalls. cbn.
      rewrite length_app, length_map, Hs1, Hs2.
      split; [destruct (cont c); lia|]. split; [lia|].
      split; [intros Hi; specialize (Hint Hi); lia|].
      split; [now apply Forall_app|].
      split; [|split; [exact Horph | split; [exact Htimer | exact Hnew]]].
      destruct (inter st); try exact Hlive.
      destruct Hend as [Hnil _]. rewrite Hnil in Ht.
      unfold take in Ht. now destruct i.
  - (* a listing fails *)
    destruct (take i (calls st)) as [[c others]|] eqn:Ht; [|discriminate].
    injection H as <-.
    destruct (take_Forall _ _ _ _ _ Ht Hclos) as [_ Ho_clos].
    destruct (take_split _ _ _ _ Ht) as (pre & post & Hc & ->).
    unfold invariant, subfolderCalls, rootCalls in *. cbn.
    rewrite Hc, !count_split in *.
    split; [lia|]. split; [lia|]. split; [intros Hi; specialize (Hint Hi); lia|].
    split; [exact Hrows|].
    split; [|split; [exact Horph | split; [exact Htimer | exact Ho_clos]]].
    destruct (inter st); try exact Hend.
    destruct Hend as [Hnil _]. now destruct pre.
  - (* the timer fires *)
    destruct (inter st) eqn:Hi; try discriminate. injection H as <-.
    rewrite (Htimer eq_refl).
    unfold interval_callback, clearInterval.
    destruct (List.length (runs st) =? 0)%nat eqn:Hr.
    + apply Nat.eqb_eq in Hr.
      assert (Hnone : calls st = []).
      { apply (filter_both_nil isSubfolderCall).
        - apply length_zero_iff_nil. unfold subfolderCalls in Hsub. lia.
        - apply length_zero_iff_nil. apply Hint. congruence. }
      rewrite Hi. cbn [files set_inter].
      destruct (List.length (files st) =? 0)%nat eqn:Hf.
      * apply Nat.eqb_eq, length_zero_iff_nil in Hf.
        unfold invariant, subfolderCalls, rootCalls, alert. cbn.
        rewrite Hnone, Hf. cbn.
        split; [lia|]. split; [lia|]. split; [reflexivity|].
        split; [constructor|].
        split; [|split; [exact Horph | split; [discriminate | constructor]]].
        split; [reflexivity|]. left.
        destruct Hend as [-> ->]. now repeat split.
      * apply Nat.eqb_neq in Hf.
        unfold invariant, subfolderCalls, rootCalls, downloadCSV. cbn.
        rewrite Hnone. cbn.
        split; [lia|]. split; [lia|]. split; [reflexivity|].
        split; [exact Hrows|].
        split; [|split; [exact Horph | split; [discriminate | constructor]]].
        split; [reflexivity|]. right.
        destruct Hend as [-> ->]. split; [|now split].
        intros E. rewrite E in Hf. now apply Hf.
    + unfold invariant. rewrite Hi. now repeat split.
  - (* no timer was left behind *)
    rewrite Horph in H. now destruct j.
Qed.

(** The callback of a timer leaves the globals [files] and [runs] and the
    suspended calls as they are, whatever its closure holds. *)
Lemma interval_callback_same (metadataFieldNames : string) (st : State) :
  files (interval_callback metadataFieldNames st) = files st
  /\ runs (interval_callback metadataFieldNames st) = runs st
  /\ calls (interval_callback metadataFieldNames st) = calls st
  /\ visited (interval_callback metadataFieldNames st) = visited st.
Proof.
  unfold interval_callback, clearInterval.
  destruct (List.length (runs st) =? 0)%nat; [|now repeat split].
  destruct (inter st); cbn [files set_inter];
    destruct (List.length (files st) =? 0)%nat; now repeat split.
Qed.

Lemma interval_callback_extends (metadataFieldNames : string) (st : State) :
  (exists rows, files (interval_callback metadataFieldNames st) = files st ++ rows)
  /\ (exists more, visited (interval_callback metadataFieldNames st)
                   = visited st ++ more)
  /\ (exists more, alerts (interval_callback metadataFieldNames st)
                   = alerts st ++ more)
  /\ (exists more, downloads (interval_callback metadataFieldNames st)
                   = downloads st ++ more).
Proof.
  unfold interval_callback, clearInterval.
  destruct (List.length (runs st) =? 0)%nat;
    [destruct (inter st); cbn [files set_inter];
     destruct (List.length (files st) =? 0)%nat|]; cbn;
    (split; [exists []; now rewrite app_nil_r|]);
    (split; [exists []; now rewrite app_nil_r|]);
    split; try (eexists; reflexivity); exists []; now rewrite app_nil_r.
Qed.

(** Both kinds of timer event run the callback of a timer. *)
Lemma step_timer (e : Event) (st st' : State) :
  match e with Tick | Tock _ => True | _ => False end ->
  step e st = Some st' ->
  exists metadataFieldNames, st' = interval_callback metadataFieldNames st.
Proof.
  intros He H. destruct e as [i|i| |j]; try contradiction; cbn [step] in H.
  - destruct (inter st); try discriminate. injection H as <-. now eexists.
  - destruct (nth_error (orphans st) j); [|discriminate]. injection H as <-. now eexists.
Qed.

(** In the first run on a page no timer is left behind. *)
Lemma Tock_disabled (form : Index.Form) (j : nat) (st : State) :
  invariant form st -> step (Tock j) st = None.
Proof.
  intros (_ & _ & _ & _ & _ & Horph & _). cbn [step]. rewrite Horph. now destruct j.
Qed.

Lemma reachable_invariant (form : Index.Form) (drive : list File) (st : State) :
  reachable form drive st -> invariant form st.
Proof.
  intros [es H].
  exact (run_invariant (invariant form) (invariant_step form) es _ _
           (invariant_makeCsv form drive) H).
Qed.

End Invariants.

(** ** The completion barrier *)

Section Barrier.
Local Open Scope list_scope.

(** C9: whenever the visit of a subfolder resolves, the value it resolves
    with is [undefined], [runs.indexOf] answers [-1], and [splice] takes
    away the last element of [runs], which is not empty: the pending count
    goes down by exactly one, whatever the tokens are. *)
Theorem resolution_removes_last_token
        (form : Index.Form) (drive : list File) (es : list Event) (st : State)
        (i : nat) (c : Call) (others : list Call) (res : value) (st1 : State) :
  run es (makeCsv form drive loaded) = Some st ->
  take i (calls st) = Some (c, others) ->
  cont c = ThenSubfolder ->
  getDriveFiles_resume c (set_calls others st) = Fulfilled res st1 ->
  res = VUndefined
  /\ Array_indexOf (runs st1) res = (-1)%Z
  /\ (exists rest newest,
         runs st1 = rest ++ [newest] /\ runs (then_subfolder res st1) = rest)
  /\ S (List.length (runs (then_subfolder res st1))) = List.length (runs st1)
  /\ step (Answer i) st = Some (then_subfolder res st1).
Proof.
  intros Hrun Ht Hk Hres.
  destruct (reachable_invariant form drive st (ex_intro _ es Hrun))
    as (Hsub & _).
  destruct (answer_shape st i c others Ht)
    as (rows & spawned & st1' & Hres' & Hst & _ & _ & _ & Hs3 & _).
  rewrite Hk in Hs3.
  destruct Hres' as [Hres'|Hres']; rewrite Hres' in Hres; [|discriminate].
  injection Hres as <- <-.
  assert (Hne : runs st1' <> []).
  { rewrite Hst. cbn. intros E. apply app_eq_nil in E. destruct E as [E _].
    rewrite E in Hsub. simpl in Hsub. lia. }
  destruct (exists_last Hne) as (rest & newest & Hlast).
  assert (Hpop : runs (then_subfolder VUndefined st1') = rest).
  { unfold then_subfolder. cbn [runs set_runs].
    rewrite Array_indexOf_undefined, splice_last_removelast, Hlast.
    apply removelast_last. }
  split; [reflexivity|]. split; [apply Array_indexOf_undefined|].
  split; [exists rest, newest; now split|].
  split; [rewrite Hpop, Hlast, length_app; simpl; lia|].
  simpl. now rewrite Ht, Hres', Hk.
Qed.

(** Two folders with the same name compute the same token; the resolution
    of the first still takes one element off. *)
Lemma resolution_removes_last_token_witness :
  exists st c others st1,
    run [Answer 0] (makeCsv scenario_form same_name_drive loaded) = Some st
    /\ runs st = [btoa_utf8 " - A"; btoa_utf8 " - A"]
    /\ take 0 (calls st) = Some (c, others)
    /\ getDriveFiles_resume c (set_calls others st) = Fulfilled VUndefined st1
    /\ S (List.length (runs (then_subfolder VUndefined st1))) = List.length (runs st1).
Proof.
  exists_run [Answer 0] (makeCsv scenario_form same_name_drive loaded).
  do 3 eexists.
  split; [vm_compute; reflexivity|]. split; [reflexivity|]. split; [reflexivity|].
  split; [vm_compute; reflexivity|].
  eapply (resolution_removes_last_token scenario_form same_name_drive [Answer 0]
            _ 0%nat _ _ VUndefined);
    [vm_compute; reflexivity | reflexivity | reflexivity | vm_compute; reflexivity].
Defined.

(** C1: in a root that holds the folders [A] and [B], both tokens are
    pushed before either visit starts; when the visit of [A] resolves, the
    token taken off [runs] is the one of [B], and the one of [A] stays
    although only the visit of [B] is still pending. *)
Theorem resolved_subfolder_keeps_its_token :
  exists st call_A call_B st',
    run [Answer 0] (makeCsv scenario_form two_folders_drive loaded) = Some st
    /\ calls st = [call_A; call_B]
    /\ driveId (args call_A) = "F1"%string /\ token call_A = btoa_utf8 " - A"
    /\ driveId (args call_B) = "F2"%string /\ token call_B = btoa_utf8 " - B"
    /\ runs st = [token call_A; token call_B]
    /\ step (Answer 0) st = Some st'
    /\ calls st' = [call_B]
    /\ runs st' = [token call_A]
    /\ token call_A <> token call_B.
Proof.
  exists_run [Answer 0] (makeCsv scenario_form two_folders_drive loaded).
  do 2 eexists.
  exists_run [Answer 0; Answer 0] (makeCsv scenario_form two_folders_drive loaded).
  split; [vm_compute; reflexivity|]. split; [reflexivity|].
  repeat (split; [vm_compute; reflexivity|]). discriminate.
Qed.

End Barrier.

(** ** The fields of a Record *)

Lemma lastChar_app (a : string) (c : ascii) (b : string) :
  lastChar (a ++ String c b) = lastChar (String c b).
Proof.
  induction a as [|d a IH]; [reflexivity|].
  cbn [append lastChar]. destruct (a ++ String c b) eqn:E; [|exact IH].
  destruct a; discriminate.
Qed.

(** The rows of a state have a description that holds a newline, and that
    [arrayToCSVLine] writes quoted. *)
Lemma row_shape_description (row : list value) :
  row_shape row ->
  List.length row = 10%nat
  /\ exists text,
      nth 1 row VUndefined = VString text
      /\ includes text (str LF) = true
      /\ nth 1 (map csvValue row) VUndefined = VString (quoted text).
Proof.
  intros (a & title & text & url & ref & mt & email & -> & Hnl).
  split; [reflexivity|]. exists text. split; [reflexivity|]. split; [exact Hnl|].
  cbn [nth map]. now apply csvValue_newline.
Qed.

(** ** Draining of the barrier *)

Section Draining.
Local Open Scope list_scope.

Lemma invariant_ok_makeCsv (form : Index.Form) (drive : list File) :
  listing_never_throws drive = true -> invariant_ok drive (makeCsv form drive loaded).
Proof.
  intros Hd. unfold invariant_ok, makeCsv, getDriveFiles, subfolderCalls, pending.
  simpl. rewrite app_nil_r. split; [reflexivity|]. split; [apply Permutation_refl|].
  now repeat constructor.
Qed.

Lemma invariant_ok_step (form : Index.Form) (drive : list File)
      (e : Event) (st st' : State) :
  match e with Reject _ => False | _ => True end ->
  invariant form st -> invariant_ok drive st ->
  step e st = Some st' -> invariant_ok drive st'.
Proof.
  intros He HI (Hcount & Hperm & Hok) H.
  destruct e as [i|i| |j]; [|contradiction| |];
    [| |rewrite (Tock_disabled form j st HI) in H; discriminate]; simpl in H.
  - destruct (take i (calls st)) as [[c others]|] eqn:Ht; [|discriminate].
    destruct (take_split _ _ _ _ Ht) as (pre & post & Hc & Ho).
    assert (Hc_ok : listing_never_throws (reply c) = true).
    { rewrite Hc in Hok. apply Forall_app in Hok. destruct Hok as [_ Hok].
      now inversion Hok. }
    assert (Hothers_ok : Forall (fun c => listing_never_throws (reply c) = true) others).
    { rewrite Hc in Hok. apply Forall_app in Hok. destruct Hok as [H1 H2].
      rewrite Ho. apply Forall_app. split; [exact H1 | now inversion H2]. }
    destruct (answer_shape st i c others Ht)
      as (rows & spawned & st1 & _ & Hst & _ & Hs1 & _ & Hs3 & _).
    destruct (resume_grows c (set_calls others st))
      as (rows' & spawned' & st1' & _ & Hg & _ & Hs & Hn).
    destruct (Hn Hc_ok) as (Hres & Hpend & Hsp_ok).
    rewrite Hres in H. clear Hst Hs1 rows spawned st1.
    assert (Hperm' :
              Permutation (folders drive)
                          ((visited st ++ [node c])
                             ++ flat_map pending (others ++ spawned'))).
    { eapply Permutation_trans; [exact Hperm|].
      rewrite Hc, Ho, !flat_map_app. cbn [flat_map]. rewrite Hpend.
      unfold pending at 2. rewrite <- !app_assoc.
      apply Permutation_app_head. cbn [app].
      apply Permutation_sym, Permutation_cons_app.
      apply Permutation_app_head, Permutation_app_comm. }
    assert (Hlen : List.length (filter isSubfolderCall (others ++ spawned'))
                   = (List.length (filter isSubfolderCall others)
                      + List.length spawned')%nat).
    { now rewrite filter_app, length_app, (count_all _ _ Hs). }
    unfold grows in Hg. cbn in Hg.
    unfold invariant_ok, subfolderCalls in *.
    destruct (cont c); injection H as <-; rewrite Hg.
    + unfold then_subfolder. cbn [runs].
      rewrite Array_indexOf_undefined, splice_last_removelast. cbn.
      rewrite removelast_length, length_app, length_map, Hlen.
      split; [lia|]. split; [exact Hperm'|]. now apply Forall_app.
    + unfold then_makeCsv. cbn.
      rewrite length_app, length_map, Hlen.
      split; [lia|]. split; [exact Hperm'|]. now apply Forall_app.
  - destruct (inter st) eqn:Hi; try discriminate. injection H as <-.
    unfold interval_callback, clearInterval.
    destruct (List.length (runs st) =? 0)%nat; [|now repeat split].
    rewrite Hi. cbn [files set_inter].
    destruct (List.length (files st) =? 0)%nat;
      unfold invariant_ok, subfolderCalls; cbn; now repeat split.
Qed.





End Draining.

(** ** Reading the document back *)

Section CsvReading.

Lemma includes_char_cons (c d : ascii) (s : string) :
  includes (String d s) (str c) = Ascii.eqb d c || includes s (str c).
Proof.
  cbn [includes]. f_equal. unfold str. cbn [prefix].
  destruct (ascii_dec c d) as [<-|Hn].
  - now rewrite prefix_nil, Ascii.eqb_refl.
  - symmetry. apply Ascii.eqb_neq. congruence.
Qed.

Lemma includes_char_nil (c : ascii) : includes EmptyString (str c) = false.
Proof. reflexivity. Qed.

Lemma includes_char_app (c : ascii) (a b : string) :
  includes (a ++ b) (str c) = includes a (str c) || includes b (str c).
Proof.
  induction a as [|d a IH]; [reflexivity|].
  cbn [append]. rewrite !includes_char_cons, IH. now rewrite orb_assoc.
Qed.

Lemma split_nonempty (sep : ascii) (s : string) : split sep s <> [].
Proof.
  destruct s as [|c s]; simpl; [discriminate|].
  destruct (Ascii.eqb c sep); [discriminate|].
  destruct (split sep s); discriminate.
Qed.

(** No piece of [s.split(sep)] holds a character that [s] does not hold. *)
Lemma split_pieces_free (c sep : ascii) (s : string) :
  includes s (str c) = false ->
  Forall (fun f => includes f (str c) = false) (split sep s).
Proof.
  induction s as [|d s IH]; intros H; cbn [split].
  - now constructor.
  - rewrite includes_char_cons in H. apply orb_false_iff in H.
    destruct H as [Hd Hs]. specialize (IH Hs).
    destruct (Ascii.eqb d sep).
    + constructor; [reflexivity | exact IH].
    + destruct (split sep s) as [|f fs]; constructor.
      * unfold str at 1. rewrite includes_char_cons, Hd. reflexivity.
      * constructor.
      * rewrite includes_char_cons, Hd. now inversion IH.
      * now inversion IH.
Qed.

(** No piece of [s.split(sep)] holds [sep]. *)
Lemma split_pieces_sep_free (sep : ascii) (s : string) :
  Forall (fun f => includes f (str sep) = false) (split sep s).
Proof.
  induction s as [|d s IH]; cbn [split].
  - now constructor.
  - destruct (Ascii.eqb d sep) eqn:E.
    + constructor; [reflexivity | exact IH].
    + destruct (split sep s) as [|f fs]; constructor.
      * unfold str at 1. rewrite includes_char_cons, E. reflexivity.
      * constructor.
      * rewrite includes_char_cons, E. now inversion IH.
      * now inversion IH.
Qed.

Lemma concat_free (c : ascii) (sep : string) (fs : list string) :
  includes sep (str c) = false ->
  Forall (fun f => includes f (str c) = false) fs ->
  includes (String.concat sep fs) (str c) = false.
Proof.
  intros Hsep H. induction H as [|f fs Hf Hfs IH]; [reflexivity|].
  cbn [String.concat]. destruct fs as [|g fs]; [exact Hf|].
  rewrite !includes_char_app, Hf, Hsep, IH. reflexivity.
Qed.

Lemma concat_app (sep : string) (a b : list string) :
  a <> [] -> b <> [] ->
  String.concat sep a ++ sep ++ String.concat sep b = String.concat sep (a ++ b)%list.
Proof.
  intros Ha Hb. induction a as [|x a IH]; [contradiction|].
  destruct a as [|y a].
  - cbn [String.concat app]. destruct b; [contradiction | reflexivity].
  - change (String.concat sep (x :: y :: a))
      with (x ++ sep ++ String.concat sep (y :: a)).
    change (String.concat sep ((x :: y :: a) ++ b)%list)
      with (x ++ sep ++ String.concat sep ((y :: a) ++ b)%list).
    rewrite <- IH by discriminate. now rewrite !sapp_assoc.
Qed.

Lemma concat_commas (vals : list string) (n : nat) :
  vals <> [] ->
  String.concat "," vals ++ commas n
  = String.concat "," (vals ++ repeat EmptyString n)%list.
Proof.
  intros Hv. destruct n as [|n].
  - cbn [commas repeat]. now rewrite sapp_nil_r, app_nil_r.
  - rewrite <- concat_app by (try exact Hv; discriminate). f_equal.
    induction n as [|n IH]; [reflexivity|].
    change (commas (S (S n))) with ("," ++ commas (S n)). rewrite IH.
    reflexivity.
Qed.

(** *** Pieces that a reader keeps whole *)

Lemma top_split_nonempty (sep : ascii) (inq : bool) (s : string) :
  top_split sep inq s <> [].
Proof.
  destruct s as [|c s]; cbn [top_split]; [discriminate|].
  destruct (Ascii.eqb c sep && negb inq); [discriminate|].
  destruct (top_split sep _ s); discriminate.
Qed.

Lemma quote_state_app (inq : bool) (a b : string) :
  quote_state inq (a ++ b) = quote_state (quote_state inq a) b.
Proof.
  revert inq. induction a as [|c a IH]; intros inq; [reflexivity|]. apply IH.
Qed.

Lemma no_top_app (sep : ascii) (inq : bool) (a b : string) :
  no_top sep inq (a ++ b) = no_top sep inq a && no_top sep (quote_state inq a) b.
Proof.
  revert inq. induction a as [|c a IH]; intros inq; [reflexivity|].
  cbn [append no_top quote_state]. rewrite IH. now rewrite andb_assoc.
Qed.

(** A piece without top-level separator stays with what follows it up to
    the next separator. *)
Lemma top_split_app (sep : ascii) (a b : string) (inq : bool) :
  no_top sep inq a = true ->
  top_split sep inq (a ++ b)
  = (a ++ hd EmptyString (top_split sep (quote_state inq a) b))
      :: tl (top_split sep (quote_state inq a) b).
Proof.
  revert inq. induction a as [|c a IH]; intros inq H.
  - cbn [append quote_state].
    pose proof (top_split_nonempty sep inq b).
    destruct (top_split sep inq b); [contradiction | reflexivity].
  - cbn [append top_split no_top quote_state] in *.
    apply andb_true_iff in H. destruct H as [Hc Ha].
    apply negb_true_iff in Hc. rewrite Hc. now rewrite (IH _ Ha).
Qed.

Lemma top_split_sealed (sep : ascii) (a : string) :
  sealed sep a -> top_split sep false a = [a].
Proof.
  intros [Hn Hq]. rewrite <- (sapp_nil_r a) at 1.
  rewrite (top_split_app sep a EmptyString false Hn), Hq. cbn.
  now rewrite sapp_nil_r.
Qed.

Lemma top_split_sep (sep : ascii) (s : string) :
  top_split sep false (String sep s) = EmptyString :: top_split sep false s.
Proof. cbn [top_split]. now rewrite Ascii.eqb_refl. Qed.

(** Sealed pieces joined by the separator are read back as they were. *)
Lemma top_split_concat (sep : ascii) (vs : list string) :
  vs <> [] -> Forall (sealed sep) vs ->
  top_split sep false (String.concat (str sep) vs) = vs.
Proof.
  intros Hne H. induction H as [|v vs Hv Hvs IH]; [contradiction|].
  destruct vs as [|w vs].
  - cbn [String.concat]. now apply top_split_sealed.
  - change (String.concat (str sep) (v :: w :: vs))
      with (v ++ String sep (String.concat (str sep) (w :: vs))).
    destruct Hv as [Hn Hq].
    rewrite (top_split_app sep v _ false Hn), Hq, top_split_sep.
    rewrite IH by discriminate. cbn. now rewrite sapp_nil_r.
Qed.

(** Sealed lines, each followed by a newline, are read back as they were. *)
Lemma top_split_unlines (ls : list string) :
  Forall (sealed LF) ls ->
  top_split LF false (unlines ls) = (ls ++ [EmptyString])%list.
Proof.
  induction 1 as [|l ls [Hn Hq] _ IH]; [reflexivity|].
  cbn [unlines]. change (str LF ++ unlines ls) with (String LF (unlines ls)).
  rewrite (top_split_app LF l _ false Hn), Hq, top_split_sep, IH.
  cbn. now rewrite sapp_nil_r.
Qed.

Lemma csv_lines_unlines (ls : list string) :
  Forall (sealed LF) ls -> csv_lines (unlines ls) = ls.
Proof.
  intros H. unfold csv_lines. rewrite (top_split_unlines ls H).
  rewrite last_last, String.eqb_refl. apply removelast_last.
Qed.

(** *** The fields and lines of the document are sealed *)

Lemma sealed_nil (sep : ascii) : sealed sep EmptyString.
Proof. split; reflexivity. Qed.

Lemma sealed_app (sep : ascii) (a b : string) :
  sealed sep a -> sealed sep b -> sealed sep (a ++ b).
Proof.
  intros [Ha Hqa] [Hb Hqb]. split.
  - now rewrite no_top_app, Ha, Hqa, Hb.
  - now rewrite quote_state_app, Hqa.
Qed.

Lemma plain_sealed (sep : ascii) (s : string) :
  includes s (str sep) = false -> includes s (str DQUOTE) = false ->
  sealed sep s.
Proof.
  induction s as [|c s IH]; intros Hs Hq; [apply sealed_nil|].
  rewrite includes_char_cons in Hs, Hq.
  apply orb_false_iff in Hs. apply orb_false_iff in Hq.
  destruct Hs as [Hc Hs], Hq as [Hd Hq]. destruct (IH Hs Hq) as [Hn Hst].
  split; cbn [no_top quote_state]; rewrite ?Hc, Hd; cbn; assumption.
Qed.

Lemma escaped_sealed (sep : ascii) (s : string) :
  Ascii.eqb DQUOTE sep = false ->
  no_top sep true (escapeDoubleQuotes s ++ str DQUOTE) = true
  /\ quote_state true (escapeDoubleQuotes s ++ str DQUOTE) = false.
Proof.
  intros Hsep. induction s as [|c s [IHn IHq]].
  - cbn. rewrite andb_false_r. now split.
  - rewrite escapeDoubleQuotes_cons. destruct (Ascii.eqb c DQUOTE) eqn:E.
    + cbn [append str no_top quote_state].
      rewrite Ascii.eqb_refl, Hsep. cbn. now split.
    + cbn [append str no_top quote_state]. rewrite E, andb_false_r. cbn.
      now split.
Qed.

Lemma quoted_sealed (sep : ascii) (s : string) :
  Ascii.eqb DQUOTE sep = false -> sealed sep (quoted s).
Proof.
  intros Hsep. destruct (escaped_sealed sep s Hsep) as [Hn Hq].
  unfold quoted, sealed. cbn [append str no_top quote_state].
  rewrite Ascii.eqb_refl, Hsep. cbn. now split.
Qed.

Lemma field_sealed (sep : ascii) (v : value) :
  sep = COMMA \/ sep = LF -> quote_safe v = true ->
  sealed sep (toJoinString (csvValue v)).
Proof.
  intros Hsep Hv. destruct v as [s|]; [|apply sealed_nil].
  cbn [csvValue quote_safe] in *.
  destruct (includes s "," || includes s (str LF)) eqn:E.
  - apply quoted_sealed. now destruct Hsep as [-> | ->].
  - cbn in Hv. apply negb_true_iff in Hv. apply orb_false_iff in E.
    destruct E as [Hc Hl]. apply plain_sealed; [|exact Hv].
    now destruct Hsep as [-> | ->].
Qed.

Lemma concat_sealed_LF (vs : list string) :
  Forall (sealed LF) vs -> sealed LF (String.concat "," vs).
Proof.
  induction 1 as [|v vs Hv _ IH]; [apply sealed_nil|].
  cbn [String.concat]. destruct vs as [|w vs]; [exact Hv|].
  apply sealed_app; [exact Hv|]. apply sealed_app; [|exact IH].
  split; reflexivity.
Qed.

Lemma commas_sealed_LF (n : nat) : sealed LF (commas n).
Proof.
  induction n as [|n IH]; [apply sealed_nil|].
  cbn [commas]. apply sealed_app; [split; reflexivity | exact IH].
Qed.

End CsvReading.

(** ** Lines and fields of the document *)

Section Document.

Lemma dataLines_unlines (n : nat) (files : list (list value)) :
  dataLines n files = unlines (map (dataLine n) files).
Proof.
  induction files as [|f files IH]; [reflexivity|].
  cbn [dataLines map unlines]. now rewrite IH.
Qed.

Lemma header_free (c : ascii) (names : string) :
  includes headerLine (str c) = false ->
  includes "metadataField_" (str c) = false ->
  includes "," (str c) = false ->
  includes names (str c) = false ->
  includes (headerText names) (str c) = false.
Proof.
  intros Hh Hm Hc Hn. unfold headerText, join.
  rewrite !includes_char_app, Hh, Hc. cbn [orb].
  apply concat_free; [exact Hc|]. apply Forall_map.
  eapply Forall_impl; [|exact (split_pieces_free c COMMA names Hn)].
  intros f Hf. cbv beta in *. now rewrite includes_char_app, Hm, Hf.
Qed.

Lemma header_fields (names : string) :
  includes names (str DQUOTE) = false ->
  csv_fields (headerText names)
  = (headerColumns
       ++ map (fun f => ("metadataField_" ++ f)%string) (split COMMA names))%list.
Proof.
  intros Hq. unfold csv_fields, headerText, join.
  change headerLine with (String.concat "," headerColumns).
  rewrite concat_app;
    [|discriminate
     |intros E; apply map_eq_nil in E; now apply split_nonempty in E].
  apply (top_split_concat COMMA).
  - discriminate.
  - apply Forall_app. split.
    + unfold headerColumns. repeat constructor.
    + apply Forall_map.
      pose proof (split_pieces_free DQUOTE COMMA names Hq) as H1.
      pose proof (split_pieces_sep_free COMMA names) as H2.
      induction H1 as [|f fs Hf _ IH]; [constructor|].
      inversion H2 as [|? ? Hc Hcs]; subst.
      constructor; [|now apply IH].
      apply plain_sealed; rewrite includes_char_app; [now rewrite Hc | now rewrite Hf].
Qed.

Lemma dataLine_fields (n : nat) (row : list value) :
  row <> [] -> Forall (fun v => quote_safe v = true) row ->
  csv_fields (dataLine n row)
  = (map toJoinString (map csvValue row) ++ repeat EmptyString n)%list.
Proof.
  intros Hne Hsafe. unfold csv_fields, dataLine, arrayToCSVLine, joinValues, join.
  rewrite concat_commas
    by (intros E; apply map_eq_nil in E; apply map_eq_nil in E; contradiction).
  apply (top_split_concat COMMA).
  - intros E. apply app_eq_nil in E. destruct E as [E _].
    apply map_eq_nil in E. apply map_eq_nil in E. contradiction.
  - apply Forall_app. split.
    + rewrite map_map. apply Forall_map.
      eapply Forall_impl; [|exact Hsafe].
      intros v Hv. apply field_sealed; [now left | exact Hv].
    + apply Forall_forall. intros x Hx. apply repeat_spec in Hx. subst x.
      apply sealed_nil.
Qed.

Lemma dataLine_sealed (n : nat) (row : list value) :
  Forall (fun v => quote_safe v = true) row -> sealed LF (dataLine n row).
Proof.
  intros Hsafe. unfold dataLine, arrayToCSVLine, joinValues, join.
  apply sealed_app; [|apply commas_sealed_LF].
  apply concat_sealed_LF. rewrite map_map. apply Forall_map.
  eapply Forall_impl; [|exact Hsafe].
  intros v Hv. apply field_sealed; [now right | exact Hv].
Qed.

(** The lines of the document are the header and one line per row, and
    every line has ten fields and one more per metadata field name. *)
Lemma document_lines (names : string) (files : list (list value)) :
  includes names (str DQUOTE) = false ->
  includes names (str LF) = false ->
  Forall (fun row => List.length row = 10%nat) files ->
  Forall (Forall (fun v => quote_safe v = true)) files ->
  csv_lines (csvDocument names files)
  = headerText names :: map (dataLine (List.length (split COMMA names))) files
  /\ Forall (fun line =>
               List.length (csv_fields line)
               = (10 + List.length (split COMMA names))%nat)
            (csv_lines (csvDocument names files)).
Proof.
  intros Hq Hl Hlen Hsafe.
  set (n := List.length (split COMMA names)).
  assert (Hlines : csv_lines (csvDocument names files)
                   = headerText names :: map (dataLine n) files).
  { rewrite csvDocument_eq, dataLines_unlines.
    apply (csv_lines_unlines (headerText names :: map (dataLine n) files)).
    constructor.
    - apply plain_sealed; apply header_free; try reflexivity; assumption.
    - apply Forall_map. eapply Forall_impl; [|exact Hsafe].
      intros row Hrow. now apply dataLine_sealed. }
  split; [exact Hlines|]. rewrite Hlines. constructor.
  - rewrite (header_fields names Hq), length_app, length_map. reflexivity.
  - apply Forall_map. apply Forall_forall. intros row Hrow.
    rewrite Forall_forall in Hlen, Hsafe.
    specialize (Hlen row Hrow). specialize (Hsafe row Hrow).
    rewrite dataLine_fields; [|intros E; rewrite E in Hlen; discriminate|exact Hsafe].
    rewrite length_app, !length_map, repeat_length, Hlen. reflexivity.
Qed.

End Document.

(** ** Sample evaluations *)

Example btoa_sample : JS.btoa_utf8 " - A" = "IC0gQQ==".
Proof. reflexivity. Qed.
Example btoa_sample3 : JS.btoa_utf8 "Man" = "TWFu".
Proof. reflexivity. Qed.
Example split_sample : JS.split "," "a,,b," = ["a"; EmptyString; "b"; EmptyString].
Proof. reflexivity. Qed.
Example splice_last : JS.splice (-1) 1 [1; 2; 3]%nat = [1; 2]%nat.
Proof. reflexivity. Qed.
Example escape_sample :
  Utils.escapeDoubleQuotes ("a" ++ JS.str JS.DQUOTE ++ "b")
  = "a" ++ JS.str JS.DQUOTE ++ JS.str JS.DQUOTE ++ "b".
Proof. reflexivity. Qed.

(** * Further properties *)

(** ** utils.js *)

Section UtilsFacts.





Lemma cut_app (n : nat) (s : string) :
  (fst (cut n s) ++ snd (cut n s))%string = s.
Proof.
  revert s. induction n as [|n IH]; intros s; [reflexivity|].
  destruct s as [|c s]; [reflexivity|]. cbn [cut]. specialize (IH s).
  destruct (cut n s) as [a b]. cbn [fst snd] in *. cbn [append]. now rewrite IH.
Qed.

Lemma cut_length (n : nat) (s : string) :
  String.length (fst (cut n s)) = Nat.min n (String.length s).
Proof.
  revert s. induction n as [|n IH]; intros s; [reflexivity|].
  destruct s as [|c s]; [reflexivity|]. cbn [cut]. specialize (IH s).
  destruct (cut n s) as [a b]. cbn [fst] in *. cbn [String.length Nat.min].
  now rewrite IH.
Qed.

Lemma utf8_width_bounds (c : ascii) : (1 <= utf8_width c <= 4)%nat.
Proof.
  unfold utf8_width.
  destruct (_ <? 192)%N; [lia|]. destruct (_ <? 224)%N; [lia|].
  destruct (_ <? 240)%N; lia.
Qed.

(** What [capitalizeFLetter] returns: the upper case of the first
    character, followed by the rest of the word. *)
Lemma capitalizeFLetter_shape (word capital : string) :
  capitalizeFLetter word = Some capital ->
  exists first rest,
    word = (first ++ rest)%string
    /\ (1 <= String.length first <= 4)%nat
    /\ capital = (toUpperCase first ++ rest)%string.
Proof.
  destruct word as [|c s]; [discriminate|]. unfold capitalizeFLetter.
  pose proof (cut_app (utf8_width c) (String c s)) as Happ.
  pose proof (cut_length (utf8_width c) (String c s)) as Hlen.
  pose proof (utf8_width_bounds c) as Hw.
  destruct (cut (utf8_width c) (String c s)) as [first rest]. cbn [fst snd] in *.
  intros H. injection H as <-. exists first, rest.
  split; [now symmetry|]. split; [|reflexivity].
  rewrite Hlen. cbn [String.length]. lia.
Qed.

(** No upper case holds a newline. *)
Lemma toUpperCase_LF_free (c : string) :
  includes c (str LF) = false -> includes (toUpperCase c) (str LF) = false.
Proof.
  intros H. unfold toUpperCase.
  destruct (find _ upper_case_table) as [entry|] eqn:E; [|exact H].
  apply find_some in E. destruct E as [Hin _].
  assert (Hall : forallb (fun e => negb (includes (bytes (snd e)) (str LF)))
                         upper_case_table = true) by (vm_compute; reflexivity).
  rewrite forallb_forall in Hall. specialize (Hall entry Hin).
  now apply negb_true_iff in Hall.
Qed.

Lemma capitalizeFLetter_LF_free (word capital : string) :
  capitalizeFLetter word = Some capital ->
  includes word (str LF) = false -> includes capital (str LF) = false.
Proof.
  intros H Hw. destruct (capitalizeFLetter_shape word capital H)
    as (first & rest & -> & _ & ->).
  rewrite includes_char_app in *. apply orb_false_iff in Hw. destruct Hw as [Hf Hr].
  now rewrite (toUpperCase_LF_free first Hf), Hr.
Qed.



Lemma escapeDoubleQuotes_app (a b : string) :
  escapeDoubleQuotes (a ++ b) = escapeDoubleQuotes a ++ escapeDoubleQuotes b.
Proof.
  induction a as [|c a IH]; [reflexivity|].
  cbn [append]. rewrite !escapeDoubleQuotes_cons, IH.
  now rewrite sapp_assoc.
Qed.

(** Reading a quoted field back: the text between the quotes, with doubled
    quotes undone, is the text that was escaped. *)
Lemma unquote_body_escaped (s : string) :
  unquote_body (escapeDoubleQuotes s ++ str DQUOTE) = s.
Proof.
  induction s as [|c s IH]; [reflexivity|].
  rewrite escapeDoubleQuotes_cons. destruct (Ascii.eqb c DQUOTE) eqn:E.
  - apply Ascii.eqb_eq in E. subst c.
    cbn [append str unquote_body]. rewrite !Ascii.eqb_refl. now rewrite IH.
  - cbn [append str unquote_body]. rewrite E. now rewrite IH.
Qed.

Lemma count_char_app (c : ascii) (a b : string) :
  count_char c (a ++ b) = (count_char c a + count_char c b)%nat.
Proof.
  induction a as [|d a IH]; [reflexivity|]. cbn [append count_char]. rewrite IH. lia.
Qed.

Lemma includes_count_char (c : ascii) (s : string) :
  includes s (str c) = negb (count_char c s =? 0)%nat.
Proof.
  induction s as [|d s IH]; [reflexivity|].
  rewrite includes_char_cons, IH. cbn [count_char].
  destruct (Ascii.eqb d c); reflexivity.
Qed.

Lemma escapeDoubleQuotes_count_quote (s : string) :
  count_char DQUOTE (escapeDoubleQuotes s) = (2 * count_char DQUOTE s)%nat.
Proof.
  induction s as [|c s IH]; [reflexivity|].
  rewrite escapeDoubleQuotes_cons, count_char_app, IH. cbn [count_char].
  destruct (Ascii.eqb c DQUOTE) eqn:E; cbn [str count_char].
  - rewrite Ascii.eqb_refl. lia.
  - rewrite E. lia.
Qed.

Lemma escapeDoubleQuotes_count_other (s : string) (c : ascii) :
  c <> DQUOTE -> count_char c (escapeDoubleQuotes s) = count_char c s.
Proof.
  intros Hc. induction s as [|d s IH]; [reflexivity|].
  rewrite escapeDoubleQuotes_cons, count_char_app, IH. cbn [count_char].
  destruct (Ascii.eqb d DQUOTE) eqn:E; cbn [str count_char].
  - apply Ascii.eqb_eq in E. subst d.
    assert (En : Ascii.eqb DQUOTE c = false) by (apply Ascii.eqb_neq; congruence).
    rewrite En. lia.
  - lia.
Qed.

(** [escapeDoubleQuotes] doubles the number of double quotes and changes no
    other character count; it leaves a text unchanged exactly when the text
    has no double quote; it distributes over concatenation; and no two
    texts are escaped to the same text. *)
Theorem escapeDoubleQuotes_faithful :
  (forall s, count_char DQUOTE (escapeDoubleQuotes s) = (2 * count_char DQUOTE s)%nat)
  /\ (forall s c, c <> DQUOTE ->
                  count_char c (escapeDoubleQuotes s) = count_char c s)
  /\ (forall s, escapeDoubleQuotes s = s <-> includes s (str DQUOTE) = false)
  /\ (forall a b, escapeDoubleQuotes (a ++ b)
                  = escapeDoubleQuotes a ++ escapeDoubleQuotes b)
  /\ (forall s t, escapeDoubleQuotes s = escapeDoubleQuotes t -> s = t).
Proof.
  split; [exact escapeDoubleQuotes_count_quote|].
  split; [exact escapeDoubleQuotes_count_other|]. split; [|split].
  - intros s. rewrite includes_count_char. split.
    + intros H. apply (f_equal (count_char DQUOTE)) in H.
      rewrite escapeDoubleQuotes_count_quote in H.
      apply negb_false_iff, Nat.eqb_eq. lia.
    + intros H. apply negb_false_iff, Nat.eqb_eq in H.
      induction s as [|c s IH]; [reflexivity|].
      cbn [count_char] in H. rewrite escapeDoubleQuotes_cons.
      destruct (Ascii.eqb c DQUOTE); [lia|].
      cbn [append str]. rewrite IH by lia. reflexivity.
  - apply escapeDoubleQuotes_app.
  - intros s t H.
    rewrite <- (unquote_body_escaped s), <- (unquote_body_escaped t). now rewrite H.
Qed.

Lemma escapeDoubleQuotes_faithful_witness :
  escapeDoubleQuotes "plain" = "plain"
  /\ count_char "a" (escapeDoubleQuotes "banana") = 3%nat.
Proof.
  split.
  - apply (proj1 (proj2 (proj2 escapeDoubleQuotes_faithful)) "plain"). reflexivity.
  - rewrite (proj1 (proj2 escapeDoubleQuotes_faithful) "banana" "a"%char).
    + reflexivity.
    + discriminate.
Defined.

End UtilsFacts.

(** ** Reading back what [arrayToCSVLine] and [makeCsv] write *)

Section ReadingBack.

Lemma csv_unquote_quoted (s : string) : csv_unquote (quoted s) = s.
Proof.
  unfold quoted. cbn [append str csv_unquote]. rewrite Ascii.eqb_refl.
  apply unquote_body_escaped.
Qed.

Lemma csv_unquote_plain (s : string) :
  includes s (str DQUOTE) = false -> csv_unquote s = s.
Proof.
  destruct s as [|c s]; [reflexivity|]. rewrite includes_char_cons.
  intros H. apply orb_false_iff in H. destruct H as [H _].
  cbn [csv_unquote]. now rewrite H.
Qed.

Lemma field_unquote (v : value) :
  quote_safe v = true -> csv_unquote (toJoinString (csvValue v)) = toJoinString v.
Proof.
  destruct v as [s|]; [|reflexivity]. cbn [quote_safe csvValue].
  destruct (includes s "," || includes s (str LF)); cbn [orb toJoinString].
  - intros _. apply csv_unquote_quoted.
  - intros H. apply negb_true_iff in H. now apply csv_unquote_plain.
Qed.

Lemma fields_unquote (row : list value) :
  Forall (fun v => quote_safe v = true) row ->
  map csv_unquote (map toJoinString (map csvValue row)) = map toJoinString row.
Proof.
  induction 1 as [|v row Hv _ IH]; [reflexivity|].
  cbn [map]. now rewrite IH, (field_unquote v Hv).
Qed.

(** A line written by [arrayToCSVLine] from a non-empty array reads back as
    the values of the array ([undefined] as the empty text), commas,
    newlines and double quotes included, provided a double quote occurs in a
    value only together with a comma or a newline.  The line of the empty
    array is empty and reads back as one empty field. *)
Theorem arrayToCSVLine_reads_back :
  (forall row,
      row <> [] -> Forall (fun v => quote_safe v = true) row ->
      map csv_unquote (csv_fields (arrayToCSVLine row)) = map toJoinString row)
  /\ arrayToCSVLine [] = EmptyString
  /\ csv_fields (arrayToCSVLine []) = [EmptyString].
Proof.
  split; [|split; reflexivity].
  intros row Hne Hsafe.
  pose proof (dataLine_fields 0 row Hne Hsafe) as H.
  unfold dataLine in H. cbn [commas repeat] in H.
  rewrite sapp_nil_r, app_nil_r in H. rewrite H.
  now apply fields_unquote.
Qed.

Lemma arrayToCSVLine_reads_back_witness :
  map csv_unquote
      (csv_fields (arrayToCSVLine [VString "a,b"; VUndefined;
                                   VString ("say " ++ str DQUOTE ++ "hi" ++ str DQUOTE
                                            ++ str LF)]))
  = ["a,b"; EmptyString; "say " ++ str DQUOTE ++ "hi" ++ str DQUOTE ++ str LF].
Proof.
  apply (proj1 arrayToCSVLine_reads_back).
  - discriminate.
  - repeat constructor.
Defined.

Lemma pushEmpty_repeat (n : nat) (item : list value) :
  Drive.pushEmpty n item = (item ++ repeat (VString EmptyString) n)%list.
Proof.
  revert item. induction n as [|n IH]; intros item; cbn [Drive.pushEmpty repeat].
  - now rewrite app_nil_r.
  - rewrite IH, <- app_assoc. reflexivity.
Qed.

Lemma map_repeat_empty (n : nat) :
  map toJoinString (map csvValue (repeat (VString EmptyString) n))
  = repeat EmptyString n.
Proof. induction n as [|n IH]; [reflexivity|]. cbn. now f_equal. Qed.

(** The two pages write the empty metadata columns differently, with the
    same result: pushing [fieldsCount] empty strings on a non-empty item
    before [arrayToCSVLine] ([drive.html]) gives the line that appending
    [fieldsCount] commas after [arrayToCSVLine] gives ([index.html]). *)
Theorem metadata_placeholders_agree (fieldsCount : nat) (item : list value) :
  item <> [] ->
  arrayToCSVLine (Drive.pushEmpty fieldsCount item)
  = appendCommas fieldsCount (arrayToCSVLine item).
Proof.
  intros Hne. rewrite pushEmpty_repeat, appendCommas_commas.
  unfold arrayToCSVLine, joinValues, join.
  rewrite !map_app, map_repeat_empty. symmetry. apply concat_commas.
  intros E. apply map_eq_nil in E. apply map_eq_nil in E. contradiction.
Qed.

Lemma metadata_placeholders_agree_witness :
  arrayToCSVLine (Drive.pushEmpty 2 [VString "t"; VString "u"])
  = appendCommas 2 (arrayToCSVLine [VString "t"; VString "u"]).
Proof.
  apply metadata_placeholders_agree. discriminate.
Defined.

(** The document of [index.html] reads back as the columns of the header
    followed, for each Record in order, by its values and one empty value
    per metadata field name; this holds when no metadata field name has a
    double quote or a newline, no Record is empty, and a double quote occurs
    in a value only together with a comma or a newline. *)
Theorem csvDocument_reads_back (names : string) (files : list (list value)) :
  includes names (str DQUOTE) = false ->
  includes names (str LF) = false ->
  Forall (fun row => row <> []) files ->
  Forall (Forall (fun v => quote_safe v = true)) files ->
  csv_read (csvDocument names files)
  = (headerColumns
       ++ map (fun f => ("metadataField_" ++ f)%string) (split COMMA names))%list
    :: map (fun row =>
              (map toJoinString row
                 ++ repeat EmptyString (List.length (split COMMA names)))%list)
           files.
Proof.
  intros Hq Hl Hne Hsafe. set (n := List.length (split COMMA names)).
  assert (Hlines : csv_lines (csvDocument names files)
                   = headerText names :: map (dataLine n) files).
  { rewrite csvDocument_eq, dataLines_unlines.
    apply (csv_lines_unlines (headerText names :: map (dataLine n) files)).
    constructor.
    - apply plain_sealed; apply header_free; try reflexivity; assumption.
    - apply Forall_map. eapply Forall_impl; [|exact Hsafe].
      intros row Hrow. now apply dataLine_sealed. }
  unfold csv_read. rewrite Hlines. cbn [map]. f_equal.
  - rewrite (header_fields names Hq), map_app. f_equal.
    rewrite map_map. apply map_ext. intros f. reflexivity.
  - rewrite map_map. apply map_ext_in. intros row Hrow.
    rewrite Forall_forall in Hne, Hsafe.
    rewrite (dataLine_fields n row (Hne row Hrow) (Hsafe row Hrow)).
    rewrite map_app, (fields_unquote row (Hsafe row Hrow)). f_equal.
    clear. induction n as [|n IH]; [reflexivity|]. cbn. now f_equal.
Qed.

Lemma csvDocument_reads_back_witness :
  csv_read (csvDocument "m" [[VString "a,b"; VUndefined]])
  = [ (headerColumns ++ ["metadataField_m"])%list; ["a,b"; EmptyString; EmptyString] ].
Proof.
  apply (csvDocument_reads_back "m" [[VString "a,b"; VUndefined]]).
  - reflexivity.
  - reflexivity.
  - repeat constructor. discriminate.
  - repeat constructor.
Defined.

End ReadingBack.

(** ** What one visit does *)

Section VisitEffect.
Local Open Scope list_scope.

Lemma grown_nil (st : State) : grown st [] [] = st.
Proof. unfold grown. destruct st; simpl. now rewrite !app_nil_r. Qed.

Lemma grown_grown (st : State) rows1 rows2 spawned1 spawned2 :
  grown (grown st rows1 spawned1) rows2 spawned2
  = grown st (rows1 ++ rows2) (spawned1 ++ spawned2).
Proof. unfold grown. simpl. now rewrite map_app, !app_assoc. Qed.

Lemma callback_effect (a : Args) (n : Node) (k : nat) (file : File) (st : State) :
  forEach_callback a n k file st
  = (if throws file then Throw else Normal)
      (grown st (rows_of a file) (calls_of a n k file)).
Proof.
  unfold rows_of, calls_of.
  destruct (throws file) eqn:Ht.
  - rewrite (callback_throws a n k file st Ht).
    unfold throws in Ht. destruct (isFolder file); [discriminate|].
    destruct (isMedia (mimeType file)); [|discriminate]. simpl in Ht.
    destruct (capitalizeFLetter _);
      [destruct (owners file); [|discriminate]|]; now rewrite grown_nil.
  - destruct (isFolder file) eqn:Hf.
    + unfold forEach_callback. unfold isFolder in Hf. rewrite Hf.
      unfold grown, getDriveFiles, runs_push, set_calls, child_call. simpl.
      now rewrite app_nil_r.
    + destruct (isMedia (mimeType file)) eqn:Hm.
      * destruct (callback_media a n k file st Hf Hm Ht) as (w & o & os & -> & -> & ->).
        unfold grown, files_push, record_of. simpl. now rewrite !app_nil_r.
      * rewrite (callback_other a n k file st Hf Hm). now rewrite grown_nil.
Qed.

Lemma forEach_effect (a : Args) (n : Node) (l : list File) :
  forall (k : nat) (st : State),
    forEach a n k l st
    = (if existsb throws l then Throw else Normal)
        (grown st (listing_rows a l) (listing_calls a n k l)).
Proof.
  induction l as [|file l IH]; intros k st.
  - cbn. now rewrite grown_nil.
  - cbn [forEach existsb listing_rows listing_calls].
    rewrite callback_effect. destruct (throws file) eqn:Ht.
    + cbn [orb]. unfold rows_of, calls_of.
      unfold throws in Ht. destruct (isFolder file); [discriminate|].
      destruct (isMedia (mimeType file)); [|discriminate]. simpl in Ht.
      destruct (capitalizeFLetter _);
        [destruct (owners file); [|discriminate]|]; reflexivity.
    + cbn [orb]. rewrite IH, grown_grown. reflexivity.
Qed.

(** A visit appends to [files], in the order of the listing, one row for
    each media entry, pushes one token on [runs] and starts one call for
    each folder entry, and changes nothing else; it stops at the first entry
    on which the callback throws (a media entry without owner, or whose mime
    type has nothing before its slash), keeping what the entries before it
    have added and skipping those after it.  A visit of an empty listing
    changes nothing. *)
Theorem visit_effect (a : Args) (n : Node) (k : nat) (l : list File) (st : State) :
  forEach a n k l st
  = (if existsb throws l then Throw else Normal)
      (grown st (listing_rows a l) (listing_calls a n k l))
  /\ forEach a n k [] st = Normal st.
Proof.
  split; [apply forEach_effect | reflexivity].
Qed.

(** The step of an answered listing, in full. *)
Lemma step_Answer (st : State) (i : nat) (c : Call) (others : list Call) :
  take i (calls st) = Some (c, others) ->
  step (Answer i) st
  = Some (if existsb throws (reply c) then answered st c others
          else match cont c with
               | ThenSubfolder =>
                   set_runs (removelast (runs (answered st c others)))
                            (answered st c others)
               | ThenMakeCsv metadataFieldNames =>
                   setInterval metadataFieldNames (answered st c others)
               end).
Proof.
  intros Ht. cbn [step]. rewrite Ht. unfold getDriveFiles_resume.
  rewrite forEach_effect. fold (answered st c others).
  destruct (existsb throws (reply c)); [reflexivity|].
  destruct (cont c); [|reflexivity].
  unfold then_subfolder. now rewrite Array_indexOf_undefined, splice_last_removelast.
Qed.

Lemma existsb_throws_never (l : list File) :
  listing_never_throws l = true -> existsb throws l = false.
Proof.
  induction l as [|f l IH]; [reflexivity|]. cbn [listing_never_throws forallb existsb].
  intros H. apply andb_true_iff in H. destruct H as [Hf Hl].
  rewrite never_throws_eq in Hf. apply andb_true_iff in Hf. destruct Hf as [Hf _].
  apply negb_true_iff in Hf. rewrite Hf. now apply IH.
Qed.

End VisitEffect.

(** ** The accumulator and the outputs *)

Section Accumulator.
Local Open Scope list_scope.

Lemma step_extends (e : Event) (st st' : State) :
  step e st = Some st' ->
  (exists rows, files st' = files st ++ rows)
  /\ (exists more, visited st' = visited st ++ more)
  /\ (exists more, alerts st' = alerts st ++ more)
  /\ (exists more, downloads st' = downloads st ++ more).
Proof.
  intros H. destruct e as [i|i| |j].
  - destruct (take i (calls st)) as [[c others]|] eqn:Ht;
      [|cbn [step] in H; rewrite Ht in H; discriminate].
    rewrite (step_Answer st i c others Ht) in H. injection H as <-.
    destruct (existsb throws (reply c)); [|destruct (cont c)]; cbn;
      (split; [eexists; reflexivity|]); (split; [eexists; reflexivity|]);
      split; exists []; now rewrite app_nil_r.
  - cbn [step] in H. destruct (take i (calls st)) as [[c others]|]; [|discriminate].
    injection H as <-. cbn. repeat split; exists []; now rewrite app_nil_r.
  - destruct (step_timer Tick st st' I H) as [names ->].
    apply interval_callback_extends.
  - destruct (step_timer (Tock j) st st' I H) as [names ->].
    apply interval_callback_extends.
Qed.

(** [files] is only ever appended to: along every sequence of events, from
    any state, the Records collected before are still there, unchanged and
    in the same order, followed by the new ones; the same holds of the
    notices raised and of the documents handed out. *)
Theorem files_append_only
        (es : list Event) (st st' : State) :
  run es st = Some st' ->
  (exists rows, files st' = files st ++ rows)
  /\ (exists more, alerts st' = alerts st ++ more)
  /\ (exists more, downloads st' = downloads st ++ more).
Proof.
  revert st. induction es as [|e es IH]; intros st H; cbn [run] in H.
  - injection H as <-. repeat split; exists []; now rewrite app_nil_r.
  - destruct (step e st) as [st1|] eqn:E; [|discriminate].
    destruct (step_extends e st st1 E) as ((r1 & Hr1) & _ & (a1 & Ha1) & (d1 & Hd1)).
    destruct (IH st1 H) as ((r2 & Hr2) & (a2 & Ha2) & (d2 & Hd2)).
    split; [exists (r1 ++ r2); now rewrite Hr2, Hr1, app_assoc|].
    split; [exists (a1 ++ a2); now rewrite Ha2, Ha1, app_assoc|].
    exists (d1 ++ d2). now rewrite Hd2, Hd1, app_assoc.
Qed.

Lemma files_append_only_witness :
  exists st st',
    run [Answer 0] (makeCsv scenario_form scenario_drive loaded) = Some st
    /\ run [Answer 0] st = Some st'
    /\ exists rows, files st' = files st ++ rows.
Proof.
  exists_run [Answer 0] (makeCsv scenario_form scenario_drive loaded).
  exists_run [Answer 0; Answer 0] (makeCsv scenario_form scenario_drive loaded).
  split; [vm_compute; reflexivity|]. split; [vm_compute; reflexivity|].
  refine (proj1 (files_append_only [Answer 0] _ _ _)).
  vm_compute; reflexivity.
Defined.

(** A run raises the notice or hands out a document at most once, never
    both, and only after the timer has been cleared.  The document is named
    [bulk_upload.csv] and is the document of the Records collected, of which
    there is at least one; the notice is raised only when there is none. *)
Theorem at_most_one_output
        (form : Index.Form) (drive : list File) (es : list Event) (st : State) :
  run es (makeCsv form drive loaded) = Some st ->
  (List.length (alerts st) + List.length (downloads st) <= 1)%nat
  /\ (inter st <> Cleared -> alerts st = [] /\ downloads st = [])
  /\ (forall msg, In msg (alerts st) ->
                  msg = "could not list files"%string /\ files st = [])
  /\ (forall text fileName,
         In (text, fileName) (downloads st) ->
         fileName = "bulk_upload.csv"%string
         /\ text = csvDocument (metadata_fields form) (files st)
         /\ files st <> []).
Proof.
  intros Hrun.
  destruct (reachable_invariant form drive st (ex_intro _ es Hrun))
    as (_ & _ & _ & _ & Hend & _).
  destruct (inter st).
  - destruct Hend as [-> ->]. cbn. repeat split; try lia; contradiction.
  - destruct Hend as [-> ->]. cbn. repeat split; try lia; contradiction.
  - destruct Hend as [_ [(Hf & -> & ->)|(Hf & -> & ->)]]; cbn.
    + split; [lia|]. split; [congruence|]. split.
      * intros msg [<-|[]]. now split.
      * contradiction.
    + split; [lia|]. split; [congruence|]. split; [contradiction|].
      intros text fileName [E|[]]. injection E as <- <-. now repeat split.
Qed.

Lemma at_most_one_output_witness :
  exists st,
    run [Answer 0; Answer 0; Tick] (makeCsv scenario_form scenario_drive loaded)
    = Some st
    /\ (List.length (alerts st) + List.length (downloads st) <= 1)%nat.
Proof.
  eexists. split; [vm_compute; reflexivity|].
  refine (proj1 (at_most_one_output scenario_form scenario_drive
                   [Answer 0; Answer 0; Tick] _ _)).
  vm_compute. reflexivity.
Defined.

End Accumulator.

(** ** A run after a failure *)

Section Stall.
Local Open Scope list_scope.

Lemma listing_calls_sub (a : Args) (n : Node) (l : list File) (k : nat) :
  Forall (fun c => isSubfolderCall c = true) (listing_calls a n k l).
Proof.
  revert k. induction l as [|f l IH]; intros k; cbn [listing_calls]; [constructor|].
  destruct (throws f); [constructor|]. apply Forall_app. split; [|apply IH].
  unfold calls_of. destruct (isFolder f); repeat constructor.
Qed.

(** The counts of suspended calls and of tokens after a listing has been
    processed, before the [.then] callback. *)
Lemma answered_counts (st : State) (i : nat) (c : Call) (others : list Call) :
  take i (calls st) = Some (c, others) ->
  let spawned := listing_calls (args c) (node c) 0 (reply c) in
  (subfolderCalls (answered st c others)
   + match cont c with ThenSubfolder => 1 | ThenMakeCsv _ => 0 end
   = subfolderCalls st + List.length spawned)%nat
  /\ (rootCalls (answered st c others)
      + match cont c with ThenSubfolder => 0 | ThenMakeCsv _ => 1 end
      = rootCalls st)%nat
  /\ List.length (runs (answered st c others))
     = (List.length (runs st) + List.length spawned)%nat
  /\ inter (answered st c others) = inter st.
Proof.
  intros Ht. destruct (take_split _ _ _ _ Ht) as (pre & post & Hc & ->).
  cbv zeta. unfold subfolderCalls, rootCalls, answered, grown. cbn.
  rewrite Hc, !count_split, !filter_app, !length_app, length_map.
  rewrite (count_all _ _ (listing_calls_sub (args c) (node c) (reply c) 0)).
  rewrite (count_none _ _ (listing_calls_sub (args c) (node c) (reply c) 0)).
  destruct (cont c) eqn:Hk.
  - assert (Hp : isSubfolderCall c = true) by (unfold isSubfolderCall; now rewrite Hk).
    rewrite Hp. cbn. repeat split; lia.
  - assert (Hp : isSubfolderCall c = false) by (unfold isSubfolderCall; now rewrite Hk).
    rewrite Hp. cbn. repeat split; lia.
Qed.

Lemma stalled_step (form : Index.Form) (e : Event) (st st' : State) :
  invariant form st -> stalled st -> step e st = Some st' -> stalled st'.
Proof.
  intros HI Hst H. pose proof HI as (Hsub & Hroot & Hint & _).
  destruct e as [i|i| |j];
    [| | |rewrite (Tock_disabled form j st HI) in H; discriminate].
  - destruct (take i (calls st)) as [[c others]|] eqn:Ht;
      [|cbn [step] in H; rewrite Ht in H; discriminate].
    rewrite (step_Answer st i c others Ht) in H. injection H as <-.
    destruct (answered_counts st i c others Ht) as (Hs & Hr & Hl & Hi).
    cbv zeta in *. unfold stalled in *.
    destruct (existsb throws (reply c)); [|destruct (cont c) eqn:Hk].
    + rewrite Hi. destruct Hst as [[H0 Hu]|[Hc Hlt]]; [left | right]; split;
        try assumption; destruct (cont c); lia.
    + unfold subfolderCalls, rootCalls in *. cbn [calls set_runs runs inter] in *.
      rewrite removelast_length, Hi, ?length_app, ?length_map.
      destruct Hst as [[H0 Hu]|[Hc Hlt]]; [left | right]; split;
        try assumption; lia.
    + unfold subfolderCalls, rootCalls, setInterval in *. cbn [calls runs inter] in *.
      destruct Hst as [[H0 Hu]|[Hc Hlt]]; [lia|].
      right. split; [discriminate | lia].
  - cbn [step] in H. destruct (take i (calls st)) as [[c others]|] eqn:Ht; [|discriminate].
    injection H as <-. destruct (take_split _ _ _ _ Ht) as (pre & post & Hc & ->).
    unfold stalled, subfolderCalls, rootCalls in *. cbn.
    rewrite Hc, !count_split in *.
    destruct Hst as [[H0 Hu]|[Hn Hlt]]; [left | right]; split; try assumption; lia.
  - cbn [step] in H. destruct (inter st) eqn:Hi; try discriminate. injection H as <-.
    unfold stalled in *. destruct Hst as [[_ Hu]|[_ Hlt]]; [congruence|].
    unfold interval_callback.
    destruct (List.length (runs st) =? 0)%nat eqn:E; [apply Nat.eqb_eq in E; lia|].
    right. split; [congruence | exact Hlt].
Qed.

Lemma stalled_run (form : Index.Form) (es : list Event) :
  forall st st',
    invariant form st -> stalled st -> run es st = Some st' ->
    invariant form st' /\ stalled st'.
Proof.
  induction es as [|e es IH]; intros st st' HI HS H; cbn [run] in H.
  - injection H as <-. now split.
  - destruct (step e st) as [st1|] eqn:E; [|discriminate].
    apply (IH st1 st'); [| |exact H].
    + exact (invariant_step form e st st1 HI E).
    + exact (stalled_step form e st st1 HI HS E).
Qed.

(** When the listing of any call of a run fails, or the visit of any call
    throws, the run never completes: whatever happens afterwards the timer
    is never cleared, no notice is raised and no document is handed out. *)
Theorem failed_visit_stalls
        (form : Index.Form) (drive : list File)
        (es1 : list Event) (st1 : State) (e : Event) (es2 : list Event) (st2 : State) :
  run es1 (makeCsv form drive loaded) = Some st1 ->
  match e with
  | Reject i => True
  | Answer i =>
      exists c others,
        take i (calls st1) = Some (c, others) /\ existsb throws (reply c) = true
  | Tick | Tock _ => False
  end ->
  run (e :: es2) st1 = Some st2 ->
  inter st2 <> Cleared /\ alerts st2 = [] /\ downloads st2 = [].
Proof.
  intros Hrun1 He Hrun2.
  pose proof (reachable_invariant form drive st1 (ex_intro _ es1 Hrun1)) as HI.
  cbn [run] in Hrun2.
  destruct (step e st1) as [st|] eqn:E; [|discriminate].
  assert (HS : stalled st).
  { destruct HI as (Hsub & Hroot & Hint & _ & Hend & _).
    destruct e as [i|i| |j]; [| |contradiction|contradiction].
    - destruct He as (c & others & Ht & Hthrow).
      rewrite (step_Answer st1 i c others Ht), Hthrow in E. injection E as <-.
      destruct (answered_counts st1 i c others Ht) as (Hs & Hr & Hl & Hi).
      cbv zeta in *. unfold stalled. rewrite Hi.
      destruct (cont c).
      + right. split; [|lia]. intros Hc. rewrite Hc in Hend.
        destruct Hend as [Hnil _]. rewrite Hnil in Ht. now destruct i.
      + destruct (inter st1) eqn:Hi1.
        * left. split; [lia | reflexivity].
        * assert (rootCalls st1 = 0%nat) by (apply Hint; discriminate). lia.
        * assert (rootCalls st1 = 0%nat) by (apply Hint; discriminate). lia.
    - cbn [step] in E.
      destruct (take i (calls st1)) as [[c others]|] eqn:Ht; [|discriminate].
      injection E as <-. destruct (take_split _ _ _ _ Ht) as (pre & post & Hc & ->).
      unfold stalled, subfolderCalls, rootCalls in *. cbn.
      rewrite Hc, !count_split in *.
      destruct (cont c) eqn:Hk.
      + assert (Hp : isSubfolderCall c = true)
          by (unfold isSubfolderCall; now rewrite Hk).
        rewrite Hp in *. cbn in *.
        right. split; [|lia]. intros Hcl. rewrite Hcl in Hend.
        destruct Hend as [Hnil _]. now destruct pre.
      + assert (Hp : isSubfolderCall c = false)
          by (unfold isSubfolderCall; now rewrite Hk).
        rewrite Hp in *. cbn in *.
        destruct (inter st1) eqn:Hi1.
        * left. split; [lia | reflexivity].
        * assert (Hz := Hint ltac:(discriminate)). lia.
        * assert (Hz := Hint ltac:(discriminate)). lia. }
  destruct (stalled_run form es2 st st2 (invariant_step form e st1 st HI E) HS Hrun2)
    as ((_ & _ & _ & _ & Hend & _) & Hstalled).
  assert (Hn : inter st2 <> Cleared).
  { destruct Hstalled as [[_ Hu]|[Hn _]]; [congruence | exact Hn]. }
  split; [exact Hn|]. destruct (inter st2); try exact Hend. contradiction.
Qed.

Lemma failed_visit_stalls_witness :
  exists st2,
    run [Answer 0; Answer 0; Tick] (makeCsv scenario_form ownerless_drive loaded)
    = Some st2
    /\ inter st2 <> Cleared /\ alerts st2 = [] /\ downloads st2 = [].
Proof.
  let r1 := eval vm_compute in
              (run [Answer 0] (makeCsv scenario_form ownerless_drive loaded)) in
  let r2 := eval vm_compute in
              (run [Answer 0; Answer 0; Tick]
                   (makeCsv scenario_form ownerless_drive loaded)) in
  match r1 with
  | Some ?s1 =>
      match r2 with
      | Some ?s2 =>
          exists s2; split; [vm_compute; reflexivity|];
          apply (failed_visit_stalls scenario_form ownerless_drive
                   [Answer 0] s1 (Answer 0) [Tick] s2);
          [ vm_compute; reflexivity
          | eexists; eexists; split; vm_compute; reflexivity
          | vm_compute; reflexivity ]
      end
  end.
Defined.

End Stall.

(** ** The arguments of the calls and the columns of the Records *)

Section Columns.
Local Open Scope list_scope.

Lemma visit_keeps_args (form : Index.Form) (c : Call) (n : Node) (l : list File) :
  call_args_ok form c ->
  forall k,
    Forall (row_ok form) (listing_rows (args c) l)
    /\ Forall (call_args_ok form) (listing_calls (args c) n k l).
Proof.
  intros (Hd & Hc & Hm & Hp & Hk). induction l as [|f l IH]; intros k.
  - split; constructor.
  - cbn [listing_rows listing_calls]. destruct (throws f); [split; constructor|].
    destruct (IH (S k)) as [IHr IHc]. split; apply Forall_app; split; try assumption.
    + unfold rows_of. destruct (isFolder f); [constructor|].
      destruct (isMedia (mimeType f)); [|constructor].
      destruct (capitalizeFLetter _) as [w|]; [|constructor].
      destruct (owners f) as [|o os]; constructor; [|constructor].
      exists (name f), ("By " ++ displayName o ++ " in " ++ folderName (args c) ++ ". "
                        ++ str LF
                        ++ match description f with Some d => d | None => EmptyString end)%string,
        (id f), w, (emailAddress o), (ownerId (args c)).
      split.
      * unfold record_of. rewrite Hd, Hc, Hm, Hp. reflexivity.
      * destruct (cont c); destruct Hk as [Ho Hn]; [right | left; exact Ho].
        now exists (folderName (args c)).
    + unfold calls_of. destruct (isFolder f); constructor; [|constructor].
      unfold call_args_ok, child_call. cbn. rewrite Hp. now repeat split.
Qed.

Lemma reachable_columns
        (form : Index.Form) (drive : list File) (es : list Event) (st : State) :
  run es (makeCsv form drive loaded) = Some st ->
  Forall (row_ok form) (files st) /\ Forall (call_args_ok form) (calls st).
Proof.
  apply (run_invariant
           (fun st => Forall (row_ok form) (files st)
                      /\ Forall (call_args_ok form) (calls st))).
  - intros e s s' [Hr Hc] H. destruct e as [i|i| |j].
    + destruct (take i (calls s)) as [[c others]|] eqn:Ht;
        [|cbn [step] in H; rewrite Ht in H; discriminate].
      rewrite (step_Answer s i c others Ht) in H. injection H as <-.
      destruct (take_split _ _ _ _ Ht) as (pre & post & Hs & ->).
      rewrite Hs in Hc. apply Forall_app in Hc. destruct Hc as [Hpre Hpost].
      inversion Hpost as [|? ? Hcc Hpost']; subst.
      destruct (visit_keeps_args form c (node c) (reply c) Hcc 0) as [Hrows Hcalls].
      assert (Hfiles : Forall (row_ok form) (files (answered s c (pre ++ post)))).
      { cbn. apply Forall_app. now split. }
      assert (Hcs : Forall (call_args_ok form) (calls (answered s c (pre ++ post)))).
      { cbn. apply Forall_app. split; [apply Forall_app; now split | exact Hcalls]. }
      destruct (existsb throws (reply c)); [|destruct (cont c)]; now split.
    + cbn [step] in H. destruct (take i (calls s)) as [[c others]|] eqn:Ht; [|discriminate].
      injection H as <-. destruct (take_split _ _ _ _ Ht) as (pre & post & Hs & ->).
      rewrite Hs in Hc. apply Forall_app in Hc. destruct Hc as [Hpre Hpost].
      inversion Hpost; subst. cbn. split; [exact Hr|]. apply Forall_app. now split.
    + destruct (step_timer Tick s s' I H) as [names ->].
      destruct (interval_callback_same names s) as (-> & _ & -> & _). now split.
    + destruct (step_timer (Tock j) s s' I H) as [names ->].
      destruct (interval_callback_same names s) as (-> & _ & -> & _). now split.
  - unfold makeCsv, getDriveFiles. cbn. split; [constructor|].
    constructor; [|constructor]. unfold call_args_ok. cbn. now repeat split.
Qed.

(** In every state of a run, whatever the depth of the folder a file lies
    in: every Record has ten columns, with empty tags, the download url of
    its reference id, the metadata profile id of the form, and one and the
    same category, namely the root category, [>site>channels>], the drive
    name and a space; its owner id column is the owner id of the form for a
    file of the drive root, and [ - ] followed by the folder name for a file
    of a subfolder.  Every suspended call has an empty folder path, and the
    token of a subfolder call is the base64 text of [ - ] followed by the
    folder name alone. *)
Theorem columns_of_every_record
        (form : Index.Form) (drive : list File) (es : list Event) (st : State) :
  run es (makeCsv form drive loaded) = Some st ->
  Forall (row_ok form) (files st) /\ Forall (call_args_ok form) (calls st).
Proof. apply reachable_columns. Qed.

Lemma columns_of_every_record_witness :
  exists st,
    run [Answer 0; Answer 0] (makeCsv scenario_form scenario_drive loaded)
    = Some st
    /\ Forall (row_ok scenario_form) (files st).
Proof.
  eexists. split; [vm_compute; reflexivity|].
  refine (proj1 (columns_of_every_record scenario_form scenario_drive
                   [Answer 0; Answer 0] _ _)).
  vm_compute. reflexivity.
Defined.

End Columns.

(** ** Completion of a run without failure *)

Section Completion.
Local Open Scope list_scope.

Lemma mediaIn_eq (f : File) :
  mediaIn f
  = if isFolder f then mediaUnder (listing f)
    else if isMedia (mimeType f) then 1%nat else 0%nat.
Proof.
  destruct f as [i nm m o d e l]. cbn [mediaIn listing mimeType].
  destruct (isFolder _); [|reflexivity].
  unfold mediaUnder. induction l as [|g l IH]; [reflexivity|].
  cbn [map list_sum]. now rewrite IH.
Qed.

Lemma listing_tally (a : Args) (n : Node) (l : list File) :
  listing_never_throws l = true ->
  forall k,
    (List.length (listing_rows a l)
     + list_sum (map (fun c => mediaUnder (reply c)) (listing_calls a n k l))
     = mediaUnder l)%nat
    /\ flat_map pending (listing_calls a n k l) = subfolders n k l
    /\ Forall (fun c => listing_never_throws (reply c) = true) (listing_calls a n k l).
Proof.
  induction l as [|f l IH]; intros Hl k.
  - repeat split. constructor.
  - cbn [listing_never_throws forallb] in Hl. apply andb_true_iff in Hl.
    destruct Hl as [Hf Hl]. destruct (IH Hl (S k)) as (IH1 & IH2 & IH3).
    rewrite never_throws_eq in Hf. apply andb_true_iff in Hf. destruct Hf as [Ht Hsub].
    apply negb_true_iff in Ht.
    cbn [listing_rows listing_calls subfolders]. rewrite Ht.
    unfold mediaUnder in *. cbn [map list_sum]. rewrite mediaIn_eq.
    rewrite length_app, map_app, list_sum_app, flat_map_app, IH2.
    unfold rows_of, calls_of. unfold throws in Ht.
    destruct (isFolder f) eqn:Hfold.
    + cbn in Hsub. cbn [map list_sum flat_map List.length]. rewrite app_nil_r.
      unfold pending, child_call. cbn [node reply]. rewrite folders_at_eq.
      split; [unfold mediaUnder, list_sum in *; cbn [fold_right]; lia|].
      split; [reflexivity|].
      apply Forall_app. split; [repeat constructor; exact Hsub | exact IH3].
    + cbn [map list_sum flat_map app].
      destruct (isMedia (mimeType f)).
      * cbn in Ht. apply orb_false_iff in Ht. destruct Ht as [Hc Ho].
        destruct (capitalizeFLetter _); [|discriminate].
        destruct (owners f); [discriminate|]. cbn [List.length].
        split; [unfold list_sum in *; cbn [fold_right]; lia|].
        split; [reflexivity | exact IH3].
      * cbn [List.length].
        split; [unfold list_sum in *; cbn [fold_right]; lia|].
        split; [reflexivity | exact IH3].
Qed.

Lemma tally_makeCsv (form : Index.Form) (drive : list File) :
  tally drive (makeCsv form drive loaded).
Proof.
  unfold tally, makeCsv, getDriveFiles, rootCalls, mediaPending. cbn -[mediaUnder].
  split; [reflexivity | lia].
Qed.

Lemma tally_step (form : Index.Form) (drive : list File) (e : Event) (st st' : State) :
  match e with Reject _ => False | _ => True end ->
  invariant form st -> invariant_ok drive st -> tally drive st ->
  step e st = Some st' -> tally drive st'.
Proof.
  intros He HI (_ & _ & Hok) (Hu & Hsum) H.
  pose proof HI as (_ & Hroot & Hint & _).
  destruct e as [i|i| |j];
    [|contradiction| |rewrite (Tock_disabled form j st HI) in H; discriminate].
  - destruct (take i (calls st)) as [[c others]|] eqn:Ht;
      [|cbn [step] in H; rewrite Ht in H; discriminate].
    rewrite (step_Answer st i c others Ht) in H. injection H as <-.
    destruct (answered_counts st i c others Ht) as (_ & Hr & _ & Hi).
    destruct (take_split _ _ _ _ Ht) as (pre & post & Hc & Ho).
    assert (Hc_ok : listing_never_throws (reply c) = true).
    { rewrite Hc in Hok. apply Forall_app in Hok. destruct Hok as [_ Hok].
      now inversion Hok. }
    rewrite (existsb_throws_never _ Hc_ok).
    destruct (listing_tally (args c) (node c) (reply c) Hc_ok 0) as (Hcount & _ & _).
    assert (Hsum' : (List.length (files (answered st c others))
                     + mediaPending (answered st c others) = mediaUnder drive)%nat).
    { unfold mediaPending in *. cbn -[mediaUnder list_sum].
      rewrite Hc in Hsum. subst others.
      rewrite !map_app, !list_sum_app, length_app in *. cbn [map] in Hsum.
      change (list_sum (mediaUnder (reply c)
                          :: map (fun c => mediaUnder (reply c)) post))
        with (mediaUnder (reply c)
              + list_sum (map (fun c => mediaUnder (reply c)) post))%nat in Hsum.
      lia. }
    unfold tally. destruct (cont c) eqn:Hk.
    + unfold rootCalls, mediaPending in *. cbn [calls set_runs files inter] in *.
      split; [|exact Hsum']. intros Hun. cbv zeta in Hr. rewrite Hi in Hun. specialize (Hu Hun). lia.
    + split; [discriminate | exact Hsum'].
  - cbn [step] in H. destruct (inter st) eqn:Hi; try discriminate. injection H as <-.
    unfold tally, mediaPending, rootCalls.
    destruct (interval_callback_same (timer st) st) as (-> & _ & -> & _).
    split; [|exact Hsum]. intros Hun. exfalso. revert Hun.
    unfold interval_callback, clearInterval.
    destruct (List.length (runs st) =? 0)%nat; [|congruence].
    rewrite Hi. cbn [files set_inter].
    destruct (List.length (files st) =? 0)%nat; discriminate.
Qed.

Lemma healthy_run (form : Index.Form) (drive : list File) (es : list Event) :
  no_failure es = true ->
  forall st st',
    invariant form st -> invariant_ok drive st -> tally drive st ->
    run es st = Some st' ->
    invariant form st' /\ invariant_ok drive st' /\ tally drive st'.
Proof.
  induction es as [|e es IH]; intros Hes st st' HI HO HT H; cbn [run] in H.
  - injection H as <-. split; [assumption | split; assumption].
  - cbn [no_failure forallb] in Hes. apply andb_true_iff in Hes. destruct Hes as [He Hes].
    destruct (step e st) as [st1|] eqn:E; [|discriminate].
    assert (He' : match e with Reject _ => False | _ => True end) by now destruct e.
    apply (IH Hes st1 st'); [| | |exact H].
    + exact (invariant_step form e st st1 HI E).
    + exact (invariant_ok_step form drive e st st1 He' HI HO E).
    + exact (tally_step form drive e st st1 He' HI HO HT E).
Qed.

Lemma drained_all_visited (drive : list File) (st : State) :
  invariant_ok drive st -> calls st = [] ->
  every_folder_visited_once drive st
  /\ List.length (visited st) = List.length (folders drive).
Proof.
  intros (_ & Hperm & _) Hnil. rewrite Hnil in Hperm. cbn [flat_map] in Hperm.
  rewrite app_nil_r in Hperm. split.
  - intros n Hn.
    rewrite <- (proj1 (Permutation_count_occ Node_eq_dec _ _) Hperm n).
    now apply (proj1 (NoDup_count_occ' Node_eq_dec (folders drive)) (folders_NoDup drive)).
  - symmetry. now apply Permutation_length.
Qed.

(** However the answers of a run without failure are ordered: the Records
    collected never outnumber the media entries of the drive, and once the
    timer has been cleared there is exactly one Record per media entry and
    every folder has been visited exactly once. *)
Theorem one_record_per_media_entry
        (form : Index.Form) (drive : list File) (es : list Event) (st : State) :
  listing_never_throws drive = true -> no_failure es = true ->
  run es (makeCsv form drive loaded) = Some st ->
  (List.length (files st) + mediaPending st = mediaUnder drive)%nat
  /\ (inter st = Cleared ->
      List.length (files st) = mediaUnder drive
      /\ every_folder_visited_once drive st
      /\ List.length (visited st) = List.length (folders drive)).
Proof.
  intros Hd Hes Hrun.
  destruct (healthy_run form drive es Hes _ _ (invariant_makeCsv form drive)
              (invariant_ok_makeCsv form drive Hd) (tally_makeCsv form drive) Hrun)
    as ((_ & _ & _ & _ & Hend & _) & HO & (_ & Hsum)).
  split; [exact Hsum|]. intros Hc. rewrite Hc in Hend. destruct Hend as [Hnil _].
  split; [|now apply drained_all_visited].
  unfold mediaPending in Hsum. rewrite Hnil in Hsum. cbn in Hsum. lia.
Qed.

Lemma one_record_per_media_entry_witness :
  exists st,
    run [Answer 0; Answer 0; Tick] (makeCsv scenario_form scenario_drive loaded)
    = Some st
    /\ (List.length (files st) + mediaPending st = mediaUnder scenario_drive)%nat.
Proof.
  eexists. split; [vm_compute; reflexivity|].
  refine (proj1 (one_record_per_media_entry scenario_form scenario_drive
                   [Answer 0; Answer 0; Tick] _ eq_refl eq_refl _)).
  vm_compute. reflexivity.
Defined.

End Completion.

Section Liveness.
Local Open Scope list_scope.

Lemma run_app (es1 es2 : list Event) (st : State) :
  run (es1 ++ es2) st
  = match run es1 st with
    | Some st1 => run es2 st1
    | None => None
    end.
Proof.
  revert st. induction es1 as [|e es1 IH]; intros st; [reflexivity|].
  cbn [app run]. destruct (step e st); [apply IH | reflexivity].
Qed.

(** Answering the first suspended call, as often as there are folders left
    to visit, empties the list of suspended calls. *)
Lemma drain (form : Index.Form) (drive : list File) (m : nat) :
  forall st,
    invariant form st -> invariant_ok drive st -> tally drive st ->
    inter st <> Cleared -> foldersPending st = m ->
    exists st',
      run (repeat (Answer 0) m) st = Some st'
      /\ calls st' = [] /\ inter st' <> Cleared
      /\ invariant form st' /\ invariant_ok drive st' /\ tally drive st'.
Proof.
  induction m as [|m IH]; intros st HI HO HT Hn Hm.
  - exists st. split; [reflexivity|].
    split; [|split; [assumption | split; [assumption | split; assumption]]].
    unfold foldersPending in Hm. destruct (calls st) as [|c cs]; [reflexivity|].
    cbn in Hm. discriminate.
  - unfold foldersPending in Hm. destruct (calls st) as [|c others] eqn:Hc;
      [discriminate|].
    assert (Ht : take 0 (calls st) = Some (c, others)) by now rewrite Hc.
    assert (Hok : listing_never_throws (reply c) = true).
    { destruct HO as (_ & _ & Hok). rewrite Hc in Hok. now inversion Hok. }
    pose proof (step_Answer st 0 c others Ht) as Hstep.
    rewrite (existsb_throws_never _ Hok) in Hstep.
    match type of Hstep with _ = Some ?s => set (st1 := s) in * end.
    assert (Hcalls : calls st1 = others ++ listing_calls (args c) (node c) 0 (reply c)).
    { subst st1. now destruct (cont c). }
    assert (Hinter : inter st1 <> Cleared).
    { subst st1. destruct (cont c); cbn; [exact Hn | discriminate]. }
    destruct (listing_tally (args c) (node c) (reply c) Hok 0) as (_ & Hpend & _).
    assert (Hm1 : foldersPending st1 = m).
    { unfold foldersPending. rewrite Hcalls, flat_map_app, Hpend, length_app.
      cbn [flat_map] in Hm. unfold pending at 1 in Hm.
      cbn [app List.length] in Hm. rewrite length_app in Hm. lia. }
    destruct (IH st1 (invariant_step form (Answer 0) st st1 HI Hstep)
                 (invariant_ok_step form drive (Answer 0) st st1 I HI HO Hstep)
                 (tally_step form drive (Answer 0) st st1 I HI HO HT Hstep)
                 Hinter Hm1) as (st' & Hrun & Hrest).
    exists st'. split; [|exact Hrest].
    cbn [repeat run]. now rewrite Hstep.
Qed.

(** A run in which no listing has failed and no visit has thrown can always
    be completed: from any of its states in which the timer is not yet
    cleared, answering the first pending listing as many times as there are
    folders left to visit, and one firing of the timer, clear the timer;
    then every folder has been visited exactly once, there is one Record
    per media entry of the drive, and exactly one notice or document has
    been given. *)
Theorem run_can_complete
        (form : Index.Form) (drive : list File) (es : list Event) (st : State) :
  listing_never_throws drive = true -> no_failure es = true ->
  run es (makeCsv form drive loaded) = Some st ->
  inter st <> Cleared ->
  exists st',
    run (repeat (Answer 0) (foldersPending st) ++ [Tick]) st = Some st'
    /\ inter st' = Cleared
    /\ every_folder_visited_once drive st'
    /\ List.length (files st') = mediaUnder drive
    /\ (List.length (alerts st') + List.length (downloads st') = 1)%nat.
Proof.
  intros Hd Hes Hrun Hn.
  destruct (healthy_run form drive es Hes _ _ (invariant_makeCsv form drive)
              (invariant_ok_makeCsv form drive Hd) (tally_makeCsv form drive) Hrun)
    as (HI & HO & HT).
  destruct (drain form drive (foldersPending st) st HI HO HT Hn eq_refl)
    as (st1 & Hrun1 & Hnil & Hn1 & HI1 & HO1 & HT1).
  assert (Hrunning : inter st1 = Running).
  { destruct HT1 as [Hu _]. destruct (inter st1) eqn:E; [|reflexivity|contradiction].
    specialize (Hu eq_refl). unfold rootCalls in Hu. rewrite Hnil in Hu. discriminate. }
  assert (Hstep : step Tick st1 = Some (interval_callback (timer st1) st1)).
  { cbn [step]. now rewrite Hrunning. }
  set (st' := interval_callback (timer st1) st1) in *.
  pose proof (invariant_step form Tick st1 st' HI1 Hstep) as HI'.
  pose proof (invariant_ok_step form drive Tick st1 st' I HI1 HO1 Hstep) as HO'.
  pose proof (tally_step form drive Tick st1 st' I HI1 HO1 HT1 Hstep) as HT'.
  assert (Hcleared : inter st' = Cleared).
  { subst st'. unfold interval_callback, clearInterval.
    destruct HO1 as (Hcount & _). unfold subfolderCalls in Hcount.
    rewrite Hnil in Hcount. cbn in Hcount. rewrite <- Hcount. cbn [Nat.eqb].
    rewrite Hrunning. cbn [files set_inter].
    now destruct (List.length (files st1) =? 0)%nat. }
  exists st'. split; [rewrite run_app, Hrun1; cbn [run]; now rewrite Hstep|].
  split; [exact Hcleared|].
  destruct HI' as (_ & _ & _ & _ & Hend & _). rewrite Hcleared in Hend.
  destruct Hend as [Hnil' Hout].
  split; [now apply drained_all_visited|]. split.
  - destruct HT' as [_ Hsum]. unfold mediaPending in Hsum. rewrite Hnil' in Hsum.
    cbn in Hsum. lia.
  - destruct Hout as [(_ & -> & ->)|(_ & -> & ->)]; reflexivity.
Qed.

Lemma run_can_complete_witness :
  exists st',
    run (repeat (Answer 0) 2 ++ [Tick])
        (makeCsv scenario_form scenario_drive loaded) = Some st'
    /\ inter st' = Cleared
    /\ List.length (files st') = 2%nat.
Proof.
  destruct (run_can_complete scenario_form scenario_drive []
              (makeCsv scenario_form scenario_drive loaded) eq_refl eq_refl eq_refl)
    as (st' & Hrun & Hc & _ & Hlen & _).
  - discriminate.
  - exists st'. split; [exact Hrun|]. split; [exact Hc | exact Hlen].
Defined.

End Liveness.

(** ** The content type and the metadata columns *)

Section ContentType.
Local Open Scope list_scope.

Lemma appended_row (a : Args) (n : Node) (k : nat) (file : File) (st : State)
      (row : list value) :
  forEach_callback a n k file st = Normal (files_push row st) ->
  throws file = false /\ rows_of a file = [row].
Proof.
  rewrite callback_effect. destruct (throws file); [discriminate|].
  intros H. split; [reflexivity|].
  assert (Hf : files (grown st (rows_of a file) (calls_of a n k file))
               = files (files_push row st)) by congruence.
  cbn in Hf. now apply app_inv_head in Hf.
Qed.

(** The content type column of a Record is the text of the mime type before
    its first slash, with its first letter in upper case: [Image], [Audio]
    or [Video] for the mime types that begin with [image/], [audio/] or
    [video/]. *)
Theorem contentType_of_record
        (a : Args) (n : Node) (k : nat) (file : File) (st : State) (row : list value) :
  forEach_callback a n k file st = Normal (files_push row st) ->
  exists word,
    capitalizeFLetter (hd EmptyString (split SLASH (mimeType file))) = Some word
    /\ nth 5 row VUndefined = VString word
    /\ (startsWith (mimeType file) "image/" = true -> word = "Image"%string)
    /\ (startsWith (mimeType file) "audio/" = true -> word = "Audio"%string)
    /\ (startsWith (mimeType file) "video/" = true -> word = "Video"%string).
Proof.
  intros H. destruct (appended_row a n k file st row H) as [_ Hrow].
  unfold rows_of in Hrow. destruct (isFolder file); [discriminate|].
  destruct (isMedia (mimeType file)); [|discriminate].
  destruct (capitalizeFLetter (hd EmptyString (split SLASH (mimeType file))))
    as [word|] eqn:Hw; [|discriminate].
  destruct (owners file) as [|o os]; [discriminate|].
  injection Hrow as <-. exists word. split; [reflexivity|]. split; [reflexivity|].
  unfold startsWith.
  repeat split; intros Hp; apply prefix_split in Hp; destruct Hp as [r Hr];
    rewrite Hr in Hw; cbn in Hw; destruct (split SLASH r); cbn in Hw;
    now injection Hw as <-.
Qed.

Lemma contentType_of_record_witness :
  exists row,
    forEach_callback root_args [] 0 clip_mp4 empty_state
    = Normal (files_push row empty_state)
    /\ nth 5 row VUndefined = VString "Video".
Proof.
  eexists. split; [reflexivity|].
  destruct (contentType_of_record root_args [] 0%nat clip_mp4 empty_state _ eq_refl)
    as (word & _ & Hn & _ & _ & Hv).
  rewrite Hn. f_equal. apply Hv. reflexivity.
Defined.

End ContentType.

Section MetadataColumns.

Lemma split_length (sep : ascii) (s : string) :
  List.length (split sep s) = S (count_char sep s).
Proof.
  induction s as [|c s IH]; [reflexivity|]. cbn [split count_char].
  destruct (Ascii.eqb c sep).
  - cbn [List.length]. now rewrite IH.
  - destruct (split sep s); cbn [List.length] in *; lia.
Qed.

Lemma join_split (sep : ascii) (s : string) :
  join (str sep) (split sep s) = s.
Proof.
  unfold join. induction s as [|c s IH]; [reflexivity|]. cbn [split].
  pose proof (split_nonempty sep s) as Hne.
  destruct (Ascii.eqb c sep) eqn:E.
  - apply Ascii.eqb_eq in E. subst c.
    destruct (split sep s) as [|f fs]; [contradiction|].
    change (String.concat (str sep) (EmptyString :: f :: fs))
      with (str sep ++ String.concat (str sep) (f :: fs)).
    now rewrite IH.
  - destruct (split sep s) as [|f fs]; [contradiction|].
    destruct fs as [|g fs].
    + cbn [String.concat] in *. now rewrite IH.
    + change (String.concat (str sep) (String c f :: g :: fs))
        with (String c (f ++ str sep ++ String.concat (str sep) (g :: fs))).
      change (String.concat (str sep) (f :: g :: fs))
        with (f ++ str sep ++ String.concat (str sep) (g :: fs)) in IH.
      now rewrite IH.
Qed.

(** The number of metadata columns is one more than the number of commas in
    the configured list, so it is never zero: with an empty list the header
    still ends with a column named [metadataField_] and every data line
    with one comma.  The names of the columns, joined again by commas, are
    the configured list. *)
Theorem metadata_columns (names : string) :
  List.length (split COMMA names) = S (count_char COMMA names)
  /\ join "," (split COMMA names) = names
  /\ (forall row,
         csvDocument EmptyString [row]
         = headerLine ++ ",metadataField_" ++ str LF
             ++ arrayToCSVLine row ++ "," ++ str LF).
Proof.
  split; [apply split_length|]. split; [apply (join_split COMMA)|].
  intros row. rewrite csvDocument_eq. cbn [dataLines].
  unfold headerText, dataLine, join.
  cbn [split map List.length commas String.concat].
  rewrite !sapp_assoc. reflexivity.
Qed.

End MetadataColumns.

(** ** drive.html *)

Section PastePage.
Local Open Scope list_scope.

Lemma nth_Forall {A : Type} (P : A -> Prop) (l : list A) (d : A) (i : nat) :
  Forall P l -> P d -> P (nth i l d).
Proof.
  intros Hl Hd. revert i. induction Hl as [|x l Hx _ IH]; intros [|i]; cbn; auto.
Qed.

Lemma escaped_free (c : ascii) (s : string) :
  c <> DQUOTE -> includes s (str c) = false ->
  includes (escapeDoubleQuotes s) (str c) = false.
Proof.
  intros Hc. rewrite !includes_count_char.
  now rewrite (escapeDoubleQuotes_count_other s c Hc).
Qed.

Lemma csvValue_LF_free (v : value) :
  includes (toJoinString v) (str LF) = false ->
  includes (toJoinString (csvValue v)) (str LF) = false.
Proof.
  destruct v as [s|]; [|intros _; reflexivity]. cbn [toJoinString csvValue].
  intros H. rewrite H, orb_false_r. destruct (includes s ","); [|exact H].
  cbn [toJoinString]. rewrite !includes_char_app.
  rewrite (escaped_free LF s ltac:(discriminate) H). reflexivity.
Qed.

Lemma arrayToCSVLine_LF_free (item : list value) :
  Forall (fun v => includes (toJoinString v) (str LF) = false) item ->
  includes (arrayToCSVLine item) (str LF) = false.
Proof.
  intros H. unfold arrayToCSVLine, joinValues, join.
  apply concat_free; [reflexivity|]. rewrite map_map. apply Forall_map.
  eapply Forall_impl; [|exact H]. intros v Hv. now apply csvValue_LF_free.
Qed.

Lemma split_app_free (sep : ascii) (a b : string) :
  includes a (str sep) = false ->
  split sep (a ++ b)
  = (a ++ hd EmptyString (split sep b))%string :: tl (split sep b).
Proof.
  induction a as [|c a IH]; intros H.
  - cbn [append]. pose proof (split_nonempty sep b).
    destruct (split sep b); [contradiction | reflexivity].
  - rewrite includes_char_cons in H. apply orb_false_iff in H. destruct H as [Hc Ha].
    cbn [append split]. rewrite Hc, (IH Ha). reflexivity.
Qed.

Lemma split_unlines (ls : list string) :
  Forall (fun l => includes l (str LF) = false) ls ->
  split LF (unlines ls) = ls ++ [EmptyString].
Proof.
  induction 1 as [|l ls Hl _ IH]; [reflexivity|].
  cbn [unlines]. rewrite (split_app_free LF l _ Hl).
  change (str LF ++ unlines ls)%string with (String LF (unlines ls)).
  cbn [split]. rewrite Ascii.eqb_refl, IH. cbn. now rewrite sapp_nil_r.
Qed.

Lemma raw_lines_unlines (ls : list string) :
  Forall (fun l => includes l (str LF) = false) ls -> raw_lines (unlines ls) = ls.
Proof.
  intros H. unfold raw_lines. rewrite (split_unlines ls H).
  rewrite last_last, String.eqb_refl. apply removelast_last.
Qed.

(** What the callback of [drive.html] does with one pasted line. *)
Lemma paste_callback (form : Drive.Form) (n : nat) (line csvData : string) :
  (paste_qualifies line = false ->
   Drive.forEach_callback form n line csvData = Some csvData)
  /\ (paste_throws line = true ->
      Drive.forEach_callback form n line csvData = None)
  /\ (paste_qualifies line = true -> paste_throws line = false ->
      exists item,
        Drive.forEach_callback form n line csvData
        = Some (csvData ++ arrayToCSVLine item ++ str LF)%string
        /\ List.length item = (10 + n)%nat
        /\ paste_line line (arrayToCSVLine item)
        /\ (includes line (str LF) = false ->
            includes (Drive.root_category form) (str LF) = false ->
            includes (Drive.drive_name form) (str LF) = false ->
            includes (Drive.owner_id form) (str LF) = false ->
            includes (Drive.metadata_profile_id form) (str LF) = false ->
            includes (arrayToCSVLine item) (str LF) = false)).
Proof.
  unfold paste_throws, paste_qualifies, paste_mime, Drive.forEach_callback.
  destruct (List.length (split COMMA line) =? 3)%nat; cbn [negb andb];
    [|split; [reflexivity | split; discriminate]].
  destruct (isMedia (nth 1 (split COMMA line) EmptyString));
    [|split; [reflexivity | split; discriminate]].
  destruct (capitalizeFLetter
              (hd EmptyString (split SLASH (nth 1 (split COMMA line) EmptyString))))
    as [w|] eqn:Hw; (split; [discriminate|]); (split; [try reflexivity; discriminate|]);
    [|discriminate].
  intros _ _. eexists. split; [reflexivity|]. split; [|split].
  - rewrite pushEmpty_repeat, length_app, repeat_length. reflexivity.
  - eexists. split; [reflexivity|]. rewrite pushEmpty_repeat. now repeat split.
  - intros Hline Hr Hd Ho Hp. apply arrayToCSVLine_LF_free.
    rewrite pushEmpty_repeat. apply Forall_app. split.
    + pose proof (split_pieces_free LF COMMA line Hline) as Hpieces.
      assert (Hnth : forall i, includes (nth i (split COMMA line) EmptyString) (str LF)
                               = false).
      { intros i. now apply (nth_Forall (fun f => includes f (str LF) = false)). }
      assert (Hword : includes w (str LF) = false).
      { pose proof (split_pieces_free LF SLASH _ (Hnth 1%nat)) as Hm.
        destruct (split SLASH (nth 1 (split COMMA line) EmptyString)) as [|h t];
          [discriminate|].
        inversion Hm as [|? ? Hh _]; subst. cbn [hd] in Hw.
        exact (capitalizeFLetter_LF_free _ _ Hw Hh). }
      repeat constructor; cbn [toJoinString]; rewrite ?includes_char_app, ?Hnth, ?Hr,
        ?Hd, ?Ho, ?Hp, ?Hword; reflexivity.
    + apply Forall_forall. intros x Hx. apply repeat_spec in Hx. now subst x.
Qed.

Lemma paste_forEach (form : Drive.Form) (n : nat) (lines : list string) :
  forall csvData,
    (existsb paste_throws lines = true -> Drive.forEach form n lines csvData = None)
    /\ (existsb paste_throws lines = false ->
        exists rows,
          Drive.forEach form n lines csvData = Some (csvData ++ unlines rows)%string
          /\ List.length rows = List.length (filter paste_qualifies lines)
          /\ Forall2 paste_line (filter paste_qualifies lines) rows
          /\ (Forall (fun line => includes line (str LF) = false) lines ->
              includes (Drive.root_category form) (str LF) = false ->
              includes (Drive.drive_name form) (str LF) = false ->
              includes (Drive.owner_id form) (str LF) = false ->
              includes (Drive.metadata_profile_id form) (str LF) = false ->
              Forall (fun row => includes row (str LF) = false) rows)).
Proof.
  induction lines as [|line lines IH]; intros csvData.
  - split; [discriminate|]. intros _. exists []. cbn. rewrite sapp_nil_r.
    repeat split; constructor.
  - destruct (paste_callback form n line csvData) as (Hskip & Hthrow & Hrow).
    cbn [existsb Drive.forEach filter].
    destruct (paste_throws line) eqn:Ht.
    + split; [intros _; now rewrite (Hthrow eq_refl) | discriminate].
    + cbn [orb]. destruct (paste_qualifies line) eqn:Hq.
      * destruct (Hrow eq_refl eq_refl) as (item & -> & _ & Hline & Hfree).
        destruct (IH (csvData ++ arrayToCSVLine item ++ str LF)%string) as [IHn IHs].
        split; [exact IHn|]. intros He.
        destruct (IHs He) as (rows & -> & Hlen & Hord & Hrows).
        exists (arrayToCSVLine item :: rows). split.
        { cbn [unlines]. now rewrite !sapp_assoc. }
        split; [cbn [List.length]; now rewrite Hlen|].
        split; [now constructor|].
        intros Hlines Hr Hd Ho Hp. inversion Hlines; subst.
        constructor; [now apply Hfree | now apply Hrows].
      * rewrite (Hskip eq_refl). destruct (IH csvData) as [IHn IHs].
        split; [exact IHn|]. intros He.
        destruct (IHs He) as (rows & -> & Hlen & Hord & Hrows).
        exists rows. split; [reflexivity|]. split; [exact Hlen|].
        split; [exact Hord|].
        intros Hlines. inversion Hlines; subst. now apply Hrows.
Qed.

(** The document of the paste page.  [makeCsv] throws, and hands out
    nothing, exactly when some pasted line has three fields and a media mime
    type with nothing before its first slash.  Otherwise the document is the
    header followed by one line for each pasted line that has exactly three
    comma-separated fields and a media mime type, in order; every other
    line is skipped, and an empty paste gives the header alone.  When no
    value of the form holds a newline, each of these lines is a single line
    of text. *)
Theorem paste_document (form : Drive.Form) :
  (Drive.makeCsv form = None
   <-> existsb paste_throws (split LF (Drive.csv form)) = true)
  /\ (forall text,
         Drive.makeCsv form = Some text ->
         exists rows,
           text = (headerText (Drive.metadata_fields form) ++ str LF ++ unlines rows)%string
           /\ List.length rows
              = List.length (filter paste_qualifies (split LF (Drive.csv form)))
           /\ Forall2 paste_line
                      (filter paste_qualifies (split LF (Drive.csv form))) rows
           /\ (includes (Drive.metadata_fields form) (str LF) = false ->
               includes (Drive.root_category form) (str LF) = false ->
               includes (Drive.drive_name form) (str LF) = false ->
               includes (Drive.owner_id form) (str LF) = false ->
               includes (Drive.metadata_profile_id form) (str LF) = false ->
               raw_lines text = headerText (Drive.metadata_fields form) :: rows)).
Proof.
  unfold Drive.makeCsv.
  set (n := List.length (split COMMA (Drive.metadata_fields form))).
  set (start := (headerLine ++ "," ++
                 join "," (map (fun f => "metadataField_" ++ f)
                               (split COMMA (Drive.metadata_fields form)))
                 ++ str LF)%string).
  destruct (paste_forEach form n (split LF (Drive.csv form)) start) as [Hn Hs].
  destruct (existsb paste_throws (split LF (Drive.csv form))) eqn:E.
  - split; [split; [reflexivity | intros _; now apply Hn]|].
    intros text H. rewrite (Hn eq_refl) in H. discriminate.
  - destruct (Hs eq_refl) as (rows & Hrun & Hlen & Hord & Hfree).
    split; [split; [intros H; rewrite Hrun in H; discriminate | discriminate]|].
    intros text H. rewrite Hrun in H.
    assert (Et : text = (start ++ unlines rows)%string) by congruence.
    clear H. subst text. exists rows. split.
    { subst start. unfold headerText. now rewrite !sapp_assoc. }
    split; [exact Hlen|]. split; [exact Hord|].
    intros Hm Hr Hd Ho Hp.
    assert (Htext : (start ++ unlines rows)%string
                    = unlines (headerText (Drive.metadata_fields form) :: rows)).
    { subst start. cbn [unlines]. unfold headerText. now rewrite !sapp_assoc. }
    rewrite Htext. apply raw_lines_unlines. constructor.
    + apply header_free; try reflexivity. exact Hm.
    + apply Hfree; try assumption. apply split_pieces_sep_free.
Qed.

Lemma paste_document_witness :
  exists text rows,
    Drive.makeCsv (Drive.mkForm "Drive" "Cat" "me" "77" "m"
                                ("a.jpg,image/jpeg,I1" ++ str LF ++ "junk"))
    = Some text
    /\ text = (headerText "m" ++ str LF ++ unlines rows)%string
    /\ List.length rows = 1%nat.
Proof.
  destruct (proj2 (paste_document
                     (Drive.mkForm "Drive" "Cat" "me" "77" "m"
                                   ("a.jpg,image/jpeg,I1" ++ str LF ++ "junk")))
                  _ eq_refl) as (rows & Htext & Hlen & _).
  eexists. exists rows. split; [reflexivity|]. split; [exact Htext | exact Hlen].
Defined.

End PastePage.

(** ** The tokens *)

Section Tokens.

Lemma land_63 (n : N) : N.land n 63 = (n mod 64)%N.
Proof. change 63%N with (N.ones 6). now rewrite N.land_ones. Qed.

Lemma small_value (v : N) : (v < 64)%N ->
  b64_value (b64_digit v) = Some v /\ Ascii.eqb (b64_digit v) "=" = false.
Proof.
  intros H. destruct v as [|p]; [split; reflexivity|].
  do 7 (destruct p as [p|p|]; try (split; reflexivity); try lia).
Qed.

Lemma digit_value (n : N) :
  b64_value (b64_digit n) = Some (n mod 64)%N /\ Ascii.eqb (b64_digit n) "=" = false.
Proof.
  assert (E : b64_digit n = b64_digit (n mod 64)).
  { unfold b64_digit. rewrite !land_63. now rewrite N.Div0.mod_mod. }
  rewrite E. apply small_value. apply N.mod_lt. discriminate.
Qed.

Lemma lor_shiftl_add (x k w : N) : (w < 2 ^ k)%N ->
  N.lor (N.shiftl x k) w = (x * 2 ^ k + w)%N.
Proof.
  intros Hw. rewrite <- N.shiftl_mul_pow2.
  assert (Hd : N.land (N.shiftl x k) w = 0%N).
  { apply N.bits_inj_0. intros i. rewrite N.land_spec.
    destruct (N.lt_ge_cases i k) as [Hi|Hi].
    - now rewrite N.shiftl_spec_low.
    - rewrite <- (N.mod_small w (2 ^ k) Hw), N.mod_pow2_bits_high by exact Hi.
      apply Bool.andb_false_r. }
  rewrite <- N.lxor_lor by exact Hd. symmetry. now apply N.add_nocarry_lxor.
Qed.

Ltac N_to_Z :=
  repeat match goal with
         | H : (_ < _)%N |- _ => apply N2Z.inj_lt in H
         end;
  repeat split; apply N2Z.inj;
  repeat first [ rewrite N2Z.inj_add | rewrite N2Z.inj_mul
               | rewrite N2Z.inj_mod | rewrite N2Z.inj_div ];
  repeat match goal with
         | |- context [Z.of_N ?v] =>
             is_var v; pose proof (N2Z.is_nonneg v); generalize dependent (Z.of_N v); intros
         end;
  cbn [Z.of_N] in *; Z.div_mod_to_equations; lia.

Lemma arith3 (x y z : N) : (x < 256 -> y < 256 -> z < 256 ->
  let n := x * 65536 + y * 256 + z in
  let n3 := ((n / 262144) mod 64) * 4096 + ((n / 4096) mod 64) * 64 + (n / 64) mod 64 in
  let m := n3 * 64 + n mod 64 in
  (m / 65536) mod 256 = x /\ (m / 256) mod 256 = y /\ m mod 256 = z)%N.
Proof. intros Hx Hy Hz. cbv zeta. N_to_Z. Qed.

Lemma arith2 (x y : N) : (x < 256 -> y < 256 ->
  let n := x * 65536 + y * 256 in
  let n3 := ((n / 262144) mod 64) * 4096 + ((n / 4096) mod 64) * 64 + (n / 64) mod 64 in
  (n3 / 1024) mod 256 = x /\ (n3 / 4) mod 256 = y)%N.
Proof. intros Hx Hy. cbv zeta. N_to_Z. Qed.

Lemma arith1 (x : N) : (x < 256 ->
  let n := x * 65536 in
  ((((n / 262144) mod 64) * 64 + (n / 4096) mod 64) / 16) mod 256 = x)%N.
Proof. intros Hx. cbv zeta. N_to_Z. Qed.

Lemma block3 (x y z : N) : (y < 256 -> z < 256 ->
  N.lor (N.lor (N.shiftl x 16) (N.shiftl y 8)) z = x * 65536 + y * 256 + z)%N.
Proof.
  intros Hy Hz. rewrite <- N.lor_assoc.
  rewrite (lor_shiftl_add y 8 z) by exact Hz.
  rewrite (lor_shiftl_add x 16) by (change (2 ^ 8)%N with 256%N; change (2 ^ 16)%N with 65536%N; lia).
  change (2 ^ 8)%N with 256%N. change (2 ^ 16)%N with 65536%N. lia.
Qed.

Lemma block2 (x y : N) : (y < 256 ->
  N.lor (N.shiftl x 16) (N.shiftl y 8) = x * 65536 + y * 256)%N.
Proof.
  intros Hy. rewrite (N.shiftl_mul_pow2 y 8).
  rewrite (lor_shiftl_add x 16) by (change (2 ^ 8)%N with 256%N; change (2 ^ 16)%N with 65536%N; lia).
  reflexivity.
Qed.

Lemma byte_of_ascii (e : N) (a : ascii) :
  (e mod 256 = N_of_ascii a)%N -> byte_of e = a.
Proof. intros H. unfold byte_of. rewrite H. apply ascii_N_embedding. Qed.

Lemma atob_btoa_bounded (n : nat) :
  forall s, (String.length s <= n)%nat -> atob_utf8 (btoa_utf8 s) = Some s.
Proof.
  induction n as [|n IH]; intros s Hs.
  - destruct s; [reflexivity | cbn in Hs; lia].
  - destruct s as [|a [|b [|c rest]]]; [reflexivity| | |].
    + pose proof (N_ascii_bounded a) as Ha.
      cbn [btoa_utf8]. cbv zeta. cbn [atob_utf8].
      rewrite !(proj1 (digit_value _)). cbn [Ascii.eqb Bool.eqb].
      f_equal. unfold str. f_equal. apply byte_of_ascii.
      rewrite !N.shiftr_div_pow2, N.shiftl_mul_pow2.
      exact (arith1 _ Ha).
    + pose proof (N_ascii_bounded a) as Ha. pose proof (N_ascii_bounded b) as Hb.
      cbn [btoa_utf8]. cbv zeta. cbn [atob_utf8].
      rewrite !(proj1 (digit_value _)), (proj2 (digit_value _)).
      cbn [Ascii.eqb Bool.eqb].
      rewrite !N.shiftr_div_pow2, (block2 _ _ Hb).
      destruct (arith2 _ _ Ha Hb) as [H1 H2].
      f_equal. f_equal; [now apply byte_of_ascii|].
      unfold str. f_equal. now apply byte_of_ascii.
    + pose proof (N_ascii_bounded a) as Ha. pose proof (N_ascii_bounded b) as Hb.
      pose proof (N_ascii_bounded c) as Hc.
      cbn [btoa_utf8]. cbv zeta. cbn [atob_utf8].
      rewrite !(proj1 (digit_value _)), !(proj2 (digit_value _)).
      rewrite (IH rest) by (cbn in Hs; lia).
      rewrite !N.shiftr_div_pow2, (block3 _ _ _ Hb Hc).
      destruct (arith3 _ _ _ Ha Hb Hc) as (H1 & H2 & H3).
      f_equal. f_equal; [now apply byte_of_ascii|].
      f_equal; [now apply byte_of_ascii|]. f_equal. now apply byte_of_ascii.
Qed.

Lemma atob_btoa (s : string) : atob_utf8 (btoa_utf8 s) = Some s.
Proof. apply (atob_btoa_bounded (String.length s)). lia. Qed.

Lemma btoa_injective (s t : string) : btoa_utf8 s = btoa_utf8 t -> s = t.
Proof.
  intros H. apply (f_equal atob_utf8) in H. rewrite !atob_btoa in H. congruence.
Qed.

(** The key computed for a folder path can be decoded back to the path, so
    two paths have the same key only if they are equal. *)
Theorem btoa_round_trip :
  (forall s, atob_utf8 (btoa_utf8 s) = Some s)
  /\ (forall s t, btoa_utf8 s = btoa_utf8 t -> s = t).
Proof. split; [exact atob_btoa | exact btoa_injective]. Qed.

Lemma btoa_round_trip_witness :
  atob_utf8 (btoa_utf8 " - Lectures") = Some " - Lectures"
  /\ (btoa_utf8 " - A" = btoa_utf8 " - A" /\ " - A" = " - A").
Proof.
  split; [apply (proj1 btoa_round_trip)|].
  split; [reflexivity | apply (proj2 btoa_round_trip " - A" " - A"); reflexivity].
Defined.

(** In every state of a run, two suspended subfolder calls have the same
    token exactly when their folders have the same name, wherever the two
    folders lie in the drive. *)
Theorem tokens_collide_iff_same_name
        (form : Index.Form) (drive : list File) (es : list Event) (st : State)
        (c1 c2 : Call) :
  run es (makeCsv form drive loaded) = Some st ->
  In c1 (calls st) -> In c2 (calls st) ->
  cont c1 = ThenSubfolder -> cont c2 = ThenSubfolder ->
  (token c1 = token c2 <-> folderName (args c1) = folderName (args c2)).
Proof.
  intros Hrun H1 H2 Hk1 Hk2.
  destruct (reachable_columns form drive es st Hrun) as [_ Hcalls].
  rewrite Forall_forall in Hcalls.
  destruct (Hcalls c1 H1) as (_ & _ & _ & _ & Ha1).
  destruct (Hcalls c2 H2) as (_ & _ & _ & _ & Ha2).
  rewrite Hk1 in Ha1. rewrite Hk2 in Ha2.
  destruct Ha1 as [_ ->]. destruct Ha2 as [_ ->]. split.
  - intros H. apply btoa_injective in H. now injection H.
  - intros ->. reflexivity.
Qed.

Lemma tokens_collide_iff_same_name_witness :
  exists st c1 c2,
    run [Answer 0] (makeCsv scenario_form same_name_drive loaded) = Some st
    /\ calls st = [c1; c2]
    /\ driveId (args c1) <> driveId (args c2)
    /\ token c1 = token c2.
Proof.
  exists_run [Answer 0] (makeCsv scenario_form same_name_drive loaded).
  do 2 eexists. split; [vm_compute; reflexivity|]. split; [reflexivity|].
  split; [discriminate|].
  eapply (tokens_collide_iff_same_name scenario_form same_name_drive [Answer 0]);
    [vm_compute; reflexivity | now left | right; now left
    | reflexivity | reflexivity | reflexivity].
Defined.

End Tokens.

(** ** The API key *)

Section ApiKeyFacts.
Import ApiKey.

(** The key typed in is kept for the session: when a page that had its key
    set is loaded again, the input shows the same key, but [api_key] is
    [null] again and the drive form hidden, so that requests would carry
    [key=null] until the key is set again; setting it again, without typing,
    gives the same key.  A page on which no key was ever set loads with an
    empty input. *)
Theorem api_key_survives_reload (p : Page) :
  let reloaded := DOMContentLoaded (parsed (sessionStorage (setApiKey p))) in
  api_key (setApiKey p) = Some (api_key_value p)
  /\ api_key_value reloaded = api_key_value p
  /\ api_key reloaded = None
  /\ drive_details_fields_hidden reloaded = true
  /\ (forall query,
         callApi_url reloaded query
         = ("https://www.googleapis.com/drive/v3/files?key=null&pageSize=1000&q="
            ++ query
            ++ "&fields=files(id, name, mimeType, owners, description, kind, fileExtension, fileExtension)"))
  /\ api_key (setApiKey reloaded) = Some (api_key_value p)
  /\ drive_details_fields_hidden (setApiKey reloaded) = false
  /\ api_key_value (DOMContentLoaded (parsed (fun _ => None))) = EmptyString.
Proof.
  cbv zeta. unfold DOMContentLoaded, parsed, setApiKey, getItem, setItem. cbn.
  destruct (api_key_value p) as [|c rest]; cbn; repeat split.
Qed.

End ApiKeyFacts.

(** ** The Records do not depend on the order of the answers *)

Section Confluence.
Local Open Scope list_scope.

Lemma rows_in_eq (a : Args) (f : File) :
  rows_in a f
  = if isFolder f then rows_under (child_args a f) (listing f) else rows_of a f.
Proof.
  destruct f as [i nm m o d e l]. cbn [rows_in listing].
  destruct (isFolder _); [|reflexivity].
  generalize (child_args a (mkFile i nm m o d e l)). intros a'.
  unfold rows_under. induction l as [|g l IH]; [reflexivity|].
  cbn [flat_map]. now rewrite IH.
Qed.

Lemma listing_rows_perm (a : Args) (n : Node) (l : list File) :
  listing_never_throws l = true ->
  forall k,
    Permutation (rows_under a l)
                (listing_rows a l
                   ++ flat_map (fun c => rows_under (args c) (reply c))
                               (listing_calls a n k l)).
Proof.
  induction l as [|f l IH]; intros Hl k; [constructor|].
  cbn [listing_never_throws forallb] in Hl. apply andb_true_iff in Hl.
  destruct Hl as [Hf Hl]. specialize (IH Hl (S k)).
  rewrite never_throws_eq in Hf. apply andb_true_iff in Hf. destruct Hf as [Ht _].
  apply negb_true_iff in Ht.
  unfold rows_under at 1. cbn [flat_map listing_rows listing_calls]. rewrite Ht.
  fold (rows_under a l). rewrite rows_in_eq, flat_map_app.
  unfold rows_of at 2, calls_of. destruct (isFolder f) eqn:Hfold.
  - cbn [flat_map app]. rewrite app_nil_r.
    change (args (child_call a n k f)) with (child_args a f).
    change (reply (child_call a n k f)) with (listing f).
    eapply Permutation_trans; [apply Permutation_app_head; exact IH|].
    rewrite !app_assoc. apply Permutation_app_tail, Permutation_app_comm.
  - cbn [flat_map app]. rewrite <- app_assoc.
    unfold rows_of. rewrite Hfold. now apply Permutation_app_head.
Qed.

Lemma collected_step (all : list (list value))
      (e : Event) (st st' : State) :
  match e with Reject _ => False | _ => True end ->
  Forall (fun c => listing_never_throws (reply c) = true) (calls st) ->
  Permutation all (files st ++ rowsPending st) ->
  step e st = Some st' ->
  Permutation all (files st' ++ rowsPending st').
Proof.
  intros He Hok Hperm H. destruct e as [i|i| |j]; [|contradiction| |].
  - destruct (take i (calls st)) as [[c others]|] eqn:Ht;
      [|cbn [step] in H; rewrite Ht in H; discriminate].
    rewrite (step_Answer st i c others Ht) in H. injection H as <-.
    destruct (take_split _ _ _ _ Ht) as (pre & post & Hc & ->).
    assert (Hc_ok : listing_never_throws (reply c) = true).
    { rewrite Hc in Hok. apply Forall_app in Hok. destruct Hok as [_ Hok].
      now inversion Hok. }
    rewrite (existsb_throws_never _ Hc_ok).
    pose proof (listing_rows_perm (args c) (node c) (reply c) Hc_ok 0) as Hrows.
    assert (Hgoal : Permutation all
                      (files (answered st c (pre ++ post))
                         ++ rowsPending (answered st c (pre ++ post)))).
    { eapply Permutation_trans; [exact Hperm|].
      unfold rowsPending. cbn. rewrite Hc, !flat_map_app. cbn [flat_map].
      rewrite <- !app_assoc. apply Permutation_app_head.
      set (R := listing_rows (args c) (reply c)) in *.
      set (S := flat_map (fun c0 => rows_under (args c0) (reply c0))
                         (listing_calls (args c) (node c) 0 (reply c))) in *.
      set (A := flat_map (fun c0 => rows_under (args c0) (reply c0)) pre).
      set (B := flat_map (fun c0 => rows_under (args c0) (reply c0)) post).
      apply Permutation_trans with (rows_under (args c) (reply c) ++ A ++ B).
      - rewrite !app_assoc. apply Permutation_app_tail, Permutation_app_comm.
      - eapply Permutation_trans; [apply Permutation_app_tail; exact Hrows|].
        rewrite <- !app_assoc. apply Permutation_app_head.
        rewrite (app_assoc A B S). apply Permutation_app_comm. }
    now destruct (cont c).
  - destruct (step_timer Tick st st' I H) as [names ->].
    unfold rowsPending. destruct (interval_callback_same names st) as (-> & _ & -> & _).
    exact Hperm.
  - destruct (step_timer (Tock j) st st' I H) as [names ->].
    unfold rowsPending. destruct (interval_callback_same names st) as (-> & _ & -> & _).
    exact Hperm.
Qed.

Lemma collected_run (form : Index.Form) (drive : list File)
      (all : list (list value)) (es : list Event) :
  no_failure es = true ->
  forall st st',
    invariant form st -> invariant_ok drive st ->
    Permutation all (files st ++ rowsPending st) ->
    run es st = Some st' ->
    invariant form st' /\ Permutation all (files st' ++ rowsPending st').
Proof.
  induction es as [|e es IH]; intros Hes st st' HI HO HP H; cbn [run] in H.
  - injection H as <-. now split.
  - cbn [no_failure forallb] in Hes. apply andb_true_iff in Hes. destruct Hes as [He Hes].
    destruct (step e st) as [st1|] eqn:E; [|discriminate].
    assert (He' : match e with Reject _ => False | _ => True end) by now destruct e.
    apply (IH Hes st1 st'); [| | |exact H].
    + exact (invariant_step form e st st1 HI E).
    + exact (invariant_ok_step form drive e st st1 He' HI HO E).
    + destruct HO as (_ & _ & Hok).
      exact (collected_step all e st st1 He' Hok HP E).
Qed.

(** When no listing fails and no visit throws, the Records collected do not
    depend on the order in which the listings arrive: once the timer has
    been cleared, [files] holds exactly the Records of a walk that finishes
    each folder before it goes on, in some order; so two completed runs on
    the same drive collect the same Records, each as often. *)
Theorem records_independent_of_schedule
        (form : Index.Form) (drive : list File) (es1 es2 : list Event)
        (st1 st2 : State) :
  listing_never_throws drive = true ->
  no_failure es1 = true -> no_failure es2 = true ->
  run es1 (makeCsv form drive loaded) = Some st1 ->
  run es2 (makeCsv form drive loaded) = Some st2 ->
  inter st1 = Cleared -> inter st2 = Cleared ->
  Permutation (files st1) (rows_under (root_args_of form) drive)
  /\ Permutation (files st1) (files st2).
Proof.
  intros Hd He1 He2 Hr1 Hr2 Hc1 Hc2.
  assert (Hall : forall es st,
             no_failure es = true -> run es (makeCsv form drive loaded) = Some st ->
             inter st = Cleared ->
             Permutation (rows_under (root_args_of form) drive) (files st)).
  { intros es st He Hr Hc.
    destruct (collected_run form drive (rows_under (root_args_of form) drive) es He
                _ st (invariant_makeCsv form drive)
                (invariant_ok_makeCsv form drive Hd)) as [HI HP]; [|exact Hr|].
    - unfold rowsPending, makeCsv, getDriveFiles. cbn. rewrite app_nil_r.
      apply Permutation_refl.
    - destruct HI as (_ & _ & _ & _ & Hend & _). rewrite Hc in Hend.
      destruct Hend as [Hnil _]. unfold rowsPending in HP. rewrite Hnil in HP.
      cbn in HP. now rewrite app_nil_r in HP. }
  split.
  - apply Permutation_sym. exact (Hall es1 st1 He1 Hr1 Hc1).
  - eapply Permutation_trans; [apply Permutation_sym; exact (Hall es1 st1 He1 Hr1 Hc1)|].
    exact (Hall es2 st2 He2 Hr2 Hc2).
Qed.

Lemma records_independent_of_schedule_witness :
  exists st1 st2,
    run [Answer 0; Answer 0; Answer 0; Tick]
        (makeCsv scenario_form two_folders_drive loaded) = Some st1
    /\ run [Answer 0; Answer 1; Answer 0; Tick]
           (makeCsv scenario_form two_folders_drive loaded) = Some st2
    /\ Permutation (files st1) (files st2).
Proof.
  do 2 eexists. split; [vm_compute; reflexivity|]. split; [vm_compute; reflexivity|].
  refine (proj2 (records_independent_of_schedule scenario_form two_folders_drive
                   [Answer 0; Answer 0; Answer 0; Tick]
                   [Answer 0; Answer 1; Answer 0; Tick] _ _
                   eq_refl eq_refl eq_refl _ _ _ _));
    vm_compute; reflexivity.
Defined.

End Confluence.

(** ** The callback of a resolved visit, and the timer *)

Section Callbacks.
Local Open Scope list_scope.

Lemma Array_indexOf_from_found (a : list string) (k : string) (i : Z) :
  In k a ->
  exists pre post,
    a = pre ++ k :: post /\ ~ In k pre
    /\ Array_indexOf_from a (VString k) i = (i + Z.of_nat (List.length pre))%Z.
Proof.
  revert i. induction a as [|y a IH]; intros i Hin; [contradiction|].
  cbn [Array_indexOf_from]. destruct (String.eqb y k) eqn:E.
  - apply String.eqb_eq in E. subst y. exists [], a. cbn. repeat split; [tauto | lia].
  - apply String.eqb_neq in E. destruct Hin as [Hy|Hin]; [contradiction|].
    destruct (IH (i + 1)%Z Hin) as (pre & post & -> & Hpre & ->).
    exists (y :: pre), post. cbn [app List.length In]. repeat split.
    + intros [H|H]; [contradiction | now apply Hpre].
    + lia.
Qed.

Lemma Array_indexOf_from_absent (a : list string) (k : string) (i : Z) :
  ~ In k a -> Array_indexOf_from a (VString k) i = (-1)%Z.
Proof.
  revert i. induction a as [|y a IH]; intros i Hin; [reflexivity|].
  cbn [Array_indexOf_from]. destruct (String.eqb y k) eqn:E.
  - apply String.eqb_eq in E. subst y. exfalso. apply Hin. now left.
  - apply IH. intros H. apply Hin. now right.
Qed.

Lemma splice_at {A : Type} (pre post : list A) (x : A) :
  splice (Z.of_nat (List.length pre)) 1 (pre ++ x :: post) = pre ++ post.
Proof.
  unfold splice. rewrite length_app. cbn [List.length].
  destruct (Z.of_nat (List.length pre) <? 0)%Z eqn:E; [apply Z.ltb_lt in E; lia|].
  replace (Z.min (Z.of_nat (List.length pre))
                 (Z.of_nat (List.length pre + S (List.length post))))
    with (Z.of_nat (List.length pre)) by lia.
  replace (Z.min (Z.max 1 0)
                 (Z.of_nat (List.length pre + S (List.length post))
                  - Z.of_nat (List.length pre))) with 1%Z by lia.
  replace (Z.to_nat (Z.of_nat (List.length pre) + 1)) with (S (List.length pre)) by lia.
  rewrite Nat2Z.id.
  rewrite firstn_app, firstn_all, Nat.sub_diag. cbn [firstn]. rewrite app_nil_r.
  f_equal. rewrite skipn_app.
  replace (S (List.length pre) - List.length pre)%nat with 1%nat by lia.
  rewrite skipn_all2 by lia. reflexivity.
Qed.

(** What the [.then] callback of a subfolder does for every value it may be
    given: a text that is in [runs] is removed at its first occurrence, and
    nothing else is touched; for [undefined], or a text that is not in
    [runs], [indexOf] answers [-1] and it is the last element of [runs] that
    is removed; on an empty [runs] nothing happens. *)
Theorem then_subfolder_removes (res : value) (st : State) :
  (forall k pre post,
      res = VString k -> runs st = pre ++ k :: post -> ~ In k pre ->
      runs (then_subfolder res st) = pre ++ post)
  /\ ((res = VUndefined \/ exists k, res = VString k /\ ~ In k (runs st)) ->
      runs (then_subfolder res st) = removelast (runs st))
  /\ (runs st = [] -> runs (then_subfolder res st) = [])
  /\ files (then_subfolder res st) = files st
  /\ calls (then_subfolder res st) = calls st.
Proof.
  split; [|split; [|split; [|split; reflexivity]]].
  - intros k pre post -> Hr Hpre. unfold then_subfolder. cbn [runs set_runs].
    assert (Hin : In k (runs st)) by (rewrite Hr; apply in_or_app; right; now left).
    destruct (Array_indexOf_from_found (runs st) k 0 Hin)
      as (pre' & post' & Hr' & Hpre' & Hidx).
    assert (Hsame : pre' = pre /\ post' = post).
    { rewrite Hr in Hr'. clear - Hr' Hpre Hpre'.
      revert pre' Hr' Hpre'. induction pre as [|x pre IH]; intros pre' Hr' Hpre'.
      - destruct pre' as [|y pre']; cbn in Hr'.
        + injection Hr' as ->. now split.
        + injection Hr' as <- _. exfalso. apply Hpre'. now left.
      - destruct pre' as [|y pre']; cbn in Hr'.
        + injection Hr' as -> _. exfalso. apply Hpre. now left.
        + injection Hr' as <- Hr'.
          destruct (IH (fun H => Hpre (or_intror H)) pre' Hr'
                       (fun H => Hpre' (or_intror H))) as [-> ->].
          now split. }
    destruct Hsame as [-> ->].
    unfold Array_indexOf. rewrite Hidx, Hr. cbn [Z.add]. apply splice_at.
  - intros Hres. unfold then_subfolder. cbn [runs set_runs].
    assert (Hidx : Array_indexOf (runs st) res = (-1)%Z).
    { destruct Hres as [->|(k & -> & Hk)];
        [apply Array_indexOf_undefined | now apply Array_indexOf_from_absent]. }
    rewrite Hidx. apply splice_last_removelast.
  - intros Hr. unfold then_subfolder. cbn [runs set_runs]. now rewrite Hr.
Qed.

Lemma then_subfolder_removes_witness :
  runs (then_subfolder (VString "b") (mkState [] ["a"; "b"; "c"; "b"]%string
                                              Running [] [] [] [] EmptyString []))
  = ["a"; "c"; "b"]%string.
Proof.
  apply (proj1 (then_subfolder_removes
                  (VString "b") (mkState [] ["a"; "b"; "c"; "b"]%string
                                         Running [] [] [] [] EmptyString []))
               "b"%string ["a"%string] ["c"; "b"]%string eq_refl eq_refl).
  intros [H|[]]. discriminate.
Defined.

(** The timer: a firing while tokens are pending changes nothing, and once
    the timer has been cleared the run is over, no event is possible any
    more. *)
Theorem timer_polls_then_stops
        (form : Index.Form) (drive : list File) (es : list Event) (st : State) :
  run es (makeCsv form drive loaded) = Some st ->
  (inter st = Running -> runs st <> [] -> step Tick st = Some st)
  /\ (inter st = Unset -> step Tick st = None)
  /\ (inter st = Cleared -> forall e, step e st = None).
Proof.
  intros Hrun. split; [|split].
  - intros Hi Hr. cbn [step]. rewrite Hi. unfold interval_callback.
    destruct (runs st); [contradiction | reflexivity].
  - intros Hi. cbn [step]. now rewrite Hi.
  - intros Hi e.
    destruct (reachable_invariant form drive st (ex_intro _ es Hrun))
      as (_ & _ & _ & _ & Hend & Horph & _).
    rewrite Hi in Hend. destruct Hend as [Hnil _].
    destruct e as [i|i| |j]; cbn [step]; rewrite ?Hnil, ?Hi, ?Horph;
      try reflexivity; [unfold take; now destruct i ..|now destruct j].
Qed.

Lemma timer_polls_then_stops_witness :
  exists st,
    run [Answer 0] (makeCsv scenario_form scenario_drive loaded) = Some st
    /\ step Tick st = Some st.
Proof.
  exists_run [Answer 0] (makeCsv scenario_form scenario_drive loaded).
  split; [vm_compute; reflexivity|].
  eapply (timer_polls_then_stops scenario_form scenario_drive [Answer 0]);
    [vm_compute; reflexivity | reflexivity | discriminate].
Defined.

End Callbacks.

(** ** The order of the visits *)

Section VisitOrder.
Local Open Scope list_scope.

Lemma listing_calls_nodes (a : Args) (n : Node) (l : list File) :
  forall k c, In c (listing_calls a n k l) -> exists j, node c = n ++ [j].
Proof.
  induction l as [|f l IH]; intros k c Hin; cbn [listing_calls] in Hin; [contradiction|].
  destruct (throws f); [contradiction|]. apply in_app_or in Hin.
  destruct Hin as [Hin|Hin]; [|now apply (IH (S k))].
  unfold calls_of in Hin. destruct (isFolder f); [|contradiction].
  destruct Hin as [<-|[]]. now exists k.
Qed.

Lemma parents_first_step (e : Event) (st st' : State) :
  parents_first st -> step e st = Some st' -> parents_first st'.
Proof.
  intros [Hv Hc] H. destruct e as [i|i| |j].
  - destruct (take i (calls st)) as [[c others]|] eqn:Ht;
      [|cbn [step] in H; rewrite Ht in H; discriminate].
    rewrite (step_Answer st i c others Ht) in H. injection H as <-.
    destruct (take_split _ _ _ _ Ht) as (pre & post & Hs & ->).
    assert (Hin_c : In c (calls st)) by (rewrite Hs; apply in_or_app; right; now left).
    assert (Hbase : parents_first (answered st c (pre ++ post))).
    { split; cbn.
      - intros before n k after E.
        induction after as [|x after' _] using rev_ind.
        + apply app_inj_tail in E. destruct E as [<- E].
          now apply (Hc c n k).
        + rewrite app_comm_cons, app_assoc in E.
          apply app_inj_tail in E. destruct E as [E _].
          now apply (Hv before n k after').
      - intros c' n k Hin E. apply in_or_app.
        apply in_app_or in Hin. destruct Hin as [Hin|Hin].
        + left. apply (Hc c' n k); [|exact E]. rewrite Hs.
          apply in_app_or in Hin. apply in_or_app.
          destruct Hin as [Hin|Hin]; [now left | right; now right].
        + right. destruct (listing_calls_nodes _ _ _ _ _ Hin) as [j Hj].
          rewrite Hj in E. apply app_inj_tail in E. destruct E as [<- _]. now left. }
    destruct (existsb throws (reply c)); [|destruct (cont c)]; exact Hbase.
  - cbn [step] in H. destruct (take i (calls st)) as [[c others]|] eqn:Ht; [|discriminate].
    injection H as <-. destruct (take_split _ _ _ _ Ht) as (pre & post & Hs & ->).
    split; cbn; [exact Hv|]. intros c' n k Hin E. apply (Hc c' n k); [|exact E].
    rewrite Hs. apply in_app_or in Hin. apply in_or_app.
    destruct Hin as [Hin|Hin]; [now left | right; now right].
  - destruct (step_timer Tick st st' I H) as [names ->].
    unfold parents_first. destruct (interval_callback_same names st) as (_ & _ & -> & ->).
    now split.
  - destruct (step_timer (Tock j) st st' I H) as [names ->].
    unfold parents_first. destruct (interval_callback_same names st) as (_ & _ & -> & ->).
    now split.
Qed.

(** A folder is listed only after its parent: in the order of the visits,
    every folder other than the drive root comes after the folder that
    holds it. *)
Theorem parent_visited_before_child
        (form : Index.Form) (drive : list File) (es : list Event) (st : State)
        (before after : list Node) (n : Node) (k : nat) :
  run es (makeCsv form drive loaded) = Some st ->
  visited st = before ++ (n ++ [k]) :: after ->
  In n before.
Proof.
  intros Hrun. 
  assert (H : parents_first st).
  { apply (run_invariant parents_first (parents_first_step) es
                           (makeCsv form drive loaded) st); [|exact Hrun].
    split; cbn.
    - intros b n' k' a E. destruct b; discriminate.
    - intros c n' k' [<-|[]] E. cbn in E. destruct n'; discriminate. }
  destruct H as [Hv _]. apply Hv.
Qed.

Lemma parent_visited_before_child_witness :
  exists st,
    run [Answer 0; Answer 0] (makeCsv scenario_form scenario_drive loaded)
    = Some st
    /\ visited st = [[]; [0%nat]]
    /\ In [] [([] : Node)].
Proof.
  exists_run [Answer 0; Answer 0] (makeCsv scenario_form scenario_drive loaded).
  split; [vm_compute; reflexivity|]. split; [reflexivity|].
  eapply (parent_visited_before_child scenario_form scenario_drive
            [Answer 0; Answer 0] _ [[]] [] [] 0%nat);
    [vm_compute; reflexivity | reflexivity].
Defined.

End VisitOrder.

(** * A listing as a whole, and the page over several runs *)

(** ** The Records of a listing *)

Section Listing.
Local Open Scope list_scope.

Lemma rows_of_record (a : Args) (file : File) :
  throws file = false ->
  if qualifies file
  then exists row, rows_of a file = [row] /\ record_for file row
  else rows_of a file = [].
Proof.
  unfold throws, qualifies, rows_of. intros Ht.
  destruct (isFolder file); cbn [negb andb] in *; [reflexivity|].
  destruct (isMedia (mimeType file)); cbn [andb] in *; [|reflexivity].
  destruct (capitalizeFLetter _) as [w|]; [|discriminate].
  destruct (owners file) as [|o os]; [discriminate|].
  eexists. split; [reflexivity|]. unfold record_for, record_of. now repeat split.
Qed.

Lemma listing_rows_records (a : Args) (l : list File) :
  existsb throws l = false ->
  Forall2 record_for (filter qualifies l) (listing_rows a l).
Proof.
  induction l as [|file l IH]; intros H; [constructor|].
  cbn [existsb] in H. apply orb_false_iff in H. destruct H as [Ht Hl].
  cbn [filter listing_rows]. rewrite Ht.
  pose proof (rows_of_record a file Ht) as Hrow.
  destruct (qualifies file).
  - destruct Hrow as (row & -> & Hrec). cbn [app]. constructor; [exact Hrec | now apply IH].
  - rewrite Hrow. now apply IH.
Qed.

Lemma beginsWithMedia_not_folder (file : File) :
  beginsWithMedia (mimeType file) = true -> isFolder file = false.
Proof.
  unfold isFolder. intros H. destruct (mimeType file =? folderMime)%string eqn:E;
    [|reflexivity].
  apply String.eqb_eq in E. rewrite E in H. discriminate H.
Qed.

(** C6, as stated, fails.  An entry of mime type [ximage/png] does not begin
    with any of the three prefixes, yet it contains [image/] and a Record is
    appended for it.  An entry of mime type [image/jpeg] without owner, and
    an entry with an owner whose mime type is [/image/png], make the
    callback throw: no Record is appended.  And in a listing that holds an
    image without owner before a video with an owner, the visit stops at the
    image: no Record is appended for the video either. *)
Lemma records_and_mime_prefixes_disagree :
  (let file := mkFile "I9" "x.png" "ximage/png" [bob] None None [] in
   beginsWithMedia (mimeType file) = false
   /\ exists row,
       forEach_callback root_args [] 0 file empty_state
       = Normal (files_push row empty_state))
  /\ (beginsWithMedia (mimeType ownerless_jpg) = true
      /\ forEach_callback root_args [] 0 ownerless_jpg empty_state = Throw empty_state)
  /\ (let file := mkFile "I6" "y.png" "/image/png" [bob] None None [] in
      isMedia (mimeType file) = true
      /\ forEach_callback root_args [] 0 file empty_state = Throw empty_state)
  /\ (beginsWithMedia (mimeType clip_mp4) = true
      /\ owners clip_mp4 <> []
      /\ forEach root_args [] 0 ownerless_first empty_state = Throw empty_state).
Proof.
  cbv zeta. split; [|split; [|split]].
  - split; [reflexivity|]. eexists. vm_compute. reflexivity.
  - split; [reflexivity | vm_compute; reflexivity].
  - split; [reflexivity | vm_compute; reflexivity].
  - split; [reflexivity|]. split; [discriminate | vm_compute; reflexivity].
Qed.

(** C6, amended: in a listing none of whose entries makes the callback
    throw, the visit runs to its end and appends, in the order of the
    listing, exactly one Record for each entry that is not a folder and
    whose mime type contains [image/], [audio/] or [video/] (anywhere in
    it), and none for any other entry.  Every entry whose mime type begins
    with one of the three is such an entry; an entry whose mime type
    contains none of them, such as [application/pdf], is not. *)
Theorem record_iff_media (a : Args) (n : Node) (k : nat) (l : list File) (st : State) :
  existsb throws l = false ->
  (exists st' rows,
      forEach a n k l st = Normal st'
      /\ files st' = files st ++ rows
      /\ Forall2 record_for (filter qualifies l) rows)
  /\ (forall file,
         qualifies file
         = negb (isFolder file)
           && (includes (mimeType file) "image/"
               || includes (mimeType file) "audio/"
               || includes (mimeType file) "video/"))
  /\ (forall file, beginsWithMedia (mimeType file) = true -> qualifies file = true)
  /\ (forall file, isMedia (mimeType file) = false -> qualifies file = false).
Proof.
  intros Hl. split; [|split; [|split]].
  - rewrite forEach_effect, Hl.
    exists (grown st (listing_rows a l) (listing_calls a n k l)), (listing_rows a l).
    split; [reflexivity|]. split; [reflexivity|]. now apply listing_rows_records.
  - intros file. unfold qualifies, isMedia. now rewrite !indexOf_includes.
  - intros file Hb. unfold qualifies.
    now rewrite (beginsWithMedia_not_folder file Hb), (beginsWithMedia_isMedia _ Hb).
  - intros file Hm. unfold qualifies. rewrite Hm. apply andb_false_r.
Qed.

Lemma record_iff_media_witness :
  exists st' row_img row_clip,
    forEach root_args [] 0 mixed_listing empty_state = Normal st'
    /\ files st' = [row_img; row_clip]
    /\ record_for img_jpg row_img /\ record_for clip_mp4 row_clip.
Proof.
  destruct (proj1 (record_iff_media root_args [] 0 mixed_listing empty_state eq_refl))
    as (st' & rows & Hst & Hfiles & Hrec).
  change (filter qualifies mixed_listing) with [img_jpg; clip_mp4] in Hrec.
  inversion Hrec as [|f1 r1 fs rs H1 Hrest]; subst.
  inversion Hrest as [|f2 r2 fs' rs' H2 Hnil]; subst. inversion Hnil; subst.
  exists st', r1, r2. split; [exact Hst|]. split; [exact Hfiles|]. now split.
Defined.

End Listing.

(** ** The category and the folder chain *)

Section Category.
Local Open Scope list_scope.

(** C5: the chain of folder names never reaches the category.  In the
    scenario of the specification the Record of [clip.mp4], which lies in
    folder [A], has the category of the drive root, and the path computed
    for [A] is found in its owner id column instead.  In general, in the
    first run on a page, every suspended call has an empty folder path,
    whatever the depth of its folder, and every Record has the category that
    a file of the drive root has. *)
Theorem category_omits_folder_chain :
  (exists st row_img row_clip,
      run [Answer 0; Answer 0] (makeCsv scenario_form scenario_drive loaded) = Some st
      /\ files st = [row_img; row_clip]
      /\ nth 0 row_img VUndefined = VString "img.jpg"
      /\ nth 6 row_img VUndefined = VString "Cat>site>channels>Drive "
      /\ nth 0 row_clip VUndefined = VString "clip.mp4"
      /\ nth 6 row_clip VUndefined = VString "Cat>site>channels>Drive "
      /\ nth 8 row_clip VUndefined = VString " - A")
  /\ (forall form drive es st,
         run es (makeCsv form drive loaded) = Some st ->
         Forall (fun c => folderPath (args c) = EmptyString) (calls st)
         /\ Forall (fun row =>
                      nth 6 row VUndefined
                      = VString ((root_category form ++ ">site>channels") ++ ">"
                                 ++ drive_name form ++ " "))
                   (files st)).
Proof.
  split.
  - exists_run [Answer 0; Answer 0] (makeCsv scenario_form scenario_drive loaded).
    do 2 eexists. split; [vm_compute; reflexivity|]. now repeat split.
  - intros form drive es st Hrun.
    destruct (reachable_columns form drive es st Hrun) as [Hrows Hcalls]. split.
    + eapply Forall_impl; [|exact Hcalls]. now intros c (_ & _ & _ & Hp & _).
    + eapply Forall_impl; [|exact Hrows].
      now intros row (title & text & ref & mt & email & owner & -> & _).
Qed.

Lemma category_omits_folder_chain_witness :
  exists st,
    run [Answer 0; Answer 0] (makeCsv scenario_form scenario_drive loaded) = Some st
    /\ Forall (fun row => nth 6 row VUndefined = VString "Cat>site>channels>Drive ")
              (files st).
Proof.
  exists_run [Answer 0; Answer 0] (makeCsv scenario_form scenario_drive loaded).
  split; [vm_compute; reflexivity|].
  eapply (proj2 category_omits_folder_chain scenario_form scenario_drive
                [Answer 0; Answer 0]).
  vm_compute; reflexivity.
Defined.

End Category.

(** ** What holds of a page whatever is pressed *)

Section Page.
Local Open Scope list_scope.

Lemma firstn_front {A : Type} (N : nat) (l more : list A) :
  (N <= List.length l)%nat -> firstn N (l ++ more) = firstn N l.
Proof.
  intros H. rewrite firstn_app. replace (N - List.length l)%nat with 0%nat by lia.
  cbn [firstn]. apply app_nil_r.
Qed.

Lemma page_invariant_incl (names names' : list string) (st : State) :
  incl names names' -> page_invariant names st -> page_invariant names' st.
Proof.
  intros Hincl (Hdocs & Hrows & Hclos & Htimer & Horph & Halerts).
  split; [|split; [exact Hrows|split; [|split; [|split; [|exact Halerts]]]]].
  - intros text fileName Hin. destruct (Hdocs text fileName Hin) as (Hn & m & N & Hm & HN & Ht).
    split; [exact Hn|]. exists m, N. split; [now apply Hincl | now split].
  - eapply Forall_impl; [|exact Hclos]. intros c Hc m E. apply Hincl. now apply Hc.
  - intros Hi. apply Hincl. now apply Htimer.
  - eapply Forall_impl; [|exact Horph]. intros m Hm. now apply Hincl.
Qed.

(** The invariant only speaks of [files], the suspended calls, the outputs
    and the timers. *)
Lemma page_invariant_same (names : list string) (st st' : State) :
  files st' = files st -> calls st' = calls st ->
  downloads st' = downloads st -> alerts st' = alerts st ->
  inter st' = inter st -> timer st' = timer st -> orphans st' = orphans st ->
  page_invariant names st -> page_invariant names st'.
Proof.
  unfold page_invariant. intros -> -> -> -> -> -> ->. exact (fun H => H).
Qed.

Lemma page_invariant_visit (names : list string) (st : State)
      (rows : list (list value)) (r : list string) (cs : list Call) (v : list Node) :
  page_invariant names st ->
  Forall row_shape rows ->
  Forall (fun c => forall metadataFieldNames,
              cont c = ThenMakeCsv metadataFieldNames -> In metadataFieldNames names) cs ->
  page_invariant names
    (mkState (files st ++ rows) r (inter st) cs (alerts st) (downloads st) v
             (timer st) (orphans st)).
Proof.
  intros (Hdocs & Hrows & _ & Htimer & Horph & Halerts) Hr Hcs.
  unfold page_invariant. cbn.
  split; [|split; [now apply Forall_app|now repeat split]].
  intros text fileName Hin.
  destruct (Hdocs text fileName Hin) as (Hn & m & N & Hm & HN & Ht).
  split; [exact Hn|]. exists m, N. split; [exact Hm|].
  split; [rewrite length_app; lia|]. rewrite firstn_front by lia. exact Ht.
Qed.

Lemma page_invariant_setInterval (names : list string) (metadataFieldNames : string)
      (st : State) :
  page_invariant names st -> In metadataFieldNames names ->
  page_invariant names (setInterval metadataFieldNames st).
Proof.
  intros (Hdocs & Hrows & Hclos & Htimer & Horph & Halerts) Hin.
  unfold page_invariant, setInterval. cbn.
  split; [exact Hdocs|]. split; [exact Hrows|]. split; [exact Hclos|].
  split; [intros _; exact Hin|]. split; [|exact Halerts].
  destruct (inter st) eqn:Hi; try exact Horph.
  apply Forall_app. split; [exact Horph|]. constructor; [now apply Htimer | constructor].
Qed.

Lemma page_invariant_interval_callback (names : list string)
      (metadataFieldNames : string) (st : State) :
  page_invariant names st -> In metadataFieldNames names ->
  page_invariant names (interval_callback metadataFieldNames st).
Proof.
  intros HP Hin. unfold interval_callback.
  destruct (List.length (runs st) =? 0)%nat; [|exact HP].
  assert (HC : page_invariant names (clearInterval st)
               /\ files (clearInterval st) = files st).
  { unfold clearInterval. destruct (inter st) eqn:Hi; (split; [|reflexivity]);
      try exact HP; destruct HP as (Hdocs & Hrows & Hclos & Htimer & Horph & Halerts);
      unfold page_invariant; cbn;
      (split; [exact Hdocs|]); (split; [exact Hrows|]); (split; [exact Hclos|]);
      (split; [discriminate|]); split; assumption. }
  destruct HC as [(Hdocs & Hrows & Hclos & Htimer & Horph & Halerts) Hfiles].
  rewrite Hfiles. destruct (List.length (files st) =? 0)%nat eqn:Hf.
  - unfold page_invariant, alert. cbn. rewrite Hfiles in *.
    split; [exact Hdocs|]. split; [exact Hrows|]. split; [exact Hclos|].
    split; [exact Htimer|]. split; [exact Horph|].
    apply Forall_app. split; [exact Halerts | now repeat constructor].
  - apply Nat.eqb_neq in Hf. unfold page_invariant, downloadCSV. cbn.
    rewrite Hfiles in *.
    split; [|now repeat split].
    intros text fileName Hd. apply in_app_or in Hd. destruct Hd as [Hd|[Hd|[]]].
    + now apply Hdocs.
    + injection Hd as <- <-. split; [reflexivity|].
      exists metadataFieldNames, (List.length (files st)).
      split; [exact Hin|]. split; [lia|]. now rewrite firstn_all.
Qed.

(** Which closure the callback of a timer event has. *)
Lemma step_timer_names (e : Event) (st st' : State) :
  match e with Tick | Tock _ => True | _ => False end ->
  step e st = Some st' ->
  exists metadataFieldNames,
    st' = interval_callback metadataFieldNames st
    /\ ((inter st = Running /\ metadataFieldNames = timer st)
        \/ In metadataFieldNames (orphans st)).
Proof.
  intros He H. destruct e as [i|i| |j]; try contradiction; cbn [step] in H.
  - destruct (inter st) eqn:Hi; try discriminate. injection H as <-.
    eexists. split; [reflexivity|]. left. now split.
  - destruct (nth_error (orphans st) j) as [m|] eqn:E; [|discriminate].
    injection H as <-. exists m. split; [reflexivity|]. right.
    now apply nth_error_In with j.
Qed.

Lemma page_invariant_step (names : list string) (e : Event) (st st' : State) :
  page_invariant names st -> step e st = Some st' -> page_invariant names st'.
Proof.
  intros HP H. destruct e as [i|i| |j].
  - cbn [step] in H.
    destruct (take i (calls st)) as [[c others]|] eqn:Ht; [|discriminate].
    pose proof HP as (_ & _ & Hclos & _).
    destruct (take_Forall _ _ _ _ _ Ht Hclos) as [Hc_clos Ho_clos].
    destruct (answer_shape st i c others Ht)
      as (rows & spawned & st1 & Hres & Hst1 & Hr & _ & _ & _ & _ & Hsp).
    assert (HP1 : page_invariant names st1).
    { rewrite Hst1. apply page_invariant_visit; [exact HP | exact Hr |].
      apply Forall_app. split; [exact Ho_clos|].
      eapply Forall_impl; [|exact Hsp]. intros c' Hc' m E.
      unfold isSubfolderCall in Hc'. rewrite E in Hc'. discriminate. }
    destruct Hres as [Hres|Hres]; rewrite Hres in H.
    + destruct (cont c) as [|m] eqn:Hk; injection H as <-.
      * now apply (page_invariant_same names st1).
      * apply page_invariant_setInterval; [exact HP1 | now apply Hc_clos].
    + now injection H as <-.
  - cbn [step] in H.
    destruct (take i (calls st)) as [[c others]|] eqn:Ht; [|discriminate].
    injection H as <-. destruct HP as (Hdocs & Hrows & Hclos & Htimer & Horph & Halerts).
    destruct (take_Forall _ _ _ _ _ Ht Hclos) as [_ Ho_clos].
    unfold page_invariant. cbn.
    split; [exact Hdocs|]. split; [exact Hrows|]. split; [exact Ho_clos|].
    split; [exact Htimer|]. split; assumption.
  - destruct (step_timer_names Tick st st' I H) as (m & -> & Hm).
    apply page_invariant_interval_callback; [exact HP|].
    destruct HP as (_ & _ & _ & Htimer & Horph & _).
    destruct Hm as [[Hi ->]|Hm]; [now apply Htimer|].
    rewrite Forall_forall in Horph. now apply Horph.
  - destruct (step_timer_names (Tock j) st st' I H) as (m & -> & Hm).
    apply page_invariant_interval_callback; [exact HP|].
    destruct HP as (_ & _ & _ & Htimer & Horph & _).
    destruct Hm as [[Hi ->]|Hm]; [now apply Htimer|].
    rewrite Forall_forall in Horph. now apply Horph.
Qed.

Lemma page_invariant_makeCsv (names : list string) (form : Index.Form)
      (drive : list File) (st : State) :
  page_invariant names st ->
  page_invariant (names ++ [metadata_fields form]) (makeCsv form drive st).
Proof.
  intros HP.
  apply (page_invariant_incl names (names ++ [metadata_fields form])) in HP;
    [|intros m Hm; apply in_or_app; now left].
  destruct HP as (Hdocs & Hrows & Hclos & Htimer & Horph & Halerts).
  unfold page_invariant, makeCsv, getDriveFiles. cbn.
  split; [exact Hdocs|]. split; [exact Hrows|]. split; [|now repeat split].
  apply Forall_app. split; [exact Hclos|]. constructor; [|constructor].
  cbn. intros m E. injection E as <-. apply in_or_app. right. now left.
Qed.

Lemma page_invariant_session (presses : list (Index.Form * list File * list Event)) :
  forall (names : list string) (st0 st : State),
    page_invariant names st0 ->
    session presses st0 = Some st ->
    page_invariant (names ++ names_read presses) st.
Proof.
  induction presses as [|[[form drive] es] presses IH]; intros names st0 st HP H.
  - cbn in H. injection H as <-. unfold names_read. cbn [map]. now rewrite app_nil_r.
  - cbn [session] in H.
    destruct (run es (makeCsv form drive st0)) as [st1|] eqn:E; [|discriminate].
    unfold names_read. cbn [map fst].
    change (names ++ metadata_fields form :: map _ presses)
      with (names ++ [metadata_fields form] ++ names_read presses).
    rewrite app_assoc. apply (IH _ st1 st); [|exact H].
    apply (run_invariant (page_invariant (names ++ [metadata_fields form]))
                         (page_invariant_step _) es (makeCsv form drive st0) st1);
      [|exact E].
    now apply page_invariant_makeCsv.
Qed.

Lemma page_invariant_loaded : page_invariant [] loaded.
Proof.
  unfold page_invariant, loaded. cbn.
  split; [intros text fileName []|]. now repeat split.
Qed.

Lemma page_state_invariant (presses : list (Index.Form * list File * list Event))
      (st : State) :
  session presses loaded = Some st -> page_invariant (names_read presses) st.
Proof.
  intros H. exact (page_invariant_session presses [] loaded st page_invariant_loaded H).
Qed.

End Page.

(** ** The description in the line and in the document *)

Section Description.
Local Open Scope list_scope.

Lemma arrayToCSVLine_description (title : value) (text : string) (rest : list value) :
  rest <> [] -> includes text (str LF) = true ->
  arrayToCSVLine (title :: VString text :: rest)
  = (toJoinString (csvValue title) ++ "," ++ quoted text ++ ","
       ++ arrayToCSVLine rest)%string.
Proof.
  intros Hne Hnl. destruct rest as [|r rest]; [contradiction|].
  unfold arrayToCSVLine, joinValues, join. cbn [map].
  rewrite (csvValue_newline text Hnl). reflexivity.
Qed.

Lemma row_quotes_description (row : list value) :
  row_shape row ->
  exists text,
    nth 1 row VUndefined = VString text
    /\ includes text (str LF) = true
    /\ quotes_description row text
    /\ (Forall (fun v => quote_safe v = true) row ->
        nth 1 (csv_fields (arrayToCSVLine row)) EmptyString = quoted text
        /\ csv_unquote (nth 1 (csv_fields (arrayToCSVLine row)) EmptyString) = text).
Proof.
  intros (a & title & text & url & ref & mt & email & -> & Hnl).
  exists text. split; [reflexivity|]. split; [exact Hnl|]. split.
  - eexists _, _. split; [reflexivity|].
    apply arrayToCSVLine_description; [discriminate | exact Hnl].
  - intros Hsafe.
    match goal with |- context [arrayToCSVLine ?r] => set (row := r) in * end.
    assert (Hf : csv_fields (arrayToCSVLine row)
                 = map toJoinString (map csvValue row)).
    { pose proof (dataLine_fields 0 row) as H. unfold dataLine in H.
      cbn [commas repeat] in H. rewrite sapp_nil_r, app_nil_r in H.
      apply H; [discriminate | exact Hsafe]. }
    rewrite Hf. subst row. cbn [map nth]. rewrite (csvValue_newline text Hnl).
    cbn [toJoinString]. split; [reflexivity | apply csv_unquote_quoted].
Qed.

(** C10: the description of a Record is [By], the display name of the first
    owner, [in], the name of the folder being listed, a full stop, a space, a
    newline and the description of the entry (empty when absent).  The folder
    name is the name of the folder entry the visit was started for (empty for
    the drive root).  The description therefore holds a newline, and for
    every Record of the page, whatever was pressed, [arrayToCSVLine] writes
    it between double quotes, its own double quotes doubled, as the second
    field of the line; every data line of every document handed out is the
    line that [arrayToCSVLine] gives for a Record of the page, followed by
    the commas of the metadata columns.  A reader that respects double quotes
    finds the quoted description as the second field and gets the
    description back from it, when a double quote occurs in the other
    fields only together with a comma or a newline. *)
Theorem description_field :
  (forall a n k file st st',
      isFolder file = false -> isMedia (mimeType file) = true ->
      forEach_callback a n k file st = Normal st' ->
      exists owner0 others row,
        owners file = owner0 :: others
        /\ st' = files_push row st
        /\ let text := ("By " ++ displayName owner0 ++ " in " ++ folderName a ++ ". "
                        ++ str LF
                        ++ match description file with
                           | Some d => d
                           | None => EmptyString
                           end)%string in
           nth 1 row VUndefined = VString text
           /\ includes text (str LF) = true
           /\ quotes_description row text)
  /\ (forall a n k folder st,
         isFolder folder = true ->
         exists c st',
           forEach_callback a n k folder st = Normal st'
           /\ calls st' = calls st ++ [c]
           /\ folderName (args c) = name folder
           /\ reply c = listing folder)
  /\ (forall form drive st,
         exists c, calls (makeCsv form drive st) = calls st ++ [c]
                   /\ folderName (args c) = EmptyString /\ reply c = drive)
  /\ (forall st,
         page_state st ->
         Forall (fun row =>
                   exists text,
                     nth 1 row VUndefined = VString text
                     /\ includes text (str LF) = true
                     /\ quotes_description row text
                     /\ (Forall (fun v => quote_safe v = true) row ->
                         nth 1 (csv_fields (arrayToCSVLine row)) EmptyString
                         = quoted text
                         /\ csv_unquote
                              (nth 1 (csv_fields (arrayToCSVLine row)) EmptyString)
                            = text))
                (files st))
  /\ (forall st text fileName,
         page_state st -> In (text, fileName) (downloads st) ->
         exists metadataFieldNames rows more,
           files st = rows ++ more
           /\ text = (headerText metadataFieldNames ++ str LF
                        ++ unlines
                             (map (fun row =>
                                     arrayToCSVLine row
                                       ++ commas (List.length
                                                    (split COMMA metadataFieldNames)))
                                  rows))%string).
Proof.
  split; [|split; [|split; [|split]]].
  - intros a n k file st st' Hf Hm H.
    destruct (throws file) eqn:Ht.
    { rewrite (callback_throws a n k file st Ht) in H. discriminate. }
    destruct (callback_media a n k file st Hf Hm Ht) as (w & o & os & _ & Ho & E).
    rewrite E in H. injection H as <-.
    exists o, os. eexists. split; [exact Ho|]. split; [reflexivity|].
    cbv zeta. split; [reflexivity|].
    split; [apply description_has_newline|].
    eexists _, _. split; [reflexivity|].
    apply arrayToCSVLine_description; [discriminate|].
    exact (description_has_newline _ _ _).
  - intros a n k folder st Hf. unfold forEach_callback.
    unfold isFolder in Hf. rewrite Hf.
    do 2 eexists. split; [reflexivity|]. simpl. repeat split.
  - intros form drive st. eexists. repeat split.
  - intros st [presses Hst].
    destruct (page_state_invariant presses st Hst) as (_ & Hrows & _).
    eapply Forall_impl; [|exact Hrows].
    intros row Hrow. exact (row_quotes_description row Hrow).
  - intros st text fileName [presses Hst] Hin.
    destruct (page_state_invariant presses st Hst) as (Hdocs & _).
    destruct (Hdocs text fileName Hin) as (_ & m & N & _ & _ & ->).
    exists m, (firstn N (files st)), (skipn N (files st)).
    split; [symmetry; apply firstn_skipn|].
    rewrite csvDocument_eq, dataLines_unlines. reflexivity.
Qed.

Lemma description_field_witness :
  (exists row,
      forEach_callback root_args [] 1 img_jpg empty_state
      = Normal (files_push row empty_state)
      /\ nth 1 row VUndefined = VString ("By Bob in . " ++ str LF)%string
      /\ quotes_description row ("By Bob in . " ++ str LF)%string)
  /\ exists st,
      session two_runs loaded = Some st
      /\ Forall (fun row => exists text, quotes_description row text) (files st).
Proof.
  split.
  - destruct (proj1 description_field root_args [] 1%nat img_jpg empty_state _
                eq_refl eq_refl eq_refl)
      as (o & os & row & Ho & Hst & Ht & _ & Hq).
    exists row. injection Ho as <- <-. split; [now rewrite <- Hst|].
    split; [exact Ht | exact Hq].
  - let r := eval vm_compute in (session two_runs loaded) in
    match r with Some ?s => exists s end.
    split; [vm_compute; reflexivity|].
    eapply Forall_impl;
      [|apply (proj1 (proj2 (proj2 (proj2 description_field))));
        exists two_runs; vm_compute; reflexivity].
    intros row (text & _ & _ & Hq & _). now exists text.
Defined.

End Description.

(** ** The lines of the documents of a page *)

Section Documents.
Local Open Scope list_scope.

Lemma Forall_firstn_front {A : Type} (P : A -> Prop) (n : nat) (l : list A) :
  Forall P l -> Forall P (firstn n l).
Proof.
  intros H. rewrite <- (firstn_skipn n l) in H. apply Forall_app in H. tauto.
Qed.

(** C3, as stated, fails.  A single file whose name begins with a double
    quote gives one Record, but the document does not have two lines,
    whether newlines inside quotes are counted or not, and its data lines
    do not have eleven fields.  In the scenario of the specification every
    Record spans two lines when each newline is counted; and with a metadata
    field name that holds a double quote the data lines do not have eleven
    fields.  And when the button is pressed again after a run that has
    collected one Record, a traversal that collects one Record gives a
    document of three lines: the line of the earlier Record is in it. *)
Lemma rows_and_fields_disagree :
  (exists st text,
      run [Answer 0; Tick] (makeCsv scenario_form quoted_name_drive loaded)
      = Some st
      /\ List.length (files st) = 1%nat
      /\ downloads st = [(text, "bulk_upload.csv"%string)]
      /\ List.length (csv_lines text) = 3%nat
      /\ List.length (raw_lines text) = 3%nat
      /\ map (fun line => List.length (csv_fields line)) (csv_lines text)
         = [11; 1; 1]%nat)
  /\ (exists st text,
         run [Answer 0; Answer 0; Tick]
             (makeCsv scenario_form scenario_drive loaded) = Some st
         /\ List.length (files st) = 2%nat
         /\ downloads st = [(text, "bulk_upload.csv"%string)]
         /\ List.length (raw_lines text) = 5%nat)
  /\ (exists st text,
         run [Answer 0; Answer 0; Tick]
             (makeCsv quoted_field_form scenario_drive loaded) = Some st
         /\ List.length (files st) = 2%nat
         /\ downloads st = [(text, "bulk_upload.csv"%string)]
         /\ map (fun line => List.length (csv_fields line)) (csv_lines text)
            = [11; 1; 1]%nat)
  /\ (exists st1 st2 row text,
         run [Answer 0; Tick] (makeCsv scenario_form one_image_drive loaded) = Some st1
         /\ run [Answer 0; Tick] (makeCsv scenario_form one_video_drive st1) = Some st2
         /\ files st2 = files st1 ++ [row]
         /\ downloads st2 = downloads st1 ++ [(text, "bulk_upload.csv"%string)]
         /\ List.length (csv_lines text) = 3%nat).
Proof.
  split; [|split; [|split]];
    [do 2 eexists | do 2 eexists | do 2 eexists | do 4 eexists];
    repeat (split; [vm_compute; reflexivity|]); vm_compute; reflexivity.
Qed.

(** C3, amended: every document handed out, whatever was pressed on the
    page, is the document of the Records that [files] held when it was
    built, all those collected since the page was loaded, for the metadata
    field names read at one of the presses; in the first run on a page these
    are the Records of its traversal.  When no metadata field name read
    holds a double quote or a newline, and a double quote occurs in a field
    of a Record only if a comma or a newline occurs in it too, the document
    has one line more than there were Records, a newline inside a quoted
    field not ending a line; its first line is the header; and every line,
    the header included, has ten top-level fields and one more per metadata
    field name. *)
Theorem document_rows
        (presses : list (Index.Form * list File * list Event)) (st : State)
        (text fileName : string) :
  session presses loaded = Some st ->
  In (text, fileName) (downloads st) ->
  Forall (fun names => includes names (str DQUOTE) = false
                       /\ includes names (str LF) = false)
         (names_read presses) ->
  Forall (Forall (fun v => quote_safe v = true)) (files st) ->
  exists metadataFieldNames N,
    In metadataFieldNames (names_read presses)
    /\ (1 <= N <= List.length (files st))%nat
    /\ text = csvDocument metadataFieldNames (firstn N (files st))
    /\ List.length (csv_lines text) = S N
    /\ hd EmptyString (csv_lines text) = headerText metadataFieldNames
    /\ Forall (fun line =>
                 List.length (csv_fields line)
                 = (10 + List.length (split COMMA metadataFieldNames))%nat)
              (csv_lines text)
    /\ (forall form drive es,
           presses = [(form, drive, es)] ->
           metadataFieldNames = metadata_fields form /\ N = List.length (files st)).
Proof.
  intros Hst Hin Hnames Hsafe.
  assert (Hpick : exists m N,
             In m (names_read presses)
             /\ (1 <= N <= List.length (files st))%nat
             /\ text = csvDocument m (firstn N (files st))
             /\ (forall form drive es,
                    presses = [(form, drive, es)] ->
                    m = metadata_fields form /\ N = List.length (files st))).
  { destruct presses as [|[[form drive] es] [|press presses]].
    - cbn in Hst. injection Hst as <-. destruct Hin.
    - cbn [session] in Hst.
      destruct (run es (makeCsv form drive loaded)) as [st1|] eqn:Hrun; [|discriminate].
      injection Hst as ->.
      destruct (reachable_invariant form drive st (ex_intro _ es Hrun))
        as (_ & _ & _ & _ & Hend & _).
      assert (Hdoc : text = csvDocument (metadata_fields form) (files st)
                     /\ files st <> []).
      { destruct (inter st).
        - destruct Hend as [_ Hd]. rewrite Hd in Hin. contradiction.
        - destruct Hend as [_ Hd]. rewrite Hd in Hin. contradiction.
        - destruct Hend as [_ [(_ & _ & Hd)|(Hne & _ & Hd)]]; rewrite Hd in Hin.
          + contradiction.
          + destruct Hin as [E|[]]. injection E as <- _. now split. }
      destruct Hdoc as [-> Hne].
      exists (metadata_fields form), (List.length (files st)).
      split; [now left|]. split.
      + destruct (files st); [contradiction | cbn; lia].
      + split; [now rewrite firstn_all|].
        intros form' drive' es' E. injection E as <- _ _. now split.
    - destruct (page_state_invariant _ st Hst) as (Hdocs & _).
      destruct (Hdocs text fileName Hin) as (_ & m & N & Hm & HN & Ht).
      exists m, N. split; [exact Hm|]. split; [exact HN|]. split; [exact Ht|].
      intros form' drive' es' E. discriminate E. }
  destruct Hpick as (m & N & Hm & HN & -> & Hfirst).
  exists m, N. split; [exact Hm|]. split; [exact HN|]. split; [reflexivity|].
  rewrite Forall_forall in Hnames. destruct (Hnames m Hm) as [Hq Hl].
  destruct (page_state_invariant _ st Hst) as (_ & Hrows & _).
  destruct (document_lines m (firstn N (files st)) Hq Hl) as [Hlines Hfields].
  - apply Forall_firstn_front. eapply Forall_impl; [|exact Hrows].
    intros row Hrow. now destruct (row_shape_description row Hrow).
  - now apply Forall_firstn_front.
  - rewrite Hlines in *. split; [|split; [reflexivity | split; [exact Hfields | exact Hfirst]]].
    cbn [List.length]. now rewrite length_map, firstn_length_le by lia.
Qed.

Lemma document_rows_witness :
  exists st text N,
    session two_runs loaded = Some st
    /\ nth 1 (downloads st) (EmptyString, EmptyString) = (text, "bulk_upload.csv"%string)
    /\ (1 <= N <= 2)%nat
    /\ List.length (csv_lines text) = S N.
Proof.
  let r := eval vm_compute in (session two_runs loaded) in
  match r with
  | Some ?s =>
      let t := eval vm_compute in
                 (fst (nth 1 (downloads s) (EmptyString, EmptyString))) in
      exists s, t;
      destruct (document_rows two_runs s t "bulk_upload.csv") as (m & N & _ & HN & _ & Hlen & _);
      [vm_compute; reflexivity
      | right; left; reflexivity
      | repeat constructor
      | repeat constructor
      | exists N; split; [vm_compute; reflexivity|]; split; [reflexivity|];
        split; [exact HN | exact Hlen] ]
  end.
Defined.

End Documents.

(** ** A run on a page that was used before *)

Section Again.
Local Open Scope list_scope.


Lemma makeCsv_continued (form : Index.Form) (drive : list File) (st0 : State) :
  idle st0 -> files st0 = [] ->
  makeCsv form drive st0 = continued st0 (makeCsv form drive loaded).
Proof.
  intros (Hc & Hr & _ & Ho) Hf. destruct st0 as [f r i c a d v t o].
  cbn in Hc, Hr, Ho, Hf. subst.
  unfold makeCsv, getDriveFiles, continued, set_calls, loaded. cbn.
  now rewrite !app_nil_r.
Qed.

Lemma answered_continued (st0 s : State) (c : Call) (others : list Call) :
  answered (continued st0 s) c others = continued st0 (answered s c others).
Proof.
  unfold answered, grown, mark_visited, set_calls, continued. cbn.
  now rewrite app_assoc.
Qed.

Lemma setInterval_continued (st0 s : State) (metadataFieldNames : string) :
  inter st0 <> Running ->
  setInterval metadataFieldNames (continued st0 s)
  = continued st0 (setInterval metadataFieldNames s).
Proof.
  intros Hn. unfold setInterval, continued. cbn.
  destruct (inter s); [destruct (inter st0); [reflexivity|contradiction|reflexivity]
                      |reflexivity|reflexivity].
Qed.

Lemma interval_callback_continued (st0 s : State) (metadataFieldNames : string) :
  inter st0 <> Running ->
  interval_callback metadataFieldNames (continued st0 s)
  = continued st0 (interval_callback metadataFieldNames s).
Proof.
  intros Hn. unfold interval_callback. cbn [runs continued].
  destruct (List.length (runs s) =? 0)%nat; [|reflexivity].
  assert (Hc : clearInterval (continued st0 s) = continued st0 (clearInterval s)).
  { unfold clearInterval, continued, set_inter. cbn.
    destruct (inter s) eqn:Hi; cbn; rewrite ?Hi; try reflexivity.
    destruct (inter st0) eqn:H0; cbn; rewrite ?Hi, ?H0; try reflexivity.
    contradiction. }
  rewrite Hc. cbn [files continued]. generalize (clearInterval s). intros s'.
  destruct (List.length (files s') =? 0)%nat;
    unfold alert, downloadCSV, continued; cbn; now rewrite app_assoc.
Qed.

(** On a page that is idle and holds no Record, every event does what it
    does in the first run on a page. *)
Lemma step_continued (st0 s : State) (e : Event) :
  inter st0 <> Running ->
  step e (continued st0 s) = option_map (continued st0) (step e s).
Proof.
  intros Hn. destruct e as [i|i| |j].
  - destruct (take i (calls s)) as [[c others]|] eqn:Ht.
    + rewrite (step_Answer s i c others Ht).
      rewrite (step_Answer (continued st0 s) i c others Ht).
      cbn [option_map]. f_equal. rewrite answered_continued.
      destruct (existsb throws (reply c)); [reflexivity|].
      destruct (cont c) as [|m]; [reflexivity|]. now apply setInterval_continued.
    + cbn [step calls continued]. now rewrite Ht.
  - cbn [step calls continued].
    destruct (take i (calls s)) as [[c others]|]; reflexivity.
  - cbn [step inter continued].
    destruct (inter s) eqn:Hi; cbn [option_map].
    + destruct (inter st0); [reflexivity|contradiction|reflexivity].
    + f_equal. rewrite <- (interval_callback_continued st0 s (timer s) Hn).
      f_equal. unfold continued. cbn. now rewrite Hi.
    + reflexivity.
  - cbn [step orphans continued].
    destruct (nth_error (orphans s) j) as [m|]; cbn [option_map]; [|reflexivity].
    f_equal. now apply interval_callback_continued.
Qed.

Lemma run_continued (st0 : State) (es : list Event) :
  inter st0 <> Running ->
  forall s, run es (continued st0 s) = option_map (continued st0) (run es s).
Proof.
  intros Hn. induction es as [|e es IH]; intros s; [reflexivity|].
  cbn [run]. rewrite (step_continued st0 s e Hn).
  destruct (step e s) as [s1|]; cbn [option_map]; [apply IH | reflexivity].
Qed.







(** A run started on a page on which no run is in progress and no Record
    was collected goes as the first run on a page does: the same events are
    possible, and they lead to the same globals, suspended calls and timers,
    with what the page had shown and handed out before still in front. *)
Theorem idle_page_runs_as_first
        (form : Index.Form) (drive : list File) (st0 : State) (es : list Event) :
  idle st0 -> files st0 = [] ->
  run es (makeCsv form drive st0)
  = option_map (continued st0) (run es (makeCsv form drive loaded)).
Proof.
  intros Hidle Hf. pose proof Hidle as (_ & _ & Hn & _).
  rewrite (makeCsv_continued form drive st0 Hidle Hf). now apply run_continued.
Qed.

Lemma idle_page_runs_as_first_witness :
  exists st0 s,
    run [Answer 0; Tick] (makeCsv scenario_form empty_drive loaded) = Some st0
    /\ run [Answer 0; Answer 0] (makeCsv scenario_form scenario_drive loaded) = Some s
    /\ run [Answer 0; Answer 0] (makeCsv scenario_form scenario_drive st0)
       = Some (continued st0 s).
Proof.
  exists_run [Answer 0; Tick] (makeCsv scenario_form empty_drive loaded).
  exists_run [Answer 0; Answer 0] (makeCsv scenario_form scenario_drive loaded).
  split; [vm_compute; reflexivity|]. split; [vm_compute; reflexivity|].
  rewrite idle_page_runs_as_first;
    [vm_compute; reflexivity | repeat split; discriminate | reflexivity].
Defined.

End Again.

(** ** Timers that can no longer be stopped *)

Section Timers.
Local Open Scope list_scope.

Lemma interval_callback_orphans (metadataFieldNames : string) (st : State) :
  orphans (interval_callback metadataFieldNames st) = orphans st.
Proof.
  unfold interval_callback, clearInterval.
  destruct (List.length (runs st) =? 0)%nat; [|reflexivity].
  destruct (inter st); cbn [files set_inter];
    destruct (List.length (files st) =? 0)%nat; reflexivity.
Qed.

Lemma step_orphans (e : Event) (st st' : State) :
  step e st = Some st' -> exists more, orphans st' = orphans st ++ more.
Proof.
  intros H. destruct e as [i|i| |j].
  - destruct (take i (calls st)) as [[c others]|] eqn:Ht;
      [|cbn [step] in H; rewrite Ht in H; discriminate].
    rewrite (step_Answer st i c others Ht) in H. injection H as <-.
    destruct (existsb throws (reply c)); [exists []; now rewrite app_nil_r|].
    destruct (cont c) as [|m]; [exists []; now rewrite app_nil_r|].
    unfold setInterval. cbn.
    destruct (inter st); [exists [] | exists [timer st] | exists []];
      now rewrite ?app_nil_r.
  - cbn [step] in H. destruct (take i (calls st)) as [[c others]|]; [|discriminate].
    injection H as <-. exists []. now rewrite app_nil_r.
  - destruct (step_timer Tick st st' I H) as [m ->].
    exists []. now rewrite interval_callback_orphans, app_nil_r.
  - destruct (step_timer (Tock j) st st' I H) as [m ->].
    exists []. now rewrite interval_callback_orphans, app_nil_r.
Qed.

(** When the callback of line 78 runs while the timer that [inter] names is
    running, as it does when the button is pressed again before a run is
    over, that timer is left running and nothing names it any more.  Such a
    timer is never stopped: whatever happens afterwards it can still fire,
    with the same closure, and each time it fires while [runs] is empty the
    page raises one more notice or hands out one more document. *)
Theorem orphaned_timer_never_stops
        (es : list Event) (st st' : State) (j : nat) (metadataFieldNames : string) :
  nth_error (orphans st) j = Some metadataFieldNames ->
  run es st = Some st' ->
  nth_error (orphans st') j = Some metadataFieldNames
  /\ step (Tock j) st' = Some (interval_callback metadataFieldNames st')
  /\ (runs st' = [] ->
      (List.length (alerts (interval_callback metadataFieldNames st'))
       + List.length (downloads (interval_callback metadataFieldNames st'))
       = S (List.length (alerts st') + List.length (downloads st')))%nat)
  /\ (forall names, inter st' = Running ->
                    orphans (then_makeCsv names st') = orphans st' ++ [timer st']).
Proof.
  intros Hj Hrun.
  assert (Hj' : nth_error (orphans st') j = Some metadataFieldNames).
  { revert st Hj Hrun. induction es as [|e es IH]; intros st Hj Hrun; cbn [run] in Hrun.
    - now injection Hrun as <-.
    - destruct (step e st) as [st1|] eqn:E; [|discriminate].
      apply (IH st1); [|exact Hrun].
      destruct (step_orphans e st st1 E) as [more ->].
      rewrite nth_error_app1; [exact Hj|]. apply nth_error_Some. congruence. }
  split; [exact Hj'|]. split; [cbn [step]; now rewrite Hj'|]. split.
  - intros Hr. unfold interval_callback, clearInterval. rewrite Hr. cbn [List.length Nat.eqb].
    destruct (inter st'); cbn [files set_inter];
      destruct (List.length (files st') =? 0)%nat; cbn;
      rewrite length_app; cbn [List.length]; lia.
  - intros names Hi. unfold then_makeCsv, setInterval. cbn. now rewrite Hi.
Qed.

Lemma orphaned_timer_never_stops_witness :
  exists st st',
    run [Answer 0; Answer 0]
        (makeCsv scenario_form empty_drive (makeCsv scenario_form empty_drive loaded))
    = Some st
    /\ orphans st = ["m"%string]
    /\ run [Tick; Tock 0] st = Some st'
    /\ inter st' = Cleared
    /\ step (Tock 0) st' = Some (interval_callback "m" st').
Proof.
  exists_run [Answer 0; Answer 0]
             (makeCsv scenario_form empty_drive (makeCsv scenario_form empty_drive loaded)).
  match goal with
  | |- exists st', _ /\ _ /\ run ?es ?s = _ /\ _ =>
      exists_run es s;
      split; [vm_compute; reflexivity|];
      split; [reflexivity|];
      split; [vm_compute; reflexivity|];
      split; [reflexivity|];
      eapply (orphaned_timer_never_stops es s _ 0%nat "m"%string);
      [reflexivity | vm_compute; reflexivity]
  end.
Defined.

End Timers.

(** ** Sample evaluations of [capitalizeFLetter] *)

(** The words [ea] and [ssa] with an acute accent on the [e] and with a
    sharp s for [ss]: the first letter is put in upper case as Unicode has
    it, the sharp s becoming two letters. *)
Example capitalize_e_acute :
  capitalizeFLetter (bytes [195; 169; 97]%N) = Some (bytes [195; 137; 97]%N).
Proof. vm_compute. reflexivity. Qed.

Example capitalize_sharp_s :
  capitalizeFLetter (bytes [195; 159; 97]%N) = Some "SSa"%string.
Proof. vm_compute. reflexivity. Qed.

Example capitalize_video : capitalizeFLetter "video" = Some "Video"%string.
Proof. vm_compute. reflexivity. Qed.
